(** * The realtime transport core of the chat client

    A shallow embedding of
    - [services/websocket.ts]: the class [ChatWebSocket] (connection
      lifecycle, bounded reconnect, handler registries), and
    - [components/ChatInterface.tsx]: the frame dispatcher
      [handleWebSocketMessage], the session [useEffect],
      [handleSendMessage] and the [disabled] conditions of the input, and
    - [pages/Chat.tsx]: [handleSessionSelect] and the conditional render
      of the chat.

    The [remove...Handler] methods, which the component never calls,
    compare handlers by reference; they are modelled apart from the
    instance, on registries of references.

    The code is single threaded and event driven.  Every method and every
    callback is a function on an explicit state; the browser (sockets,
    timers, console) is part of that state, and what the code asks of the
    browser is recorded, in order, in a trace. *)

From stdpp Require Import base tactics option list numbers strings.

Local Open Scope N_scope.

(** ** JavaScript strings

    A JavaScript string is a sequence of 16-bit code units. *)

Definition jsstring : Type := list N.

(** The code units of an ASCII literal. *)
Definition js (s : string) : jsstring :=
  Ascii.N_of_ascii <$> String.list_ascii_of_string s.

(** ECMAScript [WhiteSpace] and [LineTerminator] code points, the ones
    [String.prototype.trim] strips: TAB, LF, VT, FF, CR, SP, NBSP, the
    Unicode space separators and ZWNBSP. *)
Definition whiteSpaceCodes : list N :=
  [ 9; 10; 11; 12; 13; 32; 160; 5760;
    8192; 8193; 8194; 8195; 8196; 8197; 8198; 8199; 8200; 8201; 8202;
    8232; 8233; 8239; 8287; 12288; 65279 ].

Definition isWhiteSpace (c : N) : bool := bool_decide (c ∈ whiteSpaceCodes).

Fixpoint trimStart (s : jsstring) : jsstring :=
  match s with
  | c :: r => if isWhiteSpace c then trimStart r else s
  | [] => []
  end.

Definition trimEnd (s : jsstring) : jsstring := reverse (trimStart (reverse s)).

(** [String.prototype.trim] *)
Definition trim (s : jsstring) : jsstring := trimEnd (trimStart s).

(** ** The browser's WebSocket objects *)

Inductive ReadyState := CONNECTING | OPEN | CLOSING | CLOSED.

#[global] Instance ReadyState_eq_dec : EqDecision ReadyState.
Proof. solve_decision. Defined.

Record WebSocket := mkWebSocket { url : jsstring; readyState : ReadyState }.

(** What the close event carries and the code reads. *)
Record CloseEvent := mkCloseEvent { wasClean : bool; code : N }.

(** The four handler registries of a [ChatWebSocket]. *)
Inductive Registry := RMessage | RError | ROpen | RClose.

(** The lines the class writes on the console. *)
Inductive ConsoleLine :=
| LogConnected                         (* log 'WebSocket connected' *)
| LogDisconnected (ev : CloseEvent) (session : jsstring) (manual : bool)
| LogReconnecting (attempt limit : N)  (* log 'Attempting to reconnect... (a/m)' *)
| ErrParsing                           (* error 'Error parsing WebSocket message:' *)
| ErrWebSocket                         (* error 'WebSocket error:' *)
| ErrNotConnected.                     (* error 'WebSocket is not connected' *)

(** What the code asks of its environment, in the order it asks. *)
Inductive Effect :=
| EConsole (line : ConsoleLine)
| ENewWebSocket (k : nat) (u : jsstring)   (* new WebSocket(u), the k-th socket *)
| EClose (k : nat)                         (* socket k: close() *)
| ESend (k : nat) (data : jsstring)        (* socket k: send(data) *)
| ESetTimeout (t : nat) (delay : N)        (* setTimeout(reconnect, delay) = t *)
| EInvoke (r : Registry) (i : nat).        (* the i-th handler of r is called *)

Record Browser := mkBrowser {
  sockets : list WebSocket;        (* every socket constructed; index = identity *)
  timers : list (nat * N);         (* pending timeouts: id and delay *)
  nextTimer : nat;
  trace : list Effect
}.

Definition maxReconnectAttempts : N := 5.
Definition reconnectDelay : N := 1000.

Section ChatWebSocket.
(** [Msg]: a decoded frame; [Cmd]: an outgoing command; [App]: the state
    of the application the registered handlers act on. *)
Context {Msg Cmd App : Type}.

(** [JSON.parse]: [None] when it throws.  [JSON.stringify]. *)
Variable JSON_parse : jsstring → option Msg.
Variable JSON_stringify : Cmd → jsstring.
(** [config.ts]: [process.env.REACT_APP_WS_URL]. *)
Variable REACT_APP_WS_URL : option jsstring.

Definition WS_BASE_URL : jsstring :=
  match REACT_APP_WS_URL with
  | Some (c :: u) => c :: u
  | _ => js "ws://localhost:8000/ws"
  end.

Definition MessageHandler : Type := Msg → App → App.
Definition ErrorHandler : Type := App → App.
Definition ConnectionHandler : Type := App → App.

(** The fields of the class. *)
Record ChatWebSocket := mkChatWebSocket {
  ws : option nat;
  messageHandlers : list MessageHandler;
  errorHandlers : list ErrorHandler;
  openHandlers : list ConnectionHandler;
  closeHandlers : list ConnectionHandler;
  reconnectAttempts : N;
  sessionId : jsstring;
  isReconnecting : bool;
  isManuallyDisconnected : bool
}.

(** An instance together with the browser it runs in. *)
Record Conn := mkConn { this : ChatWebSocket; env : Browser }.

(** [new ChatWebSocket(sessionId)] *)
Definition constructor (id : jsstring) : ChatWebSocket :=
  mkChatWebSocket None [] [] [] [] 0 id false false.

Definition newConn (id : jsstring) : Conn :=
  mkConn (constructor id) (mkBrowser [] [] 0%nat []).

(** *** Field assignments *)

Definition set_ws (v : option nat) (o : ChatWebSocket) : ChatWebSocket :=
  mkChatWebSocket v (messageHandlers o) (errorHandlers o) (openHandlers o)
    (closeHandlers o) (reconnectAttempts o) (sessionId o) (isReconnecting o)
    (isManuallyDisconnected o).

Definition set_handlers (m : list MessageHandler) (e : list ErrorHandler)
    (op cl : list ConnectionHandler) (o : ChatWebSocket) : ChatWebSocket :=
  mkChatWebSocket (ws o) m e op cl (reconnectAttempts o) (sessionId o)
    (isReconnecting o) (isManuallyDisconnected o).

Definition set_reconnectAttempts (n : N) (o : ChatWebSocket) : ChatWebSocket :=
  mkChatWebSocket (ws o) (messageHandlers o) (errorHandlers o) (openHandlers o)
    (closeHandlers o) n (sessionId o) (isReconnecting o)
    (isManuallyDisconnected o).

Definition set_isReconnecting (b : bool) (o : ChatWebSocket) : ChatWebSocket :=
  mkChatWebSocket (ws o) (messageHandlers o) (errorHandlers o) (openHandlers o)
    (closeHandlers o) (reconnectAttempts o) (sessionId o) b
    (isManuallyDisconnected o).

Definition set_isManuallyDisconnected (b : bool) (o : ChatWebSocket) : ChatWebSocket :=
  mkChatWebSocket (ws o) (messageHandlers o) (errorHandlers o) (openHandlers o)
    (closeHandlers o) (reconnectAttempts o) (sessionId o) (isReconnecting o) b.

Definition with_this (f : ChatWebSocket → ChatWebSocket) (c : Conn) : Conn :=
  mkConn (f (this c)) (env c).

(** *** The browser's side *)

Definition emits (es : list Effect) (c : Conn) : Conn :=
  mkConn (this c)
    (mkBrowser (sockets (env c)) (timers (env c)) (nextTimer (env c))
       (trace (env c) ++ es)).

Definition emit (e : Effect) : Conn → Conn := emits [e].

Definition set_readyState (k : nat) (r : ReadyState) (c : Conn) : Conn :=
  mkConn (this c)
    (mkBrowser (alter (λ s, mkWebSocket (url s) r) k (sockets (env c)))
       (timers (env c)) (nextTimer (env c)) (trace (env c))).

(** [new WebSocket(u)]: a fresh socket, connecting. *)
Definition new_WebSocket (u : jsstring) (c : Conn) : nat * Conn :=
  let k := length (sockets (env c)) in
  (k, mkConn (this c)
        (mkBrowser (sockets (env c) ++ [mkWebSocket u CONNECTING])
           (timers (env c)) (nextTimer (env c))
           (trace (env c) ++ [ENewWebSocket k u]))).

(** [socket.close()]: starts the closing handshake of a socket that is
    not yet closing or closed; the close event comes later. *)
Definition ws_close (k : nat) (c : Conn) : Conn :=
  let c := emit (EClose k) c in
  match readyState <$> sockets (env c) !! k with
  | Some CONNECTING | Some OPEN => set_readyState k CLOSING c
  | _ => c
  end.

(** [socket.send(data)] *)
Definition ws_send (k : nat) (data : jsstring) : Conn → Conn :=
  emit (ESend k data).

(** [setTimeout(callback, delay)] with the reconnect callback. *)
Definition setTimeout (delay : N) (c : Conn) : Conn :=
  let t := nextTimer (env c) in
  mkConn (this c)
    (mkBrowser (sockets (env c)) (timers (env c) ++ [(t, delay)]) (S t)
       (trace (env c) ++ [ESetTimeout t delay])).

Definition drop_timer (t : nat) (c : Conn) : Conn :=
  mkConn (this c)
    (mkBrowser (sockets (env c))
       (filter (λ p, p.1 ≠ t) (timers (env c)))
       (nextTimer (env c)) (trace (env c))).

(** [handlers.forEach(handler => handler(x))]: the handlers run in
    registration order.  A handler acts on the application state: it
    returns normally and does not call back into the instance, as is the
    case of the handlers the component registers. *)
Definition forEach {H : Type} (r : Registry) (call : H → App → App)
    (hs : list H) (c : Conn) (a : App) : Conn * App :=
  (emits (imap (λ i _, EInvoke r i) hs) c, foldl (λ a h, call h a) a hs).

(** *** The methods of the class *)

(** [this.ws?.readyState] *)
Definition getState (c : Conn) : option ReadyState :=
  k ← ws (this c); readyState <$> sockets (env c) !! k.

Definition isConnected (c : Conn) : bool :=
  bool_decide (getState c = Some OPEN).

Definition connect (c : Conn) : Conn :=
  if bool_decide (getState c = Some OPEN)
     || bool_decide (getState c = Some CONNECTING)
  then c
  else
    let c := with_this (set_isManuallyDisconnected false) c in
    let wsUrl := WS_BASE_URL ++ js "/chat/" ++ sessionId (this c) ++ js "/" in
    let '(k, c) := new_WebSocket wsUrl c in
    with_this (set_ws (Some k)) c.

(** The callback [attemptReconnect] hands to [setTimeout]. *)
Definition reconnect_callback (c : Conn) : Conn :=
  if negb (isManuallyDisconnected (this c)) then
    let c := emit (EConsole (LogReconnecting (reconnectAttempts (this c))
                               maxReconnectAttempts)) c in
    connect c
  else c.

Definition attemptReconnect (c : Conn) : Conn :=
  if isManuallyDisconnected (this c) || isReconnecting (this c)
     || (maxReconnectAttempts <=? reconnectAttempts (this c))
  then c
  else
    let c := with_this (set_isReconnecting true) c in
    let c := with_this (λ o, set_reconnectAttempts (reconnectAttempts o + 1) o) c in
    setTimeout (reconnectDelay * reconnectAttempts (this c)) c.

(** [ws.onopen] *)
Definition onopen (c : Conn) (a : App) : Conn * App :=
  let c := emit (EConsole LogConnected) c in
  let c := with_this (set_reconnectAttempts 0) c in
  let c := with_this (set_isReconnecting false) c in
  forEach ROpen (λ h, h) (openHandlers (this c)) c a.

(** [ws.onmessage]: [try { parse; forEach } catch { console.error }] *)
Definition onmessage (data : jsstring) (c : Conn) (a : App) : Conn * App :=
  match JSON_parse data with
  | Some message =>
      forEach RMessage (λ h, h message) (messageHandlers (this c)) c a
  | None => (emit (EConsole ErrParsing) c, a)
  end.

(** [ws.onerror] *)
Definition onerror (c : Conn) (a : App) : Conn * App :=
  if negb (bool_decide (getState c = Some CLOSED)) then
    let c := emit (EConsole ErrWebSocket) c in
    forEach RError (λ h, h) (errorHandlers (this c)) c a
  else (c, a).

(** [ws.onclose] *)
Definition onclose (ev : CloseEvent) (c : Conn) (a : App) : Conn * App :=
  let c := emit (EConsole (LogDisconnected ev (sessionId (this c))
                             (isManuallyDisconnected (this c)))) c in
  let '(c, a) := forEach RClose (λ h, h) (closeHandlers (this c)) c a in
  if negb (isManuallyDisconnected (this c)) then (attemptReconnect c, a)
  else (c, a).

Definition disconnect (c : Conn) : Conn :=
  let c := with_this (set_isManuallyDisconnected true) c in
  let c := with_this (set_isReconnecting false) c in
  let c := with_this (set_reconnectAttempts 0) c in
  match ws (this c) with
  | Some k => with_this (set_ws None) (ws_close k c)
  | None => c
  end.

Definition send (message : Cmd) (c : Conn) : Conn :=
  if bool_decide (getState c = Some OPEN) then
    match ws (this c) with
    | Some k => ws_send k (JSON_stringify message) c
    | None => c
    end
  else emit (EConsole ErrNotConnected) c.

Definition onMessage (h : MessageHandler) : Conn → Conn :=
  with_this (λ o, set_handlers (messageHandlers o ++ [h]) (errorHandlers o)
                    (openHandlers o) (closeHandlers o) o).

Definition onError (h : ErrorHandler) : Conn → Conn :=
  with_this (λ o, set_handlers (messageHandlers o) (errorHandlers o ++ [h])
                    (openHandlers o) (closeHandlers o) o).

Definition onOpen (h : ConnectionHandler) : Conn → Conn :=
  with_this (λ o, set_handlers (messageHandlers o) (errorHandlers o)
                    (openHandlers o ++ [h]) (closeHandlers o) o).

Definition onClose (h : ConnectionHandler) : Conn → Conn :=
  with_this (λ o, set_handlers (messageHandlers o) (errorHandlers o)
                    (openHandlers o) (closeHandlers o ++ [h]) o).

Definition clearHandlers : Conn → Conn :=
  with_this (set_handlers [] [] [] []).

(** *** What can happen to an instance

    The browser delivers transport events of the sockets the instance
    created and fires its pending timeouts; the owner calls the public
    methods.  An event that cannot occur in the current state (an open
    event of a socket that is not connecting, a timeout that is not
    pending, ...) leaves the state as it is. *)

Inductive Event :=
| TransportOpen (k : nat)                        (* socket k opened *)
| TransportMessage (k : nat) (data : jsstring)   (* text received on k *)
| TransportError (k : nat)                       (* error event on k *)
| TransportClose (k : nat) (ev : CloseEvent)     (* socket k closed *)
| TransportFailure (k : nat) (ev : CloseEvent)   (* k failed: error, then close *)
| TimerFires (t : nat)
| CallConnect
| CallDisconnect
| CallSend (message : Cmd)
| CallOnMessage (h : MessageHandler)
| CallOnError (h : ErrorHandler)
| CallOnOpen (h : ConnectionHandler)
| CallOnClose (h : ConnectionHandler)
| CallClearHandlers.

Definition socketState (k : nat) (c : Conn) : option ReadyState :=
  readyState <$> sockets (env c) !! k.

Definition pending (t : nat) (c : Conn) : bool :=
  bool_decide (t ∈ (timers (env c)).*1).

Definition step (e : Event) (st : Conn * App) : Conn * App :=
  let '(c, a) := st in
  match e with
  | TransportOpen k =>
      match socketState k c with
      | Some CONNECTING => onopen (set_readyState k OPEN c) a
      | _ => st
      end
  | TransportMessage k data =>
      match socketState k c with
      | Some OPEN => onmessage data c a
      | _ => st
      end
  | TransportError k =>
      match socketState k c with
      | Some _ => onerror c a
      | None => st
      end
  | TransportClose k ev =>
      match socketState k c with
      | Some CLOSED | None => st
      | Some _ => onclose ev (set_readyState k CLOSED c) a
      end
  | TransportFailure k ev =>
      match socketState k c with
      | Some CLOSED | None => st
      | Some _ =>
          let '(c, a) := onerror (set_readyState k CLOSED c) a in
          onclose ev c a
      end
  | TimerFires t =>
      if pending t c then (reconnect_callback (drop_timer t c), a) else st
  | CallConnect => (connect c, a)
  | CallDisconnect => (disconnect c, a)
  | CallSend m => (send m c, a)
  | CallOnMessage h => (onMessage h c, a)
  | CallOnError h => (onError h c, a)
  | CallOnOpen h => (onOpen h c, a)
  | CallOnClose h => (onClose h c, a)
  | CallClearHandlers => (clearHandlers c, a)
  end.

Definition run (es : list Event) (st : Conn * App) : Conn * App :=
  foldl (λ st e, step e st) st es.

(** *** Observations on the trace *)

(** The delays of every reconnect ever scheduled, in order. *)
Definition scheduled (c : Conn) : list N :=
  omap (λ e, match e with ESetTimeout _ d => Some d | _ => None end)
    (trace (env c)).

(** Everything ever handed to a socket's [send], in order. *)
Definition transmitted (c : Conn) : list (nat * jsstring) :=
  omap (λ e, match e with ESend k d => Some (k, d) | _ => None end)
    (trace (env c)).

(** The handler calls made, in order. *)
Definition invocations (c : Conn) : list (Registry * nat) :=
  omap (λ e, match e with EInvoke r i => Some (r, i) | _ => None end)
    (trace (env c)).

(** How many sockets were ever constructed. *)
Definition created (c : Conn) : nat := length (sockets (env c)).

(** *** Predicates the facts below are stated with *)

(** [c'] differs from [c] by no reconnect scheduling, no socket creation
    and no change of the manual-disconnect flag or of the socket handle. *)
Definition calm c c' : Prop :=
  isManuallyDisconnected (this c') = isManuallyDisconnected (this c)
  ∧ ws (this c') = ws (this c)
  ∧ scheduled c' = scheduled c
  ∧ created c' = created c.

(** After [disconnect()]: the flag is set and the socket is released. *)
Definition Released c : Prop :=
  isManuallyDisconnected (this c) = true ∧ ws (this c) = None.

(** The reconnect bookkeeping of an instance and what its browser holds
    for it. *)
Definition bookkeeping c :=
  (reconnectAttempts (this c), isReconnecting (this c),
   isManuallyDisconnected (this c), sockets (env c), timers (env c),
   nextTimer (env c), scheduled c).

(** The events that are neither an open, a close, a timeout nor a call of
    [connect()] or [disconnect()]. *)
Definition quiet (e : Event) : bool :=
  match e with
  | TransportMessage _ _ | TransportError _ | CallSend _ | CallOnMessage _
  | CallOnError _ | CallOnOpen _ | CallOnClose _ | CallClearHandlers => true
  | _ => false
  end.

(** The reconnect bookkeeping never gets past the first attempt: the
    counter is 0 whenever the reconnecting flag is clear, it is at most 1,
    and every delay ever scheduled is [reconnectDelay]. *)
Definition first_attempt_only c : Prop :=
  (isReconnecting (this c) = false → reconnectAttempts (this c) = 0)
  ∧ reconnectAttempts (this c) ≤ 1
  ∧ Forall (λ d, d = reconnectDelay) (scheduled c).

Definition same_backoff c c' : Prop :=
  reconnectAttempts (this c') = reconnectAttempts (this c)
  ∧ isReconnecting (this c') = isReconnecting (this c)
  ∧ scheduled c' = scheduled c.

End ChatWebSocket.

(** ** The chat component: [ChatInterface.tsx] *)

Inductive Role := user | assistant | system.

(** [types/index.ts]: [Message] (the fields the client reads or shows). *)
Record Message := mkMessage {
  message_id : option N;
  role : Role;
  content : jsstring;
  created_at : jsstring;
  rag_context : option jsstring
}.

(** A decoded frame, discriminated by its [type] tag; [other] stands for a
    tag the dispatcher has no case for. *)
Module Frame.
Inductive t :=
| session_info (session : jsstring)
| history (messages : list Message)
| message (m : Message)
| stream_start
| stream_token (token : jsstring)
| stream_end (m : Message)
| stream_error (error : jsstring)
| error (error : jsstring)
| other (type : jsstring).
End Frame.

Definition WebSocketMessage : Type := Frame.t.

(** The command [handleSendMessage] sends. *)
Record Command := mkCommand {
  type : jsstring;
  cmd_content : jsstring;
  use_rag : bool
}.

(** What a render shows of the conversation: the transcript, and the
    streaming bubble, present only while [isStreaming]. *)
Record View := mkView {
  transcript : list Message;
  bubble : option jsstring
}.

(** The lines the component writes on the console. *)
Inductive UILine :=
| SessionInfoReceived (session : jsstring)
| ReceivedToken (token : jsstring)
| StreamError (error : jsstring)
| FrameError (error : jsstring)
| ConnectingToSession (id : jsstring)
| ConnectedForSession (id : jsstring)
| DisconnectedForSession (id : jsstring)
| TransportErrorLine
| CleaningUp (id : jsstring).

(** The state of the component: its six state hooks, the ref, the console
    and the renders committed synchronously by [flushSync].  A state
    update is applied when it is requested: every read of the state in
    the code happens in a later event, after React has applied the
    updates queued before it. *)
Record ChatInterface := mkChatInterface {
  messages : list Message;
  inputMessage : jsstring;
  isStreaming : bool;
  streamingContent : jsstring;
  useRAG : bool;
  connected : bool;
  wsRef : option nat;             (* wsRef.current: which instance, if any *)
  console : list UILine;
  commits : list View
}.

Definition initialChatInterface : ChatInterface :=
  mkChatInterface [] [] false [] false false None [] [].

Definition setMessages (f : list Message → list Message) (u : ChatInterface) :=
  mkChatInterface (f (messages u)) (inputMessage u) (isStreaming u)
    (streamingContent u) (useRAG u) (connected u) (wsRef u) (console u) (commits u).

Definition setInputMessage (s : jsstring) (u : ChatInterface) :=
  mkChatInterface (messages u) s (isStreaming u)
    (streamingContent u) (useRAG u) (connected u) (wsRef u) (console u) (commits u).

Definition setIsStreaming (b : bool) (u : ChatInterface) :=
  mkChatInterface (messages u) (inputMessage u) b
    (streamingContent u) (useRAG u) (connected u) (wsRef u) (console u) (commits u).

Definition setStreamingContent (f : jsstring → jsstring) (u : ChatInterface) :=
  mkChatInterface (messages u) (inputMessage u) (isStreaming u)
    (f (streamingContent u)) (useRAG u) (connected u) (wsRef u) (console u) (commits u).

Definition setUseRAG (b : bool) (u : ChatInterface) :=
  mkChatInterface (messages u) (inputMessage u) (isStreaming u)
    (streamingContent u) b (connected u) (wsRef u) (console u) (commits u).

Definition setConnected (b : bool) (u : ChatInterface) :=
  mkChatInterface (messages u) (inputMessage u) (isStreaming u)
    (streamingContent u) (useRAG u) b (wsRef u) (console u) (commits u).

Definition set_wsRef (r : option nat) (u : ChatInterface) :=
  mkChatInterface (messages u) (inputMessage u) (isStreaming u)
    (streamingContent u) (useRAG u) (connected u) r (console u) (commits u).

Definition console_line (l : UILine) (u : ChatInterface) :=
  mkChatInterface (messages u) (inputMessage u) (isStreaming u)
    (streamingContent u) (useRAG u) (connected u) (wsRef u) (console u ++ [l])
    (commits u).

(** What the component renders of the conversation. *)
Definition render (u : ChatInterface) : View :=
  mkView (messages u) (if isStreaming u then Some (streamingContent u) else None).

(** [flushSync(update)]: the update is applied and rendered before
    [flushSync] returns. *)
Definition flushSync (update : ChatInterface → ChatInterface) (u : ChatInterface) :=
  let u := update u in
  mkChatInterface (messages u) (inputMessage u) (isStreaming u)
    (streamingContent u) (useRAG u) (connected u) (wsRef u) (console u)
    (commits u ++ [render u]).

(** The dispatcher. *)
Definition handleWebSocketMessage (message : WebSocketMessage)
    (u : ChatInterface) : ChatInterface :=
  match message with
  | Frame.session_info session => console_line (SessionInfoReceived session) u
  | Frame.history ms => setMessages (λ _, ms) u
  | Frame.message m => setMessages (λ prev, prev ++ [m]) u
  | Frame.stream_start =>
      setStreamingContent (λ _, []) (setIsStreaming true u)
  | Frame.stream_token token =>
      let u := console_line (ReceivedToken token) u in
      flushSync (setStreamingContent (λ prev, prev ++ token)) u
  | Frame.stream_end m =>
      let u := setMessages (λ prev, prev ++ [m]) u in
      let u := setIsStreaming false u in
      setStreamingContent (λ _, []) u
  | Frame.stream_error e =>
      let u := console_line (StreamError e) u in
      let u := setIsStreaming false u in
      setStreamingContent (λ _, []) u
  | Frame.error e => console_line (FrameError e) u
  | Frame.other _ => u
  end.

(** The frames of a connection are dispatched one after the other. *)
Definition dispatch (frames : list WebSocketMessage) (u : ChatInterface)
    : ChatInterface :=
  foldl (λ u m, handleWebSocketMessage m u) u frames.

(** The buffer after each token of [ts] in turn, starting from [b]. *)
Fixpoint buffers (b : jsstring) (ts : list jsstring) : list jsstring :=
  match ts with
  | [] => []
  | t :: ts => (b ++ t) :: buffers (b ++ t) ts
  end.

(** *** The session effect and the send button

    The component holds at most one [ChatWebSocket] in [wsRef]; the
    instances it has constructed live in a heap and are named by their
    index.  [ops] records, in order, what the component does to its
    instances and to its connect timeouts. *)

Inductive Op :=
| OpClearTimeout (t : nat)                 (* clearTimeout(connectTimer) *)
| OpClearHandlers (r : nat)                (* instance r: clearHandlers() *)
| OpDisconnect (r : nat)                   (* instance r: disconnect() *)
| OpDiscard                                (* wsRef.current = null *)
| OpConstruct (r : nat) (id : jsstring)    (* wsRef.current = new ChatWebSocket(id) *)
| OpRegister (r : nat) (reg : Registry)    (* instance r: onMessage/onOpen/... *)
| OpSetTimeout (t r : nat) (delay : N)     (* setTimeout(() => r.connect(), delay) = t *)
| OpConnect (r : nat)                      (* instance r: connect() *)
| OpSend (r : nat) (cmd : Command).        (* instance r: send(cmd) *)

Abbreviation Instance := (@Conn WebSocketMessage ChatInterface).

Record World := mkWorld {
  ui : ChatInterface;
  heap : list Instance;               (* every ChatWebSocket constructed *)
  connectTimers : list (nat * nat);   (* pending connect timeouts: id, instance *)
  nextConnectTimer : nat;
  cleanupFn : option (nat * jsstring);
    (* the cleanup the last effect run returned, with the connectTimer and
       the sessionId it closes over *)
  ops : list Op
}.

Definition initialWorld : World :=
  mkWorld initialChatInterface [] [] 0%nat None [].

Definition on_ui (f : ChatInterface → ChatInterface) (w : World) : World :=
  mkWorld (f (ui w)) (heap w) (connectTimers w) (nextConnectTimer w)
    (cleanupFn w) (ops w).

Definition set_cleanupFn (f : option (nat * jsstring)) (w : World) : World :=
  mkWorld (ui w) (heap w) (connectTimers w) (nextConnectTimer w) f (ops w).

Definition record_op (o : Op) (w : World) : World :=
  mkWorld (ui w) (heap w) (connectTimers w) (nextConnectTimer w)
    (cleanupFn w) (ops w ++ [o]).

(** A method call on instance [r]. *)
Definition call (r : nat) (o : Op) (method : Instance → Instance) (w : World)
    : World :=
  record_op o
    (mkWorld (ui w) (alter method r (heap w)) (connectTimers w)
       (nextConnectTimer w) (cleanupFn w) (ops w)).

(** [wsRef.current = null] *)
Definition discard (w : World) : World :=
  record_op OpDiscard (on_ui (set_wsRef None) w).

(** [const ws = new ChatWebSocket(sessionId); wsRef.current = ws] *)
Definition new_ChatWebSocket (sessionId : jsstring) (w : World) : nat * World :=
  let r := length (heap w) in
  (r, record_op (OpConstruct r sessionId)
        (mkWorld (set_wsRef (Some r) (ui w)) (heap w ++ [newConn sessionId])
           (connectTimers w) (nextConnectTimer w) (cleanupFn w) (ops w))).

(** [setTimeout(() => ws.connect(), delay)] *)
Definition setConnectTimeout (r : nat) (delay : N) (w : World) : nat * World :=
  let t := nextConnectTimer w in
  (t, record_op (OpSetTimeout t r delay)
        (mkWorld (ui w) (heap w) (connectTimers w ++ [(t, r)]) (S t)
           (cleanupFn w) (ops w))).

(** [clearTimeout(t)] *)
Definition clearTimeout (t : nat) (w : World) : World :=
  record_op (OpClearTimeout t)
    (mkWorld (ui w) (heap w) (filter (λ p, p.1 ≠ t) (connectTimers w))
       (nextConnectTimer w) (cleanupFn w) (ops w)).

(** The three arrow functions the effect registers on instance [ws]. *)
Definition openHandler (sessionId : jsstring) (u : ChatInterface) :=
  setConnected true (console_line (ConnectedForSession sessionId) u).

Definition closeHandler (sessionId : jsstring) (u : ChatInterface) :=
  setConnected false (console_line (DisconnectedForSession sessionId) u).

Definition errorHandler (ws : nat) (u : ChatInterface) :=
  if bool_decide (wsRef u = Some ws) then console_line TransportErrorLine u
  else u.

Section Component.
Variable JSON_parse : jsstring → option WebSocketMessage.
Variable JSON_stringify : Command → jsstring.
Variable REACT_APP_WS_URL : option jsstring.

(** The cleanup function the effect returns. *)
Definition cleanup (connectTimer : nat) (sessionId : jsstring) (w : World)
    : World :=
  let w := on_ui (console_line (CleaningUp sessionId)) w in
  let w := clearTimeout connectTimer w in
  match wsRef (ui w) with
  | Some r =>
      let w := call r (OpClearHandlers r) clearHandlers w in
      let w := call r (OpDisconnect r) disconnect w in
      discard w
  | None => w
  end.

(** The body of the session [useEffect]; it leaves the cleanup it
    returns in [cleanupFn]. *)
Definition effect (sessionId : jsstring) (w : World) : World :=
  match sessionId with
  | [] => set_cleanupFn None w
  | _ :: _ =>
      let w := on_ui (console_line (ConnectingToSession sessionId)) w in
      let w := on_ui (setMessages (λ _, [])) w in
      let w := on_ui (setStreamingContent (λ _, [])) w in
      let w := on_ui (setIsStreaming false) w in
      let w := match wsRef (ui w) with
               | Some r => discard (call r (OpDisconnect r) disconnect w)
               | None => w
               end in
      let '(ws, w) := new_ChatWebSocket sessionId w in
      let w := call ws (OpRegister ws RMessage) (onMessage handleWebSocketMessage) w in
      let w := call ws (OpRegister ws ROpen) (onOpen (openHandler sessionId)) w in
      let w := call ws (OpRegister ws RClose) (onClose (closeHandler sessionId)) w in
      let w := call ws (OpRegister ws RError) (onError (errorHandler ws)) w in
      let '(connectTimer, w) := setConnectTimeout ws 100 w in
      set_cleanupFn (Some (connectTimer, sessionId)) w
  end.

(** React runs the cleanup of the previous effect run, if it returned
    one, before the next run and when the component unmounts. *)
Definition run_cleanup (w : World) : World :=
  match cleanupFn w with
  | Some (t, id) => set_cleanupFn None (cleanup t id w)
  | None => w
  end.

(** The [sessionId] prop is set (first mount) or changes. *)
Definition session_change (sessionId : jsstring) (w : World) : World :=
  effect sessionId (run_cleanup w).

Definition unmount (w : World) : World := run_cleanup w.

(** A connect timeout elapses: [() => ws.connect()]. *)
Definition connect_timer_fires (t : nat) (w : World) : World :=
  match list_find (λ p, p.1 = t) (connectTimers w) with
  | Some (_, (_, r)) =>
      call r (OpConnect r) (connect REACT_APP_WS_URL)
        (mkWorld (ui w) (heap w) (filter (λ p, p.1 ≠ t) (connectTimers w))
           (nextConnectTimer w) (cleanupFn w) (ops w))
  | None => w
  end.

Definition handleSendMessage (w : World) : World :=
  let u := ui w in
  if bool_decide (trim (inputMessage u) = []) || bool_decide (wsRef u = None)
     || isStreaming u
  then w
  else
    match wsRef u with
    | None => w
    | Some r =>
        let cmd := mkCommand (js "message") (trim (inputMessage u)) (useRAG u) in
        let w := call r (OpSend r cmd) (send JSON_stringify cmd) w in
        on_ui (setInputMessage []) w
    end.

(** The events only the browser produces. *)
Definition browser_driven (e : @Event WebSocketMessage Command ChatInterface)
    : bool :=
  match e with
  | TransportOpen _ | TransportMessage _ _ | TransportError _
  | TransportClose _ _ | TransportFailure _ _ | TimerFires _ => true
  | _ => false
  end.

(** Instance [r] receives a browser event; its handlers act on the
    component. *)
Definition deliver (r : nat) (e : Event) (w : World) : World :=
  match heap w !! r with
  | Some c =>
      let '(c, u) := step JSON_parse JSON_stringify REACT_APP_WS_URL e (c, ui w) in
      mkWorld u (<[r := c]> (heap w)) (connectTimers w) (nextConnectTimer w)
        (cleanupFn w) (ops w)
  | None => w
  end.

Inductive WorldEvent :=
| SessionChanges (sessionId : jsstring)
| Unmounts
| ConnectTimerFires (t : nat)
| BrowserEvent (r : nat) (e : @Event WebSocketMessage Command ChatInterface)
| UserTypes (s : jsstring)
| UserTogglesRAG (b : bool)
| UserSends.

Definition world_step (e : WorldEvent) (w : World) : World :=
  match e with
  | SessionChanges id => session_change id w
  | Unmounts => unmount w
  | ConnectTimerFires t => connect_timer_fires t w
  | BrowserEvent r e => if browser_driven e then deliver r e w else w
  | UserTypes s => on_ui (setInputMessage s) w
  | UserTogglesRAG b => on_ui (setUseRAG b) w
  | UserSends => handleSendMessage w
  end.

Definition world_run (es : list WorldEvent) (w : World) : World :=
  foldl (λ w e, world_step e w) w es.

(** What every instance has transmitted so far. *)
Definition wire (w : World) : list (list (nat * jsstring)) :=
  transmitted <$> heap w.

End Component.

(** *** Predicates on the component's world *)

(** The instance the effect has built for [sessionId] once its four
    handlers are registered; [connect()] has not been called on it. *)
Definition registered (ws : nat) (sessionId : jsstring) : Instance :=
  onError (errorHandler ws)
    (onClose (closeHandler sessionId)
       (onOpen (openHandler sessionId)
          (onMessage handleWebSocketMessage (newConn sessionId)))).


(** An instance on which [connect()] has never run: it has constructed no
    socket, so it holds none and has no timeout pending. *)
Definition never_connected (c : Instance) : Prop :=
  sockets (env c) = [] ∧ timers (env c) = [] ∧ ws (this c) = None.




(** [w'] has the instances of [w] and possibly more, hands out later
    timeout ids, and has no pending connect timeout that [w] has not. *)
Definition grows (w w' : World) : Prop :=
  (nextConnectTimer w ≤ nextConnectTimer w')%nat
  ∧ (length (heap w) ≤ length (heap w'))%nat
  ∧ connectTimers w' `sublist_of` connectTimers w.

(** The four registries of an instance. *)
Definition handlers_of (c : Instance) :=
  (messageHandlers (this c), errorHandlers (this c), openHandlers (this c),
   closeHandlers (this c)).

(** The handlers of an instance leave [wsRef] alone. *)
Definition keeps_ref (c : Instance) : Prop :=
  Forall (λ h, ∀ m u, wsRef (h m u) = wsRef u) (messageHandlers (this c))
  ∧ Forall (λ h, ∀ u, wsRef (h u) = wsRef u) (errorHandlers (this c))
  ∧ Forall (λ h, ∀ u, wsRef (h u) = wsRef u) (openHandlers (this c))
  ∧ Forall (λ h, ∀ u, wsRef (h u) = wsRef u) (closeHandlers (this c)).

(** An instance is bound exactly when a cleanup is due, and no handler of
    any instance rebinds it. *)
Definition bound (w : World) : Prop :=
  (wsRef (ui w) = None ↔ cleanupFn w = None) ∧ Forall keeps_ref (heap w).

(** ** A concrete codec

    The theorems below hold for every [JSON.parse] and [JSON.stringify].
    The examples run the code with the encoder of a command written out,
    and with a decoder that knows the text of the two frames without
    payload fields that matter to it and rejects every other text. *)

Definition hexDigit (n : N) : N := if n <? 10 then 48 + n else 87 + n.

(** The escape [\uXXXX] of a code unit. *)
Definition unicodeEscape (c : N) : jsstring :=
  [ 92; 117; hexDigit ((c / 4096) `mod` 16); hexDigit ((c / 256) `mod` 16);
    hexDigit ((c / 16) `mod` 16); hexDigit (c `mod` 16) ].

Definition isLeadSurrogate (c : N) : bool := (55296 <=? c) && (c <=? 56319).
Definition isTrailSurrogate (c : N) : bool := (56320 <=? c) && (c <=? 57343).

(** ECMAScript [QuoteJSONString], without the enclosing quotes. *)
Fixpoint quoteJSONChars (s : jsstring) : jsstring :=
  match s with
  | [] => []
  | c :: r =>
      if c =? 8 then [92; 98] ++ quoteJSONChars r
      else if c =? 9 then [92; 116] ++ quoteJSONChars r
      else if c =? 10 then [92; 110] ++ quoteJSONChars r
      else if c =? 12 then [92; 102] ++ quoteJSONChars r
      else if c =? 13 then [92; 114] ++ quoteJSONChars r
      else if c =? 34 then [92; 34] ++ quoteJSONChars r
      else if c =? 92 then [92; 92] ++ quoteJSONChars r
      else if c <? 32 then unicodeEscape c ++ quoteJSONChars r
      else if isLeadSurrogate c then
        match r with
        | d :: r' =>
            if isTrailSurrogate d then c :: d :: quoteJSONChars r'
            else unicodeEscape c ++ quoteJSONChars r
        | [] => unicodeEscape c
        end
      else if isTrailSurrogate c then unicodeEscape c ++ quoteJSONChars r
      else c :: quoteJSONChars r
  end.

Definition quoteJSONString (s : jsstring) : jsstring :=
  [34] ++ quoteJSONChars s ++ [34].

(** [JSON.stringify({type, content, use_rag})] *)
Definition stringifyCommand (c : Command) : jsstring :=
  js "{" ++ quoteJSONString (js "type") ++ js ":" ++ quoteJSONString (type c)
  ++ js "," ++ quoteJSONString (js "content") ++ js ":"
  ++ quoteJSONString (cmd_content c)
  ++ js "," ++ quoteJSONString (js "use_rag") ++ js ":"
  ++ (if use_rag c then js "true" else js "false") ++ js "}".

(** The text [{"type":tag}]. *)
Definition tagOnlyText (tag : string) : jsstring :=
  js "{" ++ quoteJSONString (js "type") ++ js ":" ++ quoteJSONString (js tag)
  ++ js "}".

Definition parseTagOnly (data : jsstring) : option WebSocketMessage :=
  if bool_decide (data = tagOnlyText "stream_start") then Some Frame.stream_start
  else if bool_decide (data = tagOnlyText "pong") then Some (Frame.other (js "pong"))
  else None.

(** ** Concrete runs

    One instance for session [session123], the codec above, and the
    default endpoint. *)

Definition abnormal : CloseEvent := mkCloseEvent false 1006.

Definition session123 : Instance * ChatInterface :=
  (newConn (js "session123"), initialChatInterface).

Definition runDemo (es : list (@Event WebSocketMessage Command ChatInterface))
    (st : Instance * ChatInterface) : Instance * ChatInterface :=
  run parseTagOnly stringifyCommand None es st.

(** The instance once its first socket has opened. *)
Definition openedDemo : Instance * ChatInterface :=
  runDemo [CallConnect; TransportOpen 0] session123.

(** The instance with a reconnect timeout still pending and its second
    socket open: the first socket closed unexpectedly and the owner
    reconnected by hand before the timeout fired. *)
Definition reopenedDemo : Instance * ChatInterface :=
  runDemo [ CallConnect; TransportOpen 0; TransportClose 0 abnormal;
            CallConnect; TransportOpen 1 ] session123.

(** The server is down: the first socket fails, the reconnect timeout
    fires, the second socket fails as well. *)
Definition serverDown : list (@Event WebSocketMessage Command ChatInterface) :=
  [ CallConnect; TransportFailure 0 abnormal; TimerFires 0;
    TransportFailure 1 abnormal ].

Definition hello : Command := mkCommand (js "message") (js "Hello") false.

Definition helloWorld : Message :=
  mkMessage (Some 7) assistant (js "Hello world") (js "2025-01-01T00:00:00Z") None.

(** The component showing session [a]. *)
Definition worldA : World := session_change (js "a") initialWorld.

(** ** More of [ChatWebSocket]: invariants of an instance *)

Section InstancePredicates.
Context {Msg Cmd App : Type}.
Variable REACT_APP_WS_URL : option jsstring.

Implicit Types (c : @Conn Msg App).

(** A socket that is connecting or open. *)
Definition live (s : WebSocket) : bool :=
  match readyState s with
  | CONNECTING | OPEN => true
  | CLOSING | CLOSED => false
  end.

(** The handle [this.ws], if set, is a socket the instance constructed,
    and a socket that is connecting or open is the one the handle names. *)
Definition orderly c : Prop :=
  (∀ k, ws (this c) = Some k → (k < created c)%nat)
  ∧ (∀ k s, sockets (env c) !! k = Some s → live s = true →
            ws (this c) = Some k).

(** The URL [connect()] builds for a session. *)
Definition wsUrlOf (id : jsstring) : jsstring :=
  WS_BASE_URL REACT_APP_WS_URL ++ js "/chat/" ++ id ++ js "/".

(** The instance is for session [id] and all its sockets go to that
    session's endpoint. *)
Definition addressed (id : jsstring) c : Prop :=
  sessionId (this c) = id
  ∧ Forall (λ s, url s = wsUrlOf id) (sockets (env c)).

(** What [orderly] and [addressed] look at. *)
Definition shape c := (ws (this c), sessionId (this c), sockets (env c)).

(** The two invariants together, for the induction on the events. *)
Definition sound (id : jsstring) c : Prop :=
  orderly c ∧ addressed id c.

(** All four registries are empty. *)
Definition no_handlers c : Prop :=
  messageHandlers (this c) = [] ∧ errorHandlers (this c) = []
  ∧ openHandlers (this c) = [] ∧ closeHandlers (this c) = [].

(** The events that register a handler. *)
Definition registers (e : @Event Msg Cmd App) : bool :=
  match e with
  | CallOnMessage _ | CallOnError _ | CallOnOpen _ | CallOnClose _ => true
  | _ => false
  end.

(** The events that clear the reconnecting flag: a socket opens, or the
    owner calls [disconnect()]. *)
Definition resets_backoff (e : @Event Msg Cmd App) : bool :=
  match e with
  | TransportOpen _ | CallDisconnect => true
  | _ => false
  end.

(** The events that schedule nothing and leave the reconnect bookkeeping
    clear when it is: the quiet ones and the open events. *)
Definition quiet_or_open (e : @Event Msg Cmd App) : bool :=
  quiet e || match e with TransportOpen _ => true | _ => false end.

End InstancePredicates.

(** *** Handler references

    [removeMessageHandler], [removeErrorHandler], [removeOpenHandler] and
    [removeCloseHandler] compare handlers by reference.  Here a registry
    is a list of references of a type with decidable equality; the four
    [on...] methods are [push], the four [remove...Handler] methods are
    the same filter. *)

Section HandlerReferences.
Context {H : Type} `{EqDecision H}.

(** [this.handlers.push(handler)] *)
Definition pushHandler (handler : H) (handlers : list H) : list H :=
  handlers ++ [handler].

(** [this.handlers = this.handlers.filter(h => h !== handler)] *)
Definition removeHandler (handler : H) (handlers : list H) : list H :=
  filter (λ h, h ≠ handler) handlers.

End HandlerReferences.

(** ** More of the dispatcher: what the frames of a sequence carry *)

(** The message a frame appends to the transcript, if it does. *)
Definition appendedBy (f : WebSocketMessage) : option Message :=
  match f with
  | Frame.message m | Frame.stream_end m => Some m
  | _ => None
  end.

(** The token a frame carries, if it is a [stream_token] frame. *)
Definition tokenOf (f : WebSocketMessage) : option jsstring :=
  match f with
  | Frame.stream_token token => Some token
  | _ => None
  end.

Definition isHistory (f : WebSocketMessage) : bool :=
  match f with Frame.history _ => true | _ => false end.

(** The frames that start or end a stream. *)
Definition delimitsStream (f : WebSocketMessage) : bool :=
  match f with
  | Frame.stream_start | Frame.stream_end _ | Frame.stream_error _ => true
  | _ => false
  end.

(** The frames the dispatcher only logs or has no case for. *)
Definition inert (f : WebSocketMessage) : bool :=
  match f with
  | Frame.session_info _ | Frame.error _ | Frame.other _ => true
  | _ => false
  end.

(** The state of the component without its console. *)
Definition visible (u : ChatInterface) :=
  (messages u, inputMessage u, isStreaming u, streamingContent u, useRAG u,
   connected u, wsRef u, commits u).

(** ** More of the component: its instances over time *)

(** [disabled] of the text field and of the send button. *)
Definition inputDisabled (u : ChatInterface) : bool :=
  negb (connected u) || isStreaming u.

Definition sendDisabled (u : ChatInterface) : bool :=
  negb (connected u) || bool_decide (trim (inputMessage u) = [])
  || isStreaming u.

(** What the received frames drive: the transcript, the stream state and
    the renders committed by [flushSync]. *)
Definition stream_view (u : ChatInterface) :=
  (messages u, isStreaming u, streamingContent u, commits u).

(** The events that are neither a session change, nor the unmount, nor a
    received text. *)
Definition frame_free (e : WorldEvent) : bool :=
  match e with
  | SessionChanges _ | Unmounts => false
  | BrowserEvent _ (TransportMessage _ _) => false
  | _ => true
  end.

Section WorldPredicates.
Variable REACT_APP_WS_URL : option jsstring.

(** The invariants of an instance, for the session it was constructed
    with. *)
Definition settled (c : Instance) : Prop :=
  sound REACT_APP_WS_URL (sessionId (this c)) c.

(** Every instance other than the one in [wsRef] has been cleaned up (it
    is released and its registries are empty), and a pending connect
    timeout is the one of the last effect run, for the instance in
    [wsRef]. *)
Definition tidy (w : World) : Prop :=
  (∀ r c, heap w !! r = Some c → wsRef (ui w) ≠ Some r →
          Released c ∧ no_handlers c)
  ∧ (∀ t r, (t, r) ∈ connectTimers w →
            wsRef (ui w) = Some r ∧ ∃ id, cleanupFn w = Some (t, id))
  ∧ Forall settled (heap w).

(** Instance [c] is wired to the component as instance [r]: it has the
    four handlers of the effect, none of its sockets is closing, and the
    [connected] flag is set when it is connected. *)
Definition wired (r : nat) (c : Instance) (u : ChatInterface) : Prop :=
  handlers_of c = handlers_of (registered r (sessionId (this c)))
  ∧ Forall (λ s, readyState s ≠ CLOSING) (sockets (env c))
  ∧ (isConnected c = true → connected u = true).

(** The instance in [wsRef] is wired to the component. *)
Definition in_step (w : World) : Prop :=
  ∀ r c, wsRef (ui w) = Some r → heap w !! r = Some c → wired r c (ui w).

(** What holds in every world the component can reach. *)
Definition good (w : World) : Prop := bound w ∧ tidy w ∧ in_step w.

End WorldPredicates.

(** ** The page that shows the chat

    [Chat] holds the selected session in [currentSessionId] and renders
    [<ChatInterface sessionId={currentSessionId} />] when it is truthy, a
    placeholder otherwise.  The component is mounted with fresh hooks when
    the selection becomes truthy, stays mounted (its hooks keep their
    values, the session effect runs again) when the selection changes to
    another truthy id, and is unmounted when it becomes falsy; setting the
    selection to the value it has renders nothing anew. *)

Record Chat := mkChat {
  currentSessionId : option jsstring;     (* string | null *)
  chat : World       (* the ChatInterface and what it has constructed *)
}.

Definition initialChat : Chat := mkChat None initialWorld.

(** A [string | null] used as a condition. *)
Definition truthy (s : option jsstring) : bool :=
  match s with
  | Some (_ :: _) => true
  | _ => false
  end.

(** A [ChatInterface] that has just been mounted: its hooks have their
    initial values; the console and the renders committed so far are the
    browser's and stay. *)
Definition mounted_afresh (u : ChatInterface) : ChatInterface :=
  mkChatInterface [] [] false [] false false None (console u) (commits u).

Inductive ChatEvent :=
| SelectsSession (sessionId : option jsstring)   (* onSessionSelect(sessionId) *)
| InChat (e : WorldEvent).

Section Page.
Variable JSON_parse : jsstring → option WebSocketMessage.
Variable JSON_stringify : Command → jsstring.
Variable REACT_APP_WS_URL : option jsstring.

(** [handleSessionSelect(sessionId)]: [setCurrentSessionId(sessionId)]
    and the render that follows. *)
Definition handleSessionSelect (sessionId : option jsstring) (p : Chat)
    : Chat :=
  let w := chat p in
  let w :=
    match currentSessionId p, sessionId with
    | Some (c :: old), Some (d :: new) =>
        if bool_decide (c :: old = d :: new) then w
        else session_change (d :: new) w
    | Some (_ :: _), _ => unmount w
    | _, Some (d :: new) => effect (d :: new) (on_ui mounted_afresh w)
    | _, _ => w
    end in
  mkChat sessionId w.

(** What happens on the page: a session is selected (or the selection is
    cleared) in the session list; timeouts elapse and the browser
    delivers events; the user types, toggles and sends while the chat is
    shown.  The session effect runs only through the selection. *)
Definition chat_step (e : ChatEvent) (p : Chat) : Chat :=
  match e with
  | SelectsSession sessionId => handleSessionSelect sessionId p
  | InChat (SessionChanges _) | InChat Unmounts => p
  | InChat (ConnectTimerFires t) =>
      mkChat (currentSessionId p)
        (world_step JSON_parse JSON_stringify REACT_APP_WS_URL
           (ConnectTimerFires t) (chat p))
  | InChat (BrowserEvent r e) =>
      mkChat (currentSessionId p)
        (world_step JSON_parse JSON_stringify REACT_APP_WS_URL
           (BrowserEvent r e) (chat p))
  | InChat e =>
      if truthy (currentSessionId p)
      then mkChat (currentSessionId p)
             (world_step JSON_parse JSON_stringify REACT_APP_WS_URL e (chat p))
      else p
  end.

Definition chat_run (es : list ChatEvent) (p : Chat) : Chat :=
  foldl (λ p e, chat_step e p) p es.

(** The chat shows the selected session: when the selection is truthy
    the instance in [wsRef] is for it, otherwise no instance is bound. *)
Definition linked (p : Chat) : Prop :=
  good REACT_APP_WS_URL (chat p)
  ∧ match currentSessionId p with
    | Some (ch :: id) =>
        ∃ r c, wsRef (ui (chat p)) = Some r ∧ heap (chat p) !! r = Some c
               ∧ sessionId (this c) = ch :: id
    | _ => wsRef (ui (chat p)) = None
    end.

End Page.

(** ** More concrete runs *)

(** The component shows session [a] and its socket has opened. *)
Definition openA : list WorldEvent :=
  [ SessionChanges (js "a"); ConnectTimerFires 0;
    BrowserEvent 0 (TransportOpen 0) ].

(** The instance after its first socket has failed: a reconnect is
    scheduled. *)
Definition failedOnce : Instance * ChatInterface :=
  runDemo [CallConnect; TransportFailure 0 abnormal] session123.

(** * Facts about [ChatWebSocket] *)

Section ConnectionFacts.
Context {Msg Cmd App : Type}.
Variable JSON_parse : jsstring → option Msg.
Variable JSON_stringify : Cmd → jsstring.
Variable REACT_APP_WS_URL : option jsstring.

Implicit Types (c : @Conn Msg App) (a : App).

Lemma getState_connect c :
  getState (connect REACT_APP_WS_URL c) = Some OPEN
  ∨ getState (connect REACT_APP_WS_URL c) = Some CONNECTING.
Proof.
  unfold connect.
  destruct (bool_decide (getState c = Some OPEN)) eqn:Ho; cbn.
  { left. by apply bool_decide_eq_true in Ho. }
  destruct (bool_decide (getState c = Some CONNECTING)) eqn:Hc; cbn.
  { right. by apply bool_decide_eq_true in Hc. }
  right. unfold getState. cbn.
  by rewrite list_lookup_middle.
Qed.

Lemma connect_noop c :
  getState c = Some OPEN ∨ getState c = Some CONNECTING →
  connect REACT_APP_WS_URL c = c.
Proof.
  intros H. unfold connect.
  destruct H as [-> | ->]; by cbn.
Qed.

Lemma created_connect c :
  (created (connect REACT_APP_WS_URL c) ≤ S (created c))%nat.
Proof.
  unfold connect, created. case_match; cbn; [lia|].
  rewrite length_app. cbn. lia.
Qed.

(** C5. [connect()] while the socket is open or connecting does nothing at
    all: no socket is created, nothing is rewired, the manual-disconnect
    flag is not touched.  Hence a second [connect()] right after a first
    one changes nothing, and the two calls together create at most one
    socket. *)
Theorem connect_twice_one_socket c :
  (getState c = Some OPEN ∨ getState c = Some CONNECTING →
     connect REACT_APP_WS_URL c = c)
  ∧ connect REACT_APP_WS_URL (connect REACT_APP_WS_URL c)
    = connect REACT_APP_WS_URL c
  ∧ (created (connect REACT_APP_WS_URL (connect REACT_APP_WS_URL c))
     ≤ S (created c))%nat.
Proof.
  split; [apply connect_noop|].
  assert (connect REACT_APP_WS_URL (connect REACT_APP_WS_URL c)
          = connect REACT_APP_WS_URL c) as Hidem.
  { apply connect_noop, getState_connect. }
  split; [done|]. rewrite Hidem. apply created_connect.
Qed.

End ConnectionFacts.

Section ReleaseFacts.
Context {Msg Cmd App : Type}.
Variable JSON_parse : jsstring → option Msg.
Variable JSON_stringify : Cmd → jsstring.
Variable REACT_APP_WS_URL : option jsstring.

Implicit Types (c : @Conn Msg App) (a : App).

Lemma omap_imap_none {X Y Z} (f : Y → option Z) (g : nat → X → Y) (l : list X) :
  (∀ i x, f (g i x) = None) → omap f (imap g l) = [].
Proof.
  revert g. induction l as [|x l IH]; intros g Hg; cbn; [done|].
  rewrite Hg. apply IH. intros i y. apply Hg.
Qed.

Lemma calm_refl c : calm c c.
Proof. by repeat split. Qed.

Lemma calm_trans c1 c2 c3 : calm c1 c2 → calm c2 c3 → calm c1 c3.
Proof.
  intros (?&?&?&?) (?&?&?&?). repeat split; by etrans.
Qed.

Ltac calm_crush :=
  unfold calm, scheduled, created; cbn;
  rewrite ?omap_app, ?length_alter; cbn;
  rewrite ?omap_imap_none by done;
  rewrite ?app_nil_r; done.

Lemma calm_forEach {H} r (call : H → App → App) hs c a :
  calm c (forEach r call hs c a).1.
Proof. calm_crush. Qed.

Lemma calm_set_readyState k s c : calm c (set_readyState k s c).
Proof. calm_crush. Qed.

Lemma calm_drop_timer t c : calm c (drop_timer t c).
Proof. calm_crush. Qed.

Lemma calm_ws_close k c : calm c (ws_close k c).
Proof. unfold ws_close. repeat case_match; calm_crush. Qed.

Lemma calm_onopen c a : calm c (onopen c a).1.
Proof. unfold onopen. calm_crush. Qed.

Lemma calm_onmessage data c a : calm c (onmessage JSON_parse data c a).1.
Proof. unfold onmessage. case_match; calm_crush. Qed.

Lemma calm_onerror c a : calm c (onerror c a).1.
Proof. unfold onerror. case_match; calm_crush. Qed.

Lemma calm_onclose ev c a :
  isManuallyDisconnected (this c) = true → calm c (onclose ev c a).1.
Proof. intros Hm. unfold onclose. cbn. rewrite Hm. calm_crush. Qed.

(** A reconnect callback that finds the flag set does nothing. *)
Lemma reconnect_callback_manual c :
  isManuallyDisconnected (this c) = true →
  reconnect_callback REACT_APP_WS_URL c = c.
Proof. intros Hm. unfold reconnect_callback. by rewrite Hm. Qed.

Lemma calm_send m c : calm c (send JSON_stringify m c).
Proof. unfold send. repeat case_match; calm_crush. Qed.

Lemma disconnect_Released c : Released (disconnect c).
Proof.
  destruct c as [[w ? ? ? ? ? ? ? ?] b].
  unfold disconnect, Released, ws_close. cbn.
  destruct w; cbn; [|done].
  by repeat case_match.
Qed.

Lemma disconnect_quiet c :
  scheduled (disconnect c) = scheduled c ∧ created (disconnect c) = created c.
Proof.
  unfold disconnect. cbn. destruct (ws (this c)) as [k|]; [|done].
  unfold ws_close. repeat case_match; unfold scheduled, created; cbn;
    rewrite ?omap_app, ?length_alter; cbn; by rewrite ?app_nil_r.
Qed.

Lemma calm_disconnect c : Released c → calm c (disconnect c).
Proof.
  intros [Hm Hw]. destruct (disconnect_Released c) as [Hm' Hw'].
  destruct (disconnect_quiet c) as [? ?].
  repeat split; congruence.
Qed.

Lemma Released_not_connected c : Released c → isConnected c = false.
Proof. intros [_ Hws]. unfold isConnected, getState. by rewrite Hws. Qed.

Lemma calm_Released c c' : calm c c' → Released c → Released c'.
Proof. intros (Hm&Hw&_) [? ?]. split; congruence. Qed.

Lemma step_calm e c a :
  e ≠ CallConnect → Released c →
  calm c (step JSON_parse JSON_stringify REACT_APP_WS_URL e (c, a)).1.
Proof.
  intros He HR. pose proof HR as [Hm Hw].
  destruct e; try done; cbn [step].
  - case_match; try apply calm_refl. case_match; try apply calm_refl.
    eapply calm_trans; [apply calm_set_readyState|apply calm_onopen].
  - repeat case_match; try apply calm_refl. apply calm_onmessage.
  - case_match; try apply calm_refl. apply calm_onerror.
  - repeat case_match; try apply calm_refl;
      (eapply calm_trans; [apply calm_set_readyState|by apply calm_onclose]).
  - assert (∀ s, calm c (let '(c1, a1) := onerror (set_readyState k s c) a in
                         onclose ev c1 a1).1) as Hfail.
    { intros s. destruct (onerror (set_readyState k s c) a) as [c1 a1] eqn:E.
      assert (calm c c1) as Hc1.
      { eapply calm_trans; [apply (calm_set_readyState k s)|].
        change c1 with (c1, a1).1. rewrite <-E. apply calm_onerror. }
      eapply calm_trans; [exact Hc1|]. apply calm_onclose.
      destruct Hc1 as (->&_). done. }
    destruct (socketState k c) as [[]|]; try apply calm_refl; apply Hfail.
  - case_match; [|apply calm_refl]. cbn.
    rewrite reconnect_callback_manual by done. apply calm_drop_timer.
  - by apply calm_disconnect.
  - apply calm_send.
Qed.

Lemma run_cons e es (st : @Conn Msg App * App) :
  run JSON_parse JSON_stringify REACT_APP_WS_URL (e :: es) st
  = run JSON_parse JSON_stringify REACT_APP_WS_URL es
      (step JSON_parse JSON_stringify REACT_APP_WS_URL e st).
Proof. done. Qed.

Lemma run_calm es c a :
  Forall (λ e, e ≠ CallConnect) es → Released c →
  calm c (run JSON_parse JSON_stringify REACT_APP_WS_URL es (c, a)).1.
Proof.
  intros Hes. revert c a. induction Hes as [|e es He Hes IH]; intros c a HR.
  { apply calm_refl. }
  rewrite run_cons. destruct (step JSON_parse JSON_stringify REACT_APP_WS_URL e (c, a)) as [c1 a1] eqn:E.
  assert (calm c c1) as H1.
  { change c1 with (c1, a1).1. rewrite <-E. by apply step_calm. }
  eapply calm_trans; [exact H1|]. apply IH. by eapply calm_Released.
Qed.

(** C3. After [disconnect()], [isConnected()] is false, and whatever the
    browser delivers afterwards (late close, error or open events of
    released sockets, messages, pending timeouts) and whatever the owner
    calls other than [connect()], [isConnected()] stays false, no reconnect
    is scheduled and no socket is created.  A reconnect callback that was
    already scheduled finds the flag set when it fires and does
    nothing. *)
Theorem disconnect_is_final c a es :
  Forall (λ e, e ≠ CallConnect) es →
  let c1 := disconnect c in
  let c2 := (run JSON_parse JSON_stringify REACT_APP_WS_URL es (c1, a)).1 in
  isConnected c1 = false
  ∧ isConnected c2 = false
  ∧ scheduled c2 = scheduled c
  ∧ created c2 = created c
  ∧ reconnect_callback REACT_APP_WS_URL c2 = c2.
Proof.
  intros Hes c1 c2.
  pose proof (disconnect_Released c) as HR.
  pose proof (run_calm es c1 a Hes HR) as Hcalm. fold c2 in Hcalm.
  pose proof (calm_Released _ _ Hcalm HR) as HR2.
  destruct Hcalm as (_&_&Hs&Hc). destruct (disconnect_quiet c) as [Hs1 Hc1].
  repeat split.
  - by apply Released_not_connected.
  - by apply Released_not_connected.
  - by rewrite Hs.
  - by rewrite Hc.
  - apply reconnect_callback_manual, HR2.
Qed.

End ReleaseFacts.

Section BackoffFacts.
Context {Msg Cmd App : Type}.
Variable JSON_parse : jsstring → option Msg.
Variable JSON_stringify : Cmd → jsstring.
Variable REACT_APP_WS_URL : option jsstring.

Implicit Types (c : @Conn Msg App) (a : App).

Ltac book_crush :=
  unfold bookkeeping, scheduled; cbn;
  rewrite ?omap_app; cbn;
  rewrite ?omap_imap_none by done;
  rewrite ?app_nil_r; done.

Lemma step_quiet e c a :
  quiet e = true →
  bookkeeping (step JSON_parse JSON_stringify REACT_APP_WS_URL e (c, a)).1
  = bookkeeping c.
Proof.
  destruct e; try done; intros _; cbn [step].
  - destruct (socketState k c) as [[]|]; try done.
    unfold onmessage. case_match; book_crush.
  - destruct (socketState k c) as [r|]; try done.
    unfold onerror. case_match; book_crush.
  - cbn. unfold send. repeat case_match; book_crush.
Qed.

Lemma run_quiet es c a :
  forallb quiet es = true →
  bookkeeping (run JSON_parse JSON_stringify REACT_APP_WS_URL es (c, a)).1
  = bookkeeping c.
Proof.
  revert c a. induction es as [|e es IH]; intros c a Hes; [done|].
  cbn in Hes. apply andb_true_iff in Hes as [He Hes].
  rewrite run_cons.
  destruct (step JSON_parse JSON_stringify REACT_APP_WS_URL e (c, a))
    as [c1 a1] eqn:E.
  rewrite IH by done. change c1 with (c1, a1).1. rewrite <-E.
  by apply step_quiet.
Qed.

(** An unexpected close with the bookkeeping at rest schedules one
    reconnect, [reconnectDelay] times the new attempt count from now. *)
Lemma onclose_schedules ev c a :
  isManuallyDisconnected (this c) = false →
  isReconnecting (this c) = false →
  reconnectAttempts (this c) < maxReconnectAttempts →
  let n := reconnectAttempts (this c) + 1 in
  bookkeeping (onclose ev c a).1
  = (n, true, false, sockets (env c),
     timers (env c) ++ [(nextTimer (env c), reconnectDelay * n)],
     S (nextTimer (env c)), scheduled c ++ [reconnectDelay * n]).
Proof.
  intros Hm Hr Hn n. unfold onclose, attemptReconnect. cbn.
  rewrite Hm, Hr. cbn.
  apply N.leb_gt in Hn. rewrite Hn. cbn.
  unfold bookkeeping, scheduled. cbn.
  rewrite !omap_app. cbn. rewrite omap_imap_none by done.
  rewrite !app_nil_r, Hm. subst n. reflexivity.
Qed.

(** C6. When a socket opens, the attempt counter is reset to 0 and the
    reconnecting flag is cleared; the next unexpected close of that
    socket, whatever was received and sent in between, schedules a
    reconnect after exactly [1 * reconnectDelay]. *)
Theorem open_resets_backoff k es ev c a :
  socketState k c = Some CONNECTING →
  isManuallyDisconnected (this c) = false →
  forallb quiet es = true →
  let opened := step JSON_parse JSON_stringify REACT_APP_WS_URL
                  (TransportOpen k) (c, a) in
  let closed := step JSON_parse JSON_stringify REACT_APP_WS_URL
                  (TransportClose k ev)
                  (run JSON_parse JSON_stringify REACT_APP_WS_URL es opened) in
  reconnectAttempts (this opened.1) = 0
  ∧ isReconnecting (this opened.1) = false
  ∧ scheduled opened.1 = scheduled c
  ∧ scheduled closed.1 = scheduled c ++ [1 * reconnectDelay]
  ∧ timers (env closed.1)
    = timers (env c) ++ [(nextTimer (env c), 1 * reconnectDelay)]
  ∧ reconnectAttempts (this closed.1) = 1
  ∧ isReconnecting (this closed.1) = true.
Proof.
  intros Hk Hm Hes opened closed.
  assert (bookkeeping opened.1
          = (0, false, false,
             alter (λ s, mkWebSocket (url s) OPEN) k (sockets (env c)),
             timers (env c), nextTimer (env c), scheduled c)) as Hopen.
  { subst opened. cbn [step]. rewrite Hk. unfold onopen.
    unfold bookkeeping, scheduled. cbn. rewrite Hm.
    rewrite !omap_app. cbn. rewrite omap_imap_none by done.
    by rewrite !app_nil_r. }
  destruct opened as [c1 a1] eqn:E1. cbn [fst] in *.
  destruct (run JSON_parse JSON_stringify REACT_APP_WS_URL es (c1, a1))
    as [c2 a2] eqn:E2.
  assert (bookkeeping c2 = bookkeeping c1) as Hrun.
  { change c2 with (c2, a2).1. rewrite <-E2. by apply run_quiet. }
  rewrite Hopen in Hrun.
  assert (socketState k c2 = Some OPEN) as Hk2.
  { unfold socketState. injection Hrun as _ _ _ -> _ _ _.
    rewrite list_lookup_alter. unfold socketState in Hk.
    destruct (sockets (env c) !! k) as [s|]; [|done].
    by rewrite decide_True. }
  injection Hopen as Ha1 Hr1 _ _ _ _ Hs1.
  subst closed. cbn [step]. rewrite Hk2.
  injection Hrun as Ha2 Hr2 Hm2 Hso2 Ht2 Hn2 Hs2.
  pose proof (onclose_schedules ev (set_readyState k CLOSED c2) a2) as Hclose.
  change (this (set_readyState k CLOSED c2)) with (this c2) in Hclose.
  change (timers (env (set_readyState k CLOSED c2))) with (timers (env c2))
    in Hclose.
  change (nextTimer (env (set_readyState k CLOSED c2)))
    with (nextTimer (env c2)) in Hclose.
  change (scheduled (set_readyState k CLOSED c2)) with (scheduled c2) in Hclose.
  rewrite Ha2, Hr2, Hm2, Ht2, Hn2, Hs2 in Hclose.
  specialize (Hclose eq_refl eq_refl eq_refl).
  injection Hclose as Ha3 Hr3 _ _ Ht3 _ Hs3.
  repeat split; done.
Qed.

(** C7. A transport message whose text [JSON.parse] rejects is logged and
    dropped inside the message callback, which returns normally: no
    handler is called, the application state is untouched, and the
    instance, its sockets (hence the connection state) and its timeouts
    are as before. *)
Theorem malformed_frame_is_dropped data c a :
  JSON_parse data = None →
  let st := onmessage JSON_parse data c a in
  st.2 = a
  ∧ this st.1 = this c
  ∧ sockets (env st.1) = sockets (env c)
  ∧ timers (env st.1) = timers (env c)
  ∧ trace (env st.1) = trace (env c) ++ [EConsole ErrParsing]
  ∧ invocations st.1 = invocations c
  ∧ getState st.1 = getState c.
Proof.
  intros Hp st. subst st. unfold onmessage. rewrite Hp.
  unfold invocations. cbn. rewrite omap_app. cbn.
  by rewrite app_nil_r.
Qed.

(** What [send] does, by the state of the socket. *)
Lemma send_cases (m : Cmd) c :
  let c' := send JSON_stringify m c in
  this c' = this c
  ∧ sockets (env c') = sockets (env c)
  ∧ timers (env c') = timers (env c)
  ∧ (isConnected c = false →
       trace (env c') = trace (env c) ++ [EConsole ErrNotConnected]
       ∧ transmitted c' = transmitted c)
  ∧ (isConnected c = true →
       ∃ k, ws (this c) = Some k
            ∧ trace (env c') = trace (env c) ++ [ESend k (JSON_stringify m)]
            ∧ transmitted c' = transmitted c ++ [(k, JSON_stringify m)]).
Proof.
  intros c'. subst c'. unfold send, isConnected, transmitted.
  destruct (bool_decide (getState c = Some OPEN)) eqn:Ho.
  - apply bool_decide_eq_true in Ho. unfold getState in Ho.
    destruct (ws (this c)) as [k|] eqn:Hw; [|done]. cbn.
    do 3 (split; [done|]). split; [done|].
    intros _. exists k. rewrite omap_app. by cbn.
  - cbn. do 3 (split; [done|]). split; [|done].
    intros _. rewrite omap_app. cbn. by rewrite app_nil_r.
Qed.

(** C8. [send(command)] while the socket is not open (or there is none)
    hands nothing to any socket: it reports 'WebSocket is not connected'
    on the console and returns, leaving the instance, its sockets and its
    timeouts as they were, so the command is kept nowhere.  While the
    socket is open, the encoded command is handed to it. *)
Theorem send_only_when_open (m : Cmd) c :
  let c' := send JSON_stringify m c in
  this c' = this c
  ∧ sockets (env c') = sockets (env c)
  ∧ timers (env c') = timers (env c)
  ∧ (isConnected c = false →
       trace (env c') = trace (env c) ++ [EConsole ErrNotConnected]
       ∧ transmitted c' = transmitted c)
  ∧ (isConnected c = true →
       ∃ k, ws (this c) = Some k
            ∧ trace (env c') = trace (env c) ++ [ESend k (JSON_stringify m)]
            ∧ transmitted c' = transmitted c ++ [(k, JSON_stringify m)]).
Proof. exact (send_cases m c). Qed.

End BackoffFacts.

Section StallFacts.
Context {Msg Cmd App : Type}.
Variable JSON_parse : jsstring → option Msg.
Variable JSON_stringify : Cmd → jsstring.
Variable REACT_APP_WS_URL : option jsstring.

Implicit Types (c : @Conn Msg App) (a : App).

Lemma same_backoff_keeps c c' :
  same_backoff c c' → first_attempt_only c → first_attempt_only c'.
Proof.
  intros (Ha & Hr & Hs) (H1 & H2 & H3). unfold first_attempt_only.
  by rewrite Ha, Hr, Hs.
Qed.

Lemma bookkeeping_same_backoff c c' :
  bookkeeping c' = bookkeeping c → same_backoff c c'.
Proof. intros H. injection H as Ha Hr _ _ _ _ Hs. by repeat split. Qed.

Ltac backoff_crush :=
  unfold same_backoff, scheduled; cbn;
  rewrite ?omap_app; cbn;
  rewrite ?omap_imap_none by done;
  rewrite ?app_nil_r; done.

Lemma same_backoff_connect c : same_backoff c (connect REACT_APP_WS_URL c).
Proof. unfold connect. case_match; backoff_crush. Qed.

Lemma same_backoff_reconnect_callback c :
  same_backoff c (reconnect_callback REACT_APP_WS_URL c).
Proof.
  unfold reconnect_callback. case_match; [|done].
  unfold connect.
  change (getState (emit ?e c)) with (getState c).
  case_match; backoff_crush.
Qed.

Lemma first_attempt_only_onopen c a :
  first_attempt_only c → first_attempt_only (onopen c a).1.
Proof.
  intros (_ & _ & Hs). unfold onopen, first_attempt_only, scheduled in *. cbn.
  rewrite !omap_app. cbn. rewrite omap_imap_none by done.
  rewrite !app_nil_r. split; [done|]. split; [lia|done].
Qed.

Lemma first_attempt_only_disconnect c :
  first_attempt_only c → first_attempt_only (disconnect c).
Proof.
  intros (_ & _ & Hs). destruct (disconnect_quiet c) as [Hq _].
  unfold first_attempt_only. rewrite Hq.
  unfold disconnect. cbn. destruct (ws (this c)); cbn;
    unfold ws_close; repeat case_match; cbn; (split; [done|split; [lia|done]]).
Qed.

Lemma first_attempt_only_onclose ev c a :
  first_attempt_only c → first_attempt_only (onclose ev c a).1.
Proof.
  intros (H0 & H1 & Hs). unfold onclose, attemptReconnect. cbn.
  destruct (isManuallyDisconnected (this c)); cbn.
  { unfold first_attempt_only, scheduled in *. cbn.
    rewrite !omap_app. cbn. rewrite omap_imap_none by done.
    by rewrite !app_nil_r. }
  destruct (isReconnecting (this c)) eqn:Hr; cbn.
  { unfold first_attempt_only, scheduled in *. cbn. rewrite Hr.
    rewrite !omap_app. cbn. rewrite omap_imap_none by done.
    by rewrite !app_nil_r. }
  rewrite (H0 eq_refl). cbn.
  unfold first_attempt_only, scheduled in *. cbn.
  rewrite !omap_app. cbn. rewrite omap_imap_none by done.
  rewrite !app_nil_r. split; [done|]. split; [lia|].
  apply Forall_app. split; [done|]. by constructor.
Qed.

Lemma first_attempt_only_set_readyState k s c :
  first_attempt_only c → first_attempt_only (set_readyState k s c).
Proof. done. Qed.

Lemma first_attempt_only_step e c a :
  first_attempt_only c →
  first_attempt_only (step JSON_parse JSON_stringify REACT_APP_WS_URL e (c, a)).1.
Proof.
  intros H.
  destruct (quiet e) eqn:Hq.
  { eapply same_backoff_keeps; [|exact H].
    apply bookkeeping_same_backoff. by apply step_quiet. }
  destruct e; try done; cbn [step].
  - destruct (socketState k c) as [[]|]; try done.
    by apply first_attempt_only_onopen, first_attempt_only_set_readyState.
  - destruct (socketState k c) as [[]|]; try done;
      by apply first_attempt_only_onclose, first_attempt_only_set_readyState.
  - assert (∀ s, first_attempt_only
                   (let '(c1, a1) := onerror (set_readyState k s c) a in
                    onclose ev c1 a1).1) as Hfail.
    { intros s. destruct (onerror (set_readyState k s c) a) as [c1 a1] eqn:E.
      apply first_attempt_only_onclose.
      eapply same_backoff_keeps; [|exact H].
      change c1 with (c1, a1).1. rewrite <-E.
      unfold onerror. case_match; backoff_crush. }
    destruct (socketState k c) as [[]|]; try done; apply Hfail.
  - destruct (pending t c); [|done]. cbn.
    eapply same_backoff_keeps; [apply same_backoff_reconnect_callback|]. done.
  - eapply same_backoff_keeps; [apply same_backoff_connect|done].
  - by apply first_attempt_only_disconnect.
Qed.

(** Whatever happens to an instance from its construction on, it never
    schedules a reconnect with a delay other than [reconnectDelay], and
    its attempt counter never exceeds 1. *)
Lemma backoff_never_grows id es a :
  let c := (run JSON_parse JSON_stringify REACT_APP_WS_URL es
              (newConn id, a)).1 in
  reconnectAttempts (this c) ≤ 1
  ∧ Forall (λ d, d = reconnectDelay) (scheduled c).
Proof.
  assert (∀ c a, first_attempt_only c →
    first_attempt_only
      (run JSON_parse JSON_stringify REACT_APP_WS_URL es (c, a)).1) as H.
  { induction es as [|e es IH]; intros c0 a0 H0; [done|].
    rewrite run_cons.
    destruct (step JSON_parse JSON_stringify REACT_APP_WS_URL e (c0, a0))
      as [c1 a1] eqn:E.
    apply IH. change c1 with (c1, a1).1. rewrite <-E.
    by apply first_attempt_only_step. }
  intros c. destruct (H (newConn id) a) as (_ & ? & ?); [|done].
  split; [done|]. split; [done|]. constructor.
Qed.

End StallFacts.

(** * Facts about the dispatcher *)

Lemma buffers_length b ts : length (buffers b ts) = length ts.
Proof. revert b. induction ts as [|t ts IH]; intros b; cbn; by rewrite ?IH. Qed.

Lemma buffers_lookup b ts k :
  (k < length ts)%nat →
  buffers b ts !! k = Some (b ++ concat (take (S k) ts)).
Proof.
  revert b k. induction ts as [|t ts IH]; intros b k Hk; cbn in Hk; [lia|].
  destruct k as [|k].
  - cbn. rewrite take_0. cbn. by rewrite app_nil_r.
  - cbn [buffers lookup list_lookup]. rewrite IH by lia.
    cbn. by rewrite <-app_assoc.
Qed.

Lemma dispatch_app fs gs u : dispatch (fs ++ gs) u = dispatch gs (dispatch fs u).
Proof. unfold dispatch. by rewrite foldl_app. Qed.

(** Tokens arriving while a stream is active. *)
Lemma dispatch_tokens ts u :
  isStreaming u = true →
  let u' := dispatch (Frame.stream_token <$> ts) u in
  isStreaming u' = true
  ∧ streamingContent u' = streamingContent u ++ concat ts
  ∧ messages u' = messages u
  ∧ commits u'
    = commits u
      ++ (mkView (messages u) ∘ Some <$> buffers (streamingContent u) ts).
Proof.
  revert u. induction ts as [|t ts IH]; intros u Hu; cbn.
  { by rewrite !app_nil_r. }
  specialize (IH (handleWebSocketMessage (Frame.stream_token t) u)).
  cbn in IH. rewrite Hu in IH. specialize (IH eq_refl).
  destruct IH as (H1 & H2 & H3 & H4).
  unfold dispatch in *. cbn.
  rewrite H1, H2, H3, H4. rewrite <-!app_assoc.
  unfold render. cbn. by rewrite Hu.
Qed.

(** C4 (as the code has it). From any state (in particular from Idle),
    [stream_start] followed by the tokens [ts] and [stream_end] with a
    message [m]: after the k-th token the stream is active, the buffer is
    the concatenation of the first k tokens and the transcript has not
    moved; each of these buffers was rendered, in order, by the
    [flushSync] of its token, before the next frame was handled;
    [stream_end] appends exactly the one message [m] the server sent, as
    it was sent (the dispatcher looks neither at its role nor at its
    content), empties the buffer and ends the stream. *)
Theorem stream_is_ordered_and_finalized ts m u :
  let streaming k :=
    dispatch (Frame.stream_start :: (Frame.stream_token <$> take k ts)) u in
  let final :=
    dispatch (Frame.stream_start :: (Frame.stream_token <$> ts)
              ++ [Frame.stream_end m]) u in
  (∀ k, (k ≤ length ts)%nat →
     isStreaming (streaming k) = true
     ∧ streamingContent (streaming k) = concat (take k ts)
     ∧ messages (streaming k) = messages u)
  ∧ (∀ k, (k < length ts)%nat →
       commits (streaming (length ts)) !! (length (commits u) + k)%nat
       = Some (mkView (messages u) (Some (concat (take (S k) ts)))))
  ∧ length (commits (streaming (length ts)))
    = (length (commits u) + length ts)%nat
  ∧ messages final = messages u ++ [m]
  ∧ isStreaming final = false
  ∧ streamingContent final = []
  ∧ commits final = commits (streaming (length ts)).
Proof.
  intros streaming final.
  assert (∀ k,
    isStreaming (streaming k) = true
    ∧ streamingContent (streaming k) = concat (take k ts)
    ∧ messages (streaming k) = messages u
    ∧ commits (streaming k)
      = commits u ++ (mkView (messages u) ∘ Some <$> buffers [] (take k ts)))
    as Hstream.
  { intros k. subst streaming. cbn beta.
    change (dispatch (Frame.stream_start :: ?fs) u)
      with (dispatch fs (handleWebSocketMessage Frame.stream_start u)).
    pose proof (dispatch_tokens (take k ts)
                  (handleWebSocketMessage Frame.stream_start u) eq_refl) as H.
    cbn zeta in H. exact H. }
  assert (final = handleWebSocketMessage (Frame.stream_end m)
                    (streaming (length ts))) as ->.
  { subst final streaming. cbn beta.
    by rewrite app_comm_cons, dispatch_app, firstn_all. }
  destruct (Hstream (length ts)) as (Hs & Hb & Hm & Hc).
  rewrite firstn_all in Hc.
  split; [|split; [|split; [|split; [|split; [|split]]]]].
  - intros k _. destruct (Hstream k) as (?&?&?&_). done.
  - intros k Hk. rewrite Hc, lookup_app_r by lia.
    replace (length (commits u) + k - length (commits u))%nat with k by lia.
    rewrite list_lookup_fmap, buffers_lookup by done. done.
  - by rewrite Hc, length_app, length_fmap, buffers_length.
  - change (messages (handleWebSocketMessage (Frame.stream_end m)
                        (streaming (length ts))))
      with (messages (streaming (length ts)) ++ [m]).
    by rewrite Hm.
  - done.
  - done.
  - done.
Qed.

(** C4 as stated fails: the message of a [stream_end] frame is appended
    whatever its role; here the server ends the stream with a message of
    role [user], and the transcript holds no assistant message. *)
Lemma stream_end_appends_any_role :
  let m := mkMessage None user (js "Hello world") (js "2025-01-01T00:00:00Z")
             None in
  let final :=
    dispatch [ Frame.stream_start; Frame.stream_token (js "Hello");
               Frame.stream_token (js " world"); Frame.stream_end m ]
      initialChatInterface in
  messages final = [m]
  ∧ role <$> messages final = [user]
  ∧ Forall (λ m', role m' ≠ assistant) (messages final).
Proof.
  cbn zeta. split; [vm_compute; reflexivity|].
  split; [vm_compute; reflexivity|].
  vm_compute. constructor; [discriminate|constructor].
Qed.

(** C2 (as the code has it). A [stream_token] frame dispatched while no
    stream is active leaves the transcript alone and makes no transition:
    the stream stays inactive and what is rendered of the conversation
    afterwards is what was rendered before.  The token is still appended
    to the buffer, which is not shown while no stream is active and which
    the next [stream_start] empties. *)
Theorem idle_token_is_buffered_unseen token u :
  isStreaming u = false →
  let u' := handleWebSocketMessage (Frame.stream_token token) u in
  messages u' = messages u
  ∧ isStreaming u' = false
  ∧ render u' = render u
  ∧ streamingContent u' = streamingContent u ++ token
  ∧ streamingContent (handleWebSocketMessage Frame.stream_start u') = [].
Proof.
  intros Hu u'. subst u'. unfold render. cbn. by rewrite Hu.
Qed.

(** C2 as stated fails: the buffer of an idle component changes. *)
Lemma idle_token_changes_buffer :
  isStreaming initialChatInterface = false
  ∧ streamingContent
      (handleWebSocketMessage (Frame.stream_token (js "x")) initialChatInterface)
    ≠ streamingContent initialChatInterface.
Proof. split; [done|]. cbn. discriminate. Qed.

(** * Facts about the component *)

Lemma trimStart_nil s : trimStart s = [] ↔ Forall (λ c, isWhiteSpace c = true) s.
Proof.
  induction s as [|c s IH]; cbn; [done|].
  destruct (isWhiteSpace c) eqn:Hc.
  - rewrite IH. split; [by constructor|]. by inversion 1.
  - split; [done|]. inversion 1; congruence.
Qed.

Lemma trimStart_suffix s : trimStart s `suffix_of` s.
Proof.
  induction s as [|c s IH]; cbn; [done|].
  destruct (isWhiteSpace c); [by apply suffix_cons_r|done].
Qed.

Lemma trimStart_head s c r : trimStart s = c :: r → isWhiteSpace c = false.
Proof.
  induction s as [|d s IH]; cbn; [done|].
  destruct (isWhiteSpace d) eqn:Hd; [done|]. by intros [= <- _].
Qed.

(** [trim] leaves nothing exactly of the strings that are empty or all
    white space. *)
Lemma trim_nil s : trim s = [] ↔ Forall (λ c, isWhiteSpace c = true) s.
Proof.
  unfold trim, trimEnd. split.
  - intros H. apply (f_equal reverse) in H. rewrite reverse_involutive in H.
    cbn in H. apply trimStart_nil in H. apply Forall_reverse in H.
    rewrite reverse_involutive in H.
    destruct (trimStart s) as [|c r] eqn:E; [by apply trimStart_nil|].
    apply trimStart_head in E. inversion H; congruence.
  - intros H. apply trimStart_nil in H. by rewrite H.
Qed.

Section ComponentFacts.
Variable JSON_parse : jsstring → option WebSocketMessage.
Variable JSON_stringify : Command → jsstring.
Variable REACT_APP_WS_URL : option jsstring.

(** C10. The send button: while a stream is active, or when the input is
    empty or all white space, [handleSendMessage] changes nothing, so no
    instance transmits anything.  In every case each instance has
    afterwards transmitted what it had before, except possibly the
    current one, which may have transmitted one more text: the encoding
    of the command of type [message] whose content is the trimmed input
    and whose [use_rag] is the current flag; and this only when no stream
    is active and the trimmed input is not empty. *)
Theorem send_button_gate w :
  let u := ui w in
  let w' := handleSendMessage JSON_stringify w in
  let cmd := mkCommand (js "message") (trim (inputMessage u)) (useRAG u) in
  (isStreaming u = true ∨ Forall (λ c, isWhiteSpace c = true) (inputMessage u) →
     w' = w ∧ wire w' = wire w)
  ∧ length (heap w') = length (heap w)
  ∧ (∀ r c, heap w !! r = Some c →
       ∃ c', heap w' !! r = Some c'
         ∧ (transmitted c' = transmitted c
            ∨ (∃ k, transmitted c' = transmitted c ++ [(k, JSON_stringify cmd)])
              ∧ wsRef u = Some r ∧ isConnected c = true
              ∧ isStreaming u = false ∧ trim (inputMessage u) ≠ [])).
Proof.
  intros u w' cmd. subst w'. unfold handleSendMessage. fold u. fold cmd.
  split; [|split].
  - intros [Hs | Hw].
    + rewrite Hs. by rewrite !orb_true_r.
    + apply trim_nil in Hw. rewrite Hw. done.
  - repeat case_match; cbn; by rewrite ?length_alter.
  - intros r c Hr.
    destruct (bool_decide (trim (inputMessage u) = [])) eqn:Ht; cbn.
    { exists c. by split; [|left]. }
    apply bool_decide_eq_false in Ht.
    destruct (wsRef u) as [r'|] eqn:Hw; cbn; [|exists c; by split; [|left]].
    destruct (isStreaming u) eqn:Hs; cbn; [exists c; by split; [|left]|].
    destruct (decide (r' = r)) as [->|Hne].
    + exists (send JSON_stringify cmd c). cbn.
      rewrite list_lookup_alter_eq, Hr.
      split; [done|].
      pose proof (send_cases JSON_stringify cmd c) as Hsend.
      cbn zeta in Hsend. destruct Hsend as (_&_&_&Hclosed&Hopen).
      destruct (isConnected c) eqn:Hc.
      * destruct (Hopen eq_refl) as (k&_&_&Hk). right.
        split; [by exists k|done].
      * left. by apply Hclosed.
    + exists c. cbn. rewrite list_lookup_alter_ne by done. by split; [|left].
Qed.

End ComponentFacts.

Section SessionFacts.
Variable JSON_parse : jsstring → option WebSocketMessage.
Variable JSON_stringify : Command → jsstring.
Variable REACT_APP_WS_URL : option jsstring.

Lemma alter_snoc {X} (f : X → X) (l : list X) (x : X) n :
  n = length l → alter f n (l ++ [x]) = l ++ [f x].
Proof.
  intros ->. rewrite <-(Nat.add_0_r (length l)). by rewrite alter_app_r.
Qed.

(** What a session change does to the instances and timeouts. *)
Lemma session_change_unfold id w r0 t0 id0 :
  id ≠ [] →
  wsRef (ui w) = Some r0 →
  cleanupFn w = Some (t0, id0) →
  let r := length (heap w) in
  let t := nextConnectTimer w in
  let w' := session_change id w in
  ops w' = ops w ++ [ OpClearTimeout t0; OpClearHandlers r0; OpDisconnect r0;
                      OpDiscard; OpConstruct r id;
                      OpRegister r RMessage; OpRegister r ROpen;
                      OpRegister r RClose; OpRegister r RError;
                      OpSetTimeout t r 100 ]
  ∧ heap w' = alter (disconnect ∘ clearHandlers) r0 (heap w)
              ++ [registered r id]
  ∧ wsRef (ui w') = Some r
  ∧ connectTimers w' = filter (λ p, p.1 ≠ t0) (connectTimers w) ++ [(t, r)]
  ∧ nextConnectTimer w' = S t
  ∧ cleanupFn w' = Some (t, id).
Proof.
  intros Hid Hws Hcl r t w'. subst w'.
  destruct id as [|ch id]; [done|].
  unfold session_change, run_cleanup. rewrite Hcl.
  unfold cleanup. cbn. rewrite Hws. cbn.
  rewrite !length_alter. fold r.
  rewrite <-!app_assoc. cbn.
  split; [done|]. split; [|done].
  rewrite (list_alter_alter_eq disconnect clearHandlers).
  rewrite !alter_snoc by (subst r; by rewrite length_alter). done.
Qed.

End SessionFacts.

Section CancelFacts.
Variable JSON_parse : jsstring → option WebSocketMessage.
Variable JSON_stringify : Command → jsstring.
Variable REACT_APP_WS_URL : option jsstring.
















End CancelFacts.

Section SwitchFacts.
Variable JSON_parse : jsstring → option WebSocketMessage.
Variable JSON_stringify : Command → jsstring.
Variable REACT_APP_WS_URL : option jsstring.



(** The registered instance survives [clearHandlers(); disconnect()]
    without ever having connected. *)
Lemma never_connected_torn_down r id :
  never_connected (disconnect (clearHandlers (registered r id))).
Proof. done. Qed.



(** The guard of the effect.  No caller passes the empty id ([Chat]
    renders the component only for a truthy id); if it were passed, the
    cleanup would tear the old instance down and the effect would return
    at [if (!sessionId) return;]. *)
Lemma empty_session_constructs_nothing :
  let w := session_change (js "a") initialWorld in
  let w' := session_change (js "") w in
  ops w' = ops w ++ [ OpClearTimeout 0; OpClearHandlers 0; OpDisconnect 0;
                      OpDiscard ]
  ∧ length (heap w') = length (heap w)
  ∧ wsRef (ui w') = None
  ∧ connectTimers w' = [].
Proof. done. Qed.

End SwitchFacts.

Section FreshFacts.
Variable JSON_parse : jsstring → option WebSocketMessage.
Variable JSON_stringify : Command → jsstring.
Variable REACT_APP_WS_URL : option jsstring.


Lemma grows_trans w1 w2 w3 : grows w1 w2 → grows w2 w3 → grows w1 w3.
Proof.
  intros (?&?&?) (?&?&?). repeat split; [lia|lia|by etrans].
Qed.



Lemma grows_clearTimeout t w : grows w (clearTimeout t w).
Proof. repeat split; cbn; [lia..|apply sublist_filter]. Qed.





End FreshFacts.

Section BoundFacts.
Variable JSON_parse : jsstring → option WebSocketMessage.
Variable JSON_stringify : Command → jsstring.
Variable REACT_APP_WS_URL : option jsstring.

Lemma keeps_ref_handlers (c c' : Instance) :
  handlers_of c' = handlers_of c → keeps_ref c → keeps_ref c'.
Proof. unfold keeps_ref. by intros [= -> -> -> ->]. Qed.

Lemma foldl_keeps_ref {H} (call : H → ChatInterface → ChatInterface) hs u :
  Forall (λ h, ∀ u, wsRef (call h u) = wsRef u) hs →
  wsRef (foldl (λ a h, call h a) u hs) = wsRef u.
Proof.
  intros Hhs. revert u. induction Hhs as [|h hs Hh _ IH]; intros u; [done|].
  cbn. by rewrite IH.
Qed.

Lemma handleWebSocketMessage_wsRef m u :
  wsRef (handleWebSocketMessage m u) = wsRef u.
Proof. by destruct m. Qed.

Lemma handlers_of_connect (c : Instance) :
  handlers_of (connect REACT_APP_WS_URL c) = handlers_of c.
Proof. unfold connect. by case_match. Qed.

Lemma handlers_of_disconnect (c : Instance) :
  handlers_of (disconnect c) = handlers_of c.
Proof.
  unfold disconnect. cbn. destruct (ws (this c)); [|done].
  unfold ws_close. by repeat case_match.
Qed.

Lemma handlers_of_send m (c : Instance) :
  handlers_of (send JSON_stringify m c) = handlers_of c.
Proof. unfold send. by repeat case_match. Qed.

Lemma keeps_ref_onopen (c : Instance) u :
  keeps_ref c →
  handlers_of (onopen c u).1 = handlers_of c ∧ wsRef (onopen c u).2 = wsRef u.
Proof.
  intros (_ & _ & Ho & _). split; [done|].
  unfold onopen, forEach. cbn. by apply foldl_keeps_ref.
Qed.

Lemma keeps_ref_onmessage data (c : Instance) u :
  keeps_ref c →
  handlers_of (onmessage JSON_parse data c u).1 = handlers_of c
  ∧ wsRef (onmessage JSON_parse data c u).2 = wsRef u.
Proof.
  intros (Hm & _). unfold onmessage. destruct (JSON_parse data) as [m|]; [|done].
  split; [done|]. unfold forEach. cbn. apply foldl_keeps_ref.
  eapply Forall_impl; [exact Hm|]. cbn. intros h Hh u'. apply Hh.
Qed.

Lemma keeps_ref_onerror (c : Instance) u :
  keeps_ref c →
  handlers_of (onerror c u).1 = handlers_of c ∧ wsRef (onerror c u).2 = wsRef u.
Proof.
  intros (_ & He & _). unfold onerror. case_match; [|done].
  split; [done|]. unfold forEach. cbn. by apply foldl_keeps_ref.
Qed.

Lemma keeps_ref_onclose ev (c : Instance) u :
  keeps_ref c →
  handlers_of (onclose ev c u).1 = handlers_of c
  ∧ wsRef (onclose ev c u).2 = wsRef u.
Proof.
  intros (_ & _ & _ & Hc). unfold onclose, forEach, attemptReconnect. cbn.
  assert (wsRef (foldl (λ a h, h a) u (closeHandlers (this c))) = wsRef u)
    as Hw by (by apply (foldl_keeps_ref (λ h, h))).
  by repeat case_match.
Qed.

Lemma keeps_ref_step e (c : Instance) u :
  keeps_ref c → browser_driven e = true →
  let st := step JSON_parse JSON_stringify REACT_APP_WS_URL e (c, u) in
  handlers_of st.1 = handlers_of c ∧ wsRef st.2 = wsRef u.
Proof.
  intros Hc He. destruct e; try done; cbn [step].
  - destruct (socketState k c) as [[]|]; try done.
    by apply (keeps_ref_onopen (set_readyState k OPEN c)).
  - destruct (socketState k c) as [[]|]; try done. by apply keeps_ref_onmessage.
  - destruct (socketState k c) as [s|]; try done. by apply keeps_ref_onerror.
  - destruct (socketState k c) as [[]|]; try done;
      by apply (keeps_ref_onclose ev (set_readyState k CLOSED c)).
  - assert (∀ s, let st := (let '(c1, a1) := onerror (set_readyState k s c) u in
                            onclose ev c1 a1) in
                 handlers_of st.1 = handlers_of c ∧ wsRef st.2 = wsRef u)
      as Hfail.
    { intros s. cbn zeta.
      destruct (keeps_ref_onerror (set_readyState k s c) u Hc) as [H1 H2].
      destruct (onerror (set_readyState k s c) u) as [c1 u1]. cbn in H1, H2.
      destruct (keeps_ref_onclose ev c1 u1) as [H3 H4].
      { by eapply keeps_ref_handlers. }
      split; [by rewrite H3|by rewrite H4]. }
    destruct (socketState k c) as [[]|]; try done; apply Hfail.
  - destruct (pending t c); [|done]. cbn. split; [|done].
    unfold reconnect_callback. case_match; [|done].
    apply (handlers_of_connect (emit _ (drop_timer t c))).
Qed.

Lemma keeps_ref_registered r id : keeps_ref (registered r id).
Proof.
  repeat split; repeat constructor.
  - intros m u. apply handleWebSocketMessage_wsRef.
  - intros u. unfold errorHandler. by case_bool_decide.
Qed.

Lemma Forall_keeps_ref_alter f r (h : list Instance) :
  (∀ c, handlers_of (f c) = handlers_of c) →
  Forall keeps_ref h → Forall keeps_ref (alter f r h).
Proof.
  intros Hf. rewrite !Forall_forall. intros Hh c [i Hi]%list_elem_of_lookup.
  rewrite list_lookup_alter in Hi. case_decide; [subst|].
  - destruct (h !! i) as [c0|] eqn:E; [|done]. injection Hi as <-.
    eapply keeps_ref_handlers; [apply Hf|].
    by eapply Hh, list_elem_of_lookup_2.
  - by eapply Hh, list_elem_of_lookup_2.
Qed.

Lemma bound_run_cleanup w :
  bound w → bound (run_cleanup w) ∧ wsRef (ui (run_cleanup w)) = None
                               ∧ cleanupFn (run_cleanup w) = None.
Proof.
  intros Hbw. pose proof Hbw as [Hb Hh]. unfold run_cleanup.
  destruct (cleanupFn w) as [[t id]|] eqn:E.
  - unfold cleanup. cbn. destruct (wsRef (ui w)) as [r|] eqn:Hw; cbn.
    + split; [|done]. split; [done|]. cbn.
      apply Forall_keeps_ref_alter; [apply handlers_of_disconnect|].
      rewrite Forall_forall. intros c [i Hi]%list_elem_of_lookup.
      rewrite list_lookup_alter in Hi. destruct (decide (r = i)) as [->|].
      * destruct (heap w !! i); [|done]. injection Hi as <-.
        repeat split; constructor.
      * rewrite Forall_forall in Hh. by eapply Hh, list_elem_of_lookup_2.
    + rewrite Hw. split; [|done]. by split.
  - split; [exact Hbw|]. split; [by apply Hb|done].
Qed.

Lemma bound_effect id w :
  Forall keeps_ref (heap w) → wsRef (ui w) = None → cleanupFn w = None →
  bound (effect id w).
Proof.
  intros Hh Hw Hc. unfold effect. destruct id as [|ch id]; [by split|].
  cbn. rewrite Hw. cbn. split; [done|].
  rewrite !alter_snoc by done.
  apply Forall_app. split; [done|]. constructor; [|constructor].
  apply (keeps_ref_registered (length (heap w)) (ch :: id)).
Qed.

(** Every step of the component keeps [bound]. *)
Lemma bound_world_step e w :
  bound w →
  bound (world_step JSON_parse JSON_stringify REACT_APP_WS_URL e w).
Proof.
  intros Hb. destruct e; cbn [world_step].
  - destruct (bound_run_cleanup w Hb) as ([_ Hh] & Hw & Hc).
    by apply bound_effect.
  - by destruct (bound_run_cleanup w Hb) as (? & _).
  - unfold connect_timer_fires. destruct (list_find _ _) as [[i [t' r']]|]; [|done].
    destruct Hb as [Hb Hh]. split; [done|]. cbn.
    by apply Forall_keeps_ref_alter; [apply handlers_of_connect|].
  - destruct (browser_driven e) eqn:He; [|done]. unfold deliver.
    destruct (heap w !! r) as [c|] eqn:Hc; [|done].
    destruct Hb as [Hb Hh].
    assert (keeps_ref c) as Hk.
    { rewrite Forall_forall in Hh. by eapply Hh, list_elem_of_lookup_2. }
    destruct (keeps_ref_step e c (ui w) Hk He) as [H1 H2].
    destruct (step JSON_parse JSON_stringify REACT_APP_WS_URL e (c, ui w))
      as [c1 u1]. cbn in H1, H2. split; cbn; [by rewrite H2|].
    rewrite list_insert_alter.
    rewrite Forall_forall. intros c' [i Hi]%list_elem_of_lookup.
    rewrite list_lookup_alter in Hi. case_decide; [subst|].
    + rewrite Hc in Hi. injection Hi as <-. by eapply keeps_ref_handlers.
    + rewrite Forall_forall in Hh. by eapply Hh, list_elem_of_lookup_2.
  - done.
  - done.
  - unfold handleSendMessage. repeat case_match; try done.
    destruct Hb as [Hb Hh]. split; [done|]. cbn.
    by apply Forall_keeps_ref_alter; [apply handlers_of_send|].
Qed.


End BoundFacts.

Section SwitchOrderFacts.
Variable JSON_parse : jsstring → option WebSocketMessage.
Variable JSON_stringify : Command → jsstring.
Variable REACT_APP_WS_URL : option jsstring.


End SwitchOrderFacts.

(** * The code on concrete inputs *)

(** C1 (the code misses it). With the server down, the first unexpected
    close schedules a reconnect after 1000; that attempt's socket closes
    too, and nothing more is scheduled, although only 1 of the 5 attempts
    is used up: [isReconnecting] is still set (only an open or
    [disconnect()] clears it), so [attemptReconnect] returns at once.
    Both sockets are closed and no timeout is pending, so no event the
    browser can still deliver changes anything: the instance stays closed
    after one attempt, not five. *)
Theorem reconnect_stalls_after_first_attempt :
  let st := runDemo serverDown session123 in
  scheduled st.1 = [1000]
  ∧ created st.1 = 2%nat
  ∧ readyState <$> sockets (env st.1) = [CLOSED; CLOSED]
  ∧ timers (env st.1) = []
  ∧ reconnectAttempts (this st.1) = 1
  ∧ isReconnecting (this st.1) = true
  ∧ isManuallyDisconnected (this st.1) = false
  ∧ ∀ e, browser_driven e = true →
         step parseTagOnly stringifyCommand None e st = st.
Proof.
  cbn zeta. remember (runDemo serverDown session123) as st eqn:Hst.
  vm_compute in Hst. subst st.
  do 7 (split; [reflexivity|]).
  intros e He. destruct e; try discriminate He.
  - destruct k as [|[|k]]; reflexivity.
  - destruct k as [|[|k]]; reflexivity.
  - destruct k as [|[|k]]; reflexivity.
  - destruct k as [|[|k]]; reflexivity.
  - destruct k as [|[|k]]; reflexivity.
  - reflexivity.
Qed.

(** C3 at work: after [disconnect()] the pending reconnect timeout fires,
    the late close event of the released socket arrives after an error,
    and the owner calls [send] and [disconnect()] again. *)
Lemma disconnect_is_final_witness :
  let es := [ TimerFires 0; TransportError 1; TransportClose 1 abnormal;
              CallSend hello; CallDisconnect ] in
  let c1 := disconnect reopenedDemo.1 in
  let c2 := (runDemo es (c1, reopenedDemo.2)).1 in
  isConnected reopenedDemo.1 = true
  ∧ timers (env reopenedDemo.1) = [(0%nat, 1000)]
  ∧ Forall (λ e, e ≠ CallConnect) es
  ∧ isConnected c1 = false
  ∧ isConnected c2 = false
  ∧ scheduled c2 = scheduled reopenedDemo.1
  ∧ created c2 = created reopenedDemo.1
  ∧ reconnect_callback None c2 = c2.
Proof.
  cbn zeta.
  match goal with |- _ ∧ _ ∧ Forall ?P ?es ∧ _ =>
    assert (Forall P es) as Hes by (repeat constructor; discriminate) end.
  split; [vm_compute; reflexivity|]. split; [vm_compute; reflexivity|].
  split; [exact Hes|].
  exact (disconnect_is_final parseTagOnly stringifyCommand None
           reopenedDemo.1 reopenedDemo.2 _ Hes).
Defined.

(** C4 at work: the stream of the specification. *)
Lemma stream_is_ordered_and_finalized_witness :
  let ts := [js "Hello"; js " world"] in
  let u := initialChatInterface in
  let final :=
    dispatch (Frame.stream_start :: (Frame.stream_token <$> ts)
              ++ [Frame.stream_end helloWorld]) u in
  messages final = [helloWorld]
  ∧ commits final = [ mkView [] (Some (js "Hello"));
                      mkView [] (Some (js "Hello world")) ]
  ∧ isStreaming final = false
  ∧ streamingContent final = [].
Proof.
  cbn zeta.
  pose proof (stream_is_ordered_and_finalized [js "Hello"; js " world"]
                helloWorld initialChatInterface) as H.
  cbn zeta in H. destruct H as (_ & _ & _ & Hm & Hs & Hb & Hc).
  split; [exact Hm|]. split; [rewrite Hc; reflexivity|]. split; [exact Hs|exact Hb].
Defined.

(** C2 at work. *)
Lemma idle_token_is_buffered_unseen_witness :
  let u := initialChatInterface in
  let u' := handleWebSocketMessage (Frame.stream_token (js "x")) u in
  isStreaming u = false
  ∧ messages u' = messages u
  ∧ isStreaming u' = false
  ∧ render u' = render u
  ∧ streamingContent u' = streamingContent u ++ js "x"
  ∧ streamingContent (handleWebSocketMessage Frame.stream_start u') = [].
Proof.
  cbn zeta. split; [reflexivity|].
  exact (idle_token_is_buffered_unseen (js "x") initialChatInterface eq_refl).
Defined.

(** C5 at work: [connect()] on an open socket, and twice from scratch. *)
Lemma connect_twice_one_socket_witness :
  getState openedDemo.1 = Some OPEN
  ∧ connect None openedDemo.1 = openedDemo.1
  ∧ created (connect None (connect None session123.1)) = 1%nat.
Proof.
  split; [reflexivity|]. split; [|reflexivity].
  destruct (connect_twice_one_socket None openedDemo.1) as [H _].
  apply H. left. reflexivity.
Defined.

(** C6 at work: open, a frame and a [send], then an abnormal close. *)
Lemma open_resets_backoff_witness :
  let c := connect None session123.1 in
  let es := [TransportMessage 0 (tagOnlyText "stream_start"); CallSend hello] in
  let opened := runDemo [TransportOpen 0] (c, session123.2) in
  let closed := runDemo [TransportClose 0 abnormal] (runDemo es opened) in
  socketState 0 c = Some CONNECTING
  ∧ isManuallyDisconnected (this c) = false
  ∧ forallb quiet es = true
  ∧ reconnectAttempts (this opened.1) = 0
  ∧ isReconnecting (this opened.1) = false
  ∧ scheduled closed.1 = [1000]
  ∧ timers (env closed.1) = [(0%nat, 1000)].
Proof.
  cbn zeta. do 3 (split; [reflexivity|]).
  pose proof (open_resets_backoff parseTagOnly stringifyCommand None 0
                [TransportMessage 0 (tagOnlyText "stream_start"); CallSend hello]
                abnormal (connect None session123.1) session123.2
                eq_refl eq_refl eq_refl) as H.
  cbn zeta in H. destruct H as (H1 & H2 & _ & H4 & H5 & _).
  split; [exact H1|]. split; [exact H2|]. split; [exact H4|exact H5].
Defined.

(** C7 at work: the malformed text of the specification. *)
Lemma malformed_frame_is_dropped_witness :
  let st := onmessage parseTagOnly (js "{not json") openedDemo.1 openedDemo.2 in
  parseTagOnly (js "{not json") = None
  ∧ st.2 = openedDemo.2
  ∧ invocations st.1 = invocations openedDemo.1
  ∧ isConnected st.1 = true.
Proof.
  cbn zeta. split; [reflexivity|].
  pose proof (malformed_frame_is_dropped parseTagOnly (js "{not json")
                openedDemo.1 openedDemo.2 eq_refl) as H.
  cbn zeta in H. destruct H as (H1 & _ & _ & _ & _ & H6 & H7).
  split; [exact H1|]. split; [exact H6|].
  unfold isConnected. rewrite H7. reflexivity.
Defined.

(** C8 at work: [send] before [connect()] and on the open socket. *)
Lemma send_only_when_open_witness :
  isConnected session123.1 = false
  ∧ transmitted (send stringifyCommand hello session123.1) = []
  ∧ trace (env (send stringifyCommand hello session123.1))
    = [EConsole ErrNotConnected]
  ∧ isConnected openedDemo.1 = true
  ∧ transmitted (send stringifyCommand hello openedDemo.1)
    = [(0%nat, stringifyCommand hello)].
Proof.
  split; [reflexivity|].
  destruct (send_only_when_open stringifyCommand hello session123.1)
    as (_ & _ & _ & Hclosed & _).
  destruct (Hclosed eq_refl) as [Ht Hx].
  split; [exact Hx|]. split; [exact Ht|]. split; reflexivity.
Defined.


(** C10 at work: a blank input, and an input with white space around it. *)
Lemma send_button_gate_witness :
  let typed s := on_ui (setInputMessage s) (connect_timer_fires None 0 worldA) in
  let opened := deliver parseTagOnly stringifyCommand None 0 (TransportOpen 0)
                  (typed (js "  Hello ")) in
  handleSendMessage stringifyCommand (typed (js "   ")) = typed (js "   ")
  ∧ wire (handleSendMessage stringifyCommand opened)
    = [[(0%nat, stringifyCommand hello)]].
Proof.
  cbn zeta. split; [|vm_compute; reflexivity].
  apply (send_button_gate stringifyCommand). right.
  vm_compute. repeat constructor.
Defined.

(** The repository's own tests of the class, replayed on the model. *)

(** 'should handle connection with correct URL' *)
Example test_connection_url :
  url <$> sockets (env (connect None session123.1))
  = [js "ws://localhost:8000/ws/chat/session123/"].
Proof. vm_compute. reflexivity. Qed.

(** 'should report connection state correctly' *)
Example test_connection_state :
  isConnected session123.1 = false
  ∧ isConnected (connect None session123.1) = false
  ∧ isConnected openedDemo.1 = true
  ∧ isConnected (disconnect openedDemo.1) = false.
Proof. vm_compute. repeat split. Qed.

(** 'should not send message when disconnected' *)
Example test_send_when_disconnected :
  trace (env (send stringifyCommand hello session123.1))
  = [EConsole ErrNotConnected].
Proof. vm_compute. reflexivity. Qed.

(** 'should send message when connected': the text handed to the socket. *)
Example test_send_when_connected :
  transmitted (send stringifyCommand hello openedDemo.1)
  = [(0%nat, js "{" ++ [34] ++ js "type" ++ [34] ++ js ":" ++ [34]
               ++ js "message" ++ [34] ++ js "," ++ [34] ++ js "content"
               ++ [34] ++ js ":" ++ [34] ++ js "Hello" ++ [34] ++ js ","
               ++ [34] ++ js "use_rag" ++ [34] ++ js ":false}")].
Proof. vm_compute. reflexivity. Qed.

(** 'should clear all handlers': open, message, error and close events
    after [clearHandlers()] call no handler. *)
Example test_clear_handlers :
  let c := onClose id (onOpen id (onError id (onMessage (λ _, id) session123.1))) in
  let st := runDemo [ CallClearHandlers; CallConnect; TransportOpen 0;
                      TransportMessage 0 (tagOnlyText "stream_start");
                      TransportError 0; TransportClose 0 abnormal ]
              (c, session123.2) in
  invocations st.1 = [].
Proof. vm_compute. reflexivity. Qed.

(** * More facts about [ChatWebSocket] *)

Section InstanceFacts.
Context {Msg Cmd App : Type}.
Variable JSON_parse : jsstring → option Msg.
Variable JSON_stringify : Cmd → jsstring.
Variable REACT_APP_WS_URL : option jsstring.

Implicit Types (c : @Conn Msg App) (a : App).

Lemma orderly_shape c c' : shape c' = shape c → orderly c → orderly c'.
Proof.
  unfold shape, orderly, created. intros [= Hw _ Hs]. by rewrite Hw, Hs.
Qed.

Lemma addressed_shape id c c' :
  shape c' = shape c → addressed REACT_APP_WS_URL id c →
  addressed REACT_APP_WS_URL id c'.
Proof.
  unfold shape, addressed. intros [= _ Hi Hs]. by rewrite Hi, Hs.
Qed.

Lemma shape_onopen c a : shape (onopen c a).1 = shape c.
Proof. done. Qed.

Lemma shape_onmessage data c a : shape (onmessage JSON_parse data c a).1 = shape c.
Proof. unfold onmessage. by case_match. Qed.

Lemma shape_onerror c a : shape (onerror c a).1 = shape c.
Proof. unfold onerror. by case_match. Qed.

Lemma shape_onclose ev c a : shape (onclose ev c a).1 = shape c.
Proof. unfold onclose, attemptReconnect. cbn. by repeat case_match. Qed.

Lemma shape_send m c : shape (send JSON_stringify m c) = shape c.
Proof. unfold send. by repeat case_match. Qed.

(** Changing the state of socket [k]. *)
Lemma orderly_set_readyState k r c :
  (live (mkWebSocket [] r) = true → ws (this c) = Some k) →
  orderly c → orderly (set_readyState k r c).
Proof.
  intros Hr [H1 H2]. split.
  - intros k' Hk'. unfold created. cbn. rewrite length_alter. by apply H1.
  - intros k' s. cbn. rewrite list_lookup_alter. case_decide as Hk; [subst k'|].
    + destruct (sockets (env c) !! k) as [s0|]; [|done]. cbn.
      intros [= <-]. unfold live. cbn. intros Hl. apply Hr. exact Hl.
    + apply H2.
Qed.

Lemma addressed_set_readyState id k r c :
  addressed REACT_APP_WS_URL id c →
  addressed REACT_APP_WS_URL id (set_readyState k r c).
Proof.
  intros [Hi Hs]. split; [done|]. cbn.
  rewrite Forall_forall in *. intros s [i Hi']%list_elem_of_lookup.
  rewrite list_lookup_alter in Hi'. case_decide; [subst|].
  - destruct (sockets (env c) !! i) as [s0|] eqn:E; [|done].
    injection Hi' as <-. cbn. by eapply Hs, list_elem_of_lookup_2.
  - by eapply Hs, list_elem_of_lookup_2.
Qed.

Lemma orderly_connect c : orderly c → orderly (connect REACT_APP_WS_URL c).
Proof.
  intros [H1 H2]. unfold connect.
  destruct (bool_decide (getState c = Some OPEN)) eqn:Ho; [done|].
  destruct (bool_decide (getState c = Some CONNECTING)) eqn:Hc; [done|].
  apply bool_decide_eq_false in Ho, Hc. cbn. split.
  - intros k [= <-]. unfold created. cbn. rewrite length_app. cbn. lia.
  - intros k s. cbn. intros Hk Hl.
    destruct (decide (k < length (sockets (env c)))%nat) as [Hlt|Hge].
    + rewrite lookup_app_l in Hk by done.
      pose proof (H2 k s Hk Hl) as Hw. exfalso.
      unfold getState in Ho, Hc. rewrite Hw in Ho, Hc. cbn in Ho, Hc.
      rewrite Hk in Ho, Hc. cbn in Ho, Hc. unfold live in Hl.
      destruct (readyState s); congruence.
    + assert (k = length (sockets (env c))) as ->; [|done].
      apply lookup_lt_Some in Hk. rewrite length_app in Hk. cbn in Hk. lia.
Qed.

Lemma addressed_connect id c :
  addressed REACT_APP_WS_URL id c →
  addressed REACT_APP_WS_URL id (connect REACT_APP_WS_URL c).
Proof.
  intros [Hi Hs]. unfold connect. case_match; [done|]. cbn.
  split; [done|]. apply Forall_app. split; [done|].
  constructor; [|done]. cbn. unfold wsUrlOf. by rewrite Hi.
Qed.

Lemma ws_close_live k c k' s :
  sockets (env (ws_close k c)) !! k' = Some s → live s = true →
  k' ≠ k ∧ sockets (env c) !! k' = Some s.
Proof.
  unfold ws_close. cbn. intros Hk' Hl.
  destruct (decide (k' = k)) as [->|Hne].
  - exfalso. destruct (sockets (env c) !! k) as [sk|] eqn:Ek; cbn in Hk'.
    + destruct (readyState sk) eqn:Er; cbn in Hk';
        rewrite ?list_lookup_alter_eq, Ek in Hk'; cbn in Hk';
        injection Hk' as <-; unfold live in Hl; cbn in Hl; by rewrite ?Er in Hl.
    + by rewrite Ek in Hk'.
  - split; [done|].
    destruct (readyState <$> sockets (env c) !! k) as [[]|]; cbn in Hk';
      by rewrite ?list_lookup_alter_ne in Hk'.
Qed.

Lemma orderly_disconnect c : orderly c → orderly (disconnect c).
Proof.
  intros [H1 H2]. unfold disconnect. cbn.
  destruct (ws (this c)) as [k|] eqn:Hw.
  - split; [done|]. cbn. intros k' s Hk' Hl. exfalso.
    apply ws_close_live in Hk' as [Hne Hk']; [|done].
    pose proof (H2 _ _ Hk' Hl). congruence.
  - split; cbn; [intros k; by rewrite Hw|].
    intros k s Hk Hl. rewrite Hw. by eapply H2.
Qed.

Lemma addressed_disconnect id c :
  addressed REACT_APP_WS_URL id c → addressed REACT_APP_WS_URL id (disconnect c).
Proof.
  intros Ha. unfold disconnect. cbn. destruct (ws (this c)) as [k|]; [|done].
  unfold ws_close. cbn.
  destruct (readyState <$> sockets (env c) !! k) as [[]|]; try done;
    by apply (addressed_set_readyState id k CLOSING) in Ha.
Qed.

Lemma sound_shape id c c' : shape c' = shape c → sound REACT_APP_WS_URL id c → sound REACT_APP_WS_URL id c'.
Proof.
  intros Hs [? ?]. split; [by eapply orderly_shape|by eapply addressed_shape].
Qed.

Lemma sound_step id e c a :
  sound REACT_APP_WS_URL id c →
  sound REACT_APP_WS_URL id (step JSON_parse JSON_stringify REACT_APP_WS_URL e (c, a)).1.
Proof.
  intros Hc. pose proof Hc as [[H1 H2] Ha].
  assert (∀ k r, (live (mkWebSocket [] r) = true → ws (this c) = Some k) →
                 sound REACT_APP_WS_URL id (set_readyState k r c)) as Hset.
  { intros k r Hr. split; [by apply orderly_set_readyState|].
    by apply addressed_set_readyState. }
  assert (∀ k r, socketState k c = Some r → live (mkWebSocket [] r) = true →
                 ws (this c) = Some k) as Hlive.
  { intros k r Hk Hl. unfold socketState in Hk.
    destruct (sockets (env c) !! k) as [s|] eqn:E; [|done].
    injection Hk as <-. by eapply H2. }
  destruct e; cbn [step].
  - destruct (socketState k c) as [[]|] eqn:Hk; try done.
    eapply sound_shape; [apply shape_onopen|].
    apply Hset. intros _. by eapply Hlive.
  - destruct (socketState k c) as [[]|]; try done.
    by eapply sound_shape; [apply shape_onmessage|].
  - destruct (socketState k c) as [r|]; try done.
    by eapply sound_shape; [apply shape_onerror|].
  - destruct (socketState k c) as [[]|]; try done;
      (eapply sound_shape; [apply shape_onclose|]; by apply Hset).
  - assert (sound REACT_APP_WS_URL id (let '(c1, a1) := onerror (set_readyState k CLOSED c) a in
                      onclose ev c1 a1).1) as Hfail.
    { pose proof (shape_onerror (set_readyState k CLOSED c) a) as He.
      destruct (onerror (set_readyState k CLOSED c) a) as [c1 a1]. cbn in He.
      eapply sound_shape; [apply shape_onclose|].
      eapply sound_shape; [exact He|]. by apply Hset. }
    destruct (socketState k c) as [[]|]; try done.
  - destruct (pending t c); [|done]. cbn.
    unfold reconnect_callback. case_match; [|done].
    split; [by apply orderly_connect|by apply addressed_connect].
  - split; [by apply orderly_connect|by apply addressed_connect].
  - split; [by apply orderly_disconnect|by apply addressed_disconnect].
  - by eapply sound_shape; [apply shape_send|].
  - done.
  - done.
  - done.
  - done.
  - done.
Qed.

Lemma sound_run id es c a :
  sound REACT_APP_WS_URL id c →
  sound REACT_APP_WS_URL id (run JSON_parse JSON_stringify REACT_APP_WS_URL es (c, a)).1.
Proof.
  revert c a. induction es as [|e es IH]; intros c a Hc; [done|].
  rewrite run_cons.
  destruct (step JSON_parse JSON_stringify REACT_APP_WS_URL e (c, a))
    as [c1 a1] eqn:E.
  apply IH. change c1 with (c1, a1).1. rewrite <-E. by apply sound_step.
Qed.

Lemma sound_newConn id : sound REACT_APP_WS_URL id (newConn id : @Conn Msg App).
Proof. by repeat split. Qed.

(** X1. Whatever the browser delivers to an instance and whichever of
    [connect()], [disconnect()], [send()], the four [on...] methods and
    [clearHandlers()] are called on it from its construction on, a socket
    of it that is connecting or open is the one [this.ws] names: two of
    its sockets are never connecting or open at the same time, and once
    [this.ws] is released none is. *)
Theorem one_live_socket id es a :
  let c := (run JSON_parse JSON_stringify REACT_APP_WS_URL es
              (newConn id, a)).1 in
  (∀ k s, sockets (env c) !! k = Some s → live s = true →
          ws (this c) = Some k)
  ∧ (∀ k1 s1 k2 s2,
       sockets (env c) !! k1 = Some s1 → sockets (env c) !! k2 = Some s2 →
       live s1 = true → live s2 = true → k1 = k2)
  ∧ (ws (this c) = None → Forall (λ s, live s = false) (sockets (env c))).
Proof.
  intros c.
  destruct (sound_run id es (newConn id) a (sound_newConn id)) as [[H1 H2] _].
  fold c in H1, H2. split; [exact H2|]. split.
  - intros k1 s1 k2 s2 Hk1 Hk2 Hl1 Hl2.
    pose proof (H2 _ _ Hk1 Hl1). pose proof (H2 _ _ Hk2 Hl2). congruence.
  - intros Hw. rewrite Forall_forall. intros s [k Hk]%list_elem_of_lookup.
    destruct (live s) eqn:Hl; [|done]. pose proof (H2 _ _ Hk Hl). congruence.
Qed.

(** X2. Every socket an instance ever constructs, reconnects included,
    goes to [{WS_BASE_URL}/chat/{sessionId}/] for the session id the
    instance was constructed with, whatever the browser delivers and
    whichever of its methods are called in between. *)
Theorem sockets_go_to_the_session id es a :
  let c := (run JSON_parse JSON_stringify REACT_APP_WS_URL es
              (newConn id, a)).1 in
  sessionId (this c) = id
  ∧ Forall (λ s, url s = WS_BASE_URL REACT_APP_WS_URL ++ js "/chat/" ++ id
                         ++ js "/")
      (sockets (env c)).
Proof.
  intros c.
  by destruct (sound_run id es (newConn id) a (sound_newConn id)) as [_ ?].
Qed.

End InstanceFacts.

Section LifecycleFacts.
Context {Msg Cmd App : Type}.
Variable JSON_parse : jsstring → option Msg.
Variable JSON_stringify : Cmd → jsstring.
Variable REACT_APP_WS_URL : option jsstring.

Implicit Types (c : @Conn Msg App) (a : App).

(** X3. [disconnect()] is idempotent: a second call right after the first
    changes nothing at all; in particular it does not close the released
    socket a second time. *)
Theorem disconnect_idempotent c : disconnect (disconnect c) = disconnect c.
Proof.
  destruct c as [[w mh eh oh ch n id r m] b].
  unfold disconnect. cbn. destruct w as [k|]; [|done].
  unfold ws_close. cbn. by destruct (readyState <$> sockets b !! k) as [[]|].
Qed.

(** [connect()] when no socket is held. *)
Lemma connect_released c :
  ws (this c) = None →
  connect REACT_APP_WS_URL c
  = with_this (set_ws (Some (created c)))
      (new_WebSocket (wsUrlOf REACT_APP_WS_URL (sessionId (this c)))
         (with_this (set_isManuallyDisconnected false) c)).2.
Proof.
  intros Hw. unfold connect, getState. rewrite Hw. cbn.
  by rewrite !bool_decide_eq_false_2.
Qed.

(** [disconnect()] while the current socket is connecting or open. *)
Lemma disconnect_closing k c :
  ws (this c) = Some k →
  socketState k c = Some OPEN ∨ socketState k c = Some CONNECTING →
  disconnect c
  = with_this (set_ws None)
      (set_readyState k CLOSING
         (emit (EClose k)
            (with_this (set_reconnectAttempts 0)
               (with_this (set_isReconnecting false)
                  (with_this (set_isManuallyDisconnected true) c))))).
Proof.
  intros Hw Hk. unfold disconnect. cbn. rewrite Hw. unfold ws_close. cbn.
  unfold socketState in Hk. by destruct Hk as [-> | ->].
Qed.

(** The bookkeeping is at rest and socket [k] is connecting or open. *)
Lemma at_rest_step k (sched : list N) e c a :
  quiet_or_open e = true →
  isManuallyDisconnected (this c) = false →
  isReconnecting (this c) = false →
  reconnectAttempts (this c) = 0 →
  scheduled c = sched →
  socketState k c = Some CONNECTING ∨ socketState k c = Some OPEN →
  let c' := (step JSON_parse JSON_stringify REACT_APP_WS_URL e (c, a)).1 in
  isManuallyDisconnected (this c') = false
  ∧ isReconnecting (this c') = false
  ∧ reconnectAttempts (this c') = 0
  ∧ scheduled c' = sched
  ∧ (socketState k c' = Some CONNECTING ∨ socketState k c' = Some OPEN).
Proof.
  intros He Hm Hr Hn Hs Hk c'. subst c'.
  destruct (quiet e) eqn:Hq.
  { pose proof (step_quiet JSON_parse JSON_stringify REACT_APP_WS_URL
                  e c a Hq) as Hb.
    remember (step JSON_parse JSON_stringify REACT_APP_WS_URL e (c, a)).1
      as c' eqn:Ec in *. clear Ec.
    unfold bookkeeping in Hb. injection Hb as H1 H2 H3 H4 _ _ H7.
    unfold socketState. rewrite H1, H2, H3, H4, H7. done. }
  destruct e; try done. cbn [step].
  destruct (socketState k0 c) as [[]|] eqn:Hk0; try done.
  unfold onopen, forEach, scheduled, socketState in *. cbn.
  rewrite !omap_app. cbn. rewrite omap_imap_none by done.
  rewrite !app_nil_r. do 4 (split; [done|]).
  rewrite list_lookup_alter. case_decide; [subst k0|done].
  right. by destruct (sockets (env c) !! k).
Qed.

(** X4. [disconnect()] followed by [connect()] starts over: a new socket
    is constructed and becomes the current one, connecting; the
    manual-disconnect flag, the reconnecting flag and the attempt counter
    are clear, whatever they were (also after the reconnects had
    stopped); the handlers are kept.  As long as only open events,
    received texts, error events, [send()] calls and changes of the
    registries follow, the next close of the new socket schedules a
    reconnect after [reconnectDelay].  But the late close event of the
    socket that [disconnect()] released, when it arrives after
    [connect()], finds the manual-disconnect flag cleared: it is taken
    for an unexpected close and schedules that reconnect itself. *)
Theorem disconnect_connect_starts_over es ev c a :
  forallb quiet_or_open es = true →
  let c1 := connect REACT_APP_WS_URL (disconnect c) in
  let k := created c in
  let st := run JSON_parse JSON_stringify REACT_APP_WS_URL es (c1, a) in
  created c1 = S k
  ∧ ws (this c1) = Some k
  ∧ socketState k c1 = Some CONNECTING
  ∧ isManuallyDisconnected (this c1) = false
  ∧ isReconnecting (this c1) = false
  ∧ reconnectAttempts (this c1) = 0
  ∧ messageHandlers (this c1) = messageHandlers (this c)
  ∧ errorHandlers (this c1) = errorHandlers (this c)
  ∧ openHandlers (this c1) = openHandlers (this c)
  ∧ closeHandlers (this c1) = closeHandlers (this c)
  ∧ scheduled c1 = scheduled c
  ∧ scheduled st.1 = scheduled c
  ∧ scheduled (step JSON_parse JSON_stringify REACT_APP_WS_URL
                 (TransportClose k ev) st).1
    = scheduled c ++ [reconnectDelay]
  ∧ (∀ k0, ws (this c) = Some k0 →
       socketState k0 c = Some OPEN ∨ socketState k0 c = Some CONNECTING →
       socketState k0 c1 = Some CLOSING
       ∧ scheduled (step JSON_parse JSON_stringify REACT_APP_WS_URL
                      (TransportClose k0 ev) (c1, a)).1
         = scheduled c ++ [reconnectDelay]).
Proof.
  intros Hes c1 k st.
  assert (created c1 = S k
          ∧ ws (this c1) = Some k
          ∧ socketState k c1 = Some CONNECTING
          ∧ isManuallyDisconnected (this c1) = false
          ∧ isReconnecting (this c1) = false
          ∧ reconnectAttempts (this c1) = 0
          ∧ messageHandlers (this c1) = messageHandlers (this c)
          ∧ errorHandlers (this c1) = errorHandlers (this c)
          ∧ openHandlers (this c1) = openHandlers (this c)
          ∧ closeHandlers (this c1) = closeHandlers (this c)
          ∧ scheduled c1 = scheduled c)
    as (H1 & H2 & H3 & H4 & H5 & H6 & H7 & H8 & H9 & H10 & H11).
  { subst c1 k.
    rewrite connect_released by (by destruct (disconnect_Released c)).
    destruct c as [[w mh eh oh ch n id r m] b].
    unfold disconnect, socketState, created, scheduled.
    cbn. destruct w as [k0|]; cbn.
    - unfold ws_close. cbn.
      destruct (readyState <$> sockets b !! k0) as [[]|]; cbn;
        rewrite ?length_app, ?length_alter, ?omap_app; cbn;
        rewrite ?list_lookup_middle by (by rewrite ?length_alter);
        rewrite ?app_nil_r; repeat split; try done; lia.
    - rewrite ?length_app, ?omap_app; cbn.
      rewrite ?list_lookup_middle by done.
      rewrite ?app_nil_r; repeat split; try done; lia. }
  do 10 (split; [done|]). split; [done|].
  assert (∀ c0 a0,
            isManuallyDisconnected (this c0) = false →
            isReconnecting (this c0) = false →
            reconnectAttempts (this c0) = 0 →
            ∀ k0 s, socketState k0 c0 = Some s → s ≠ CLOSED →
            scheduled (step JSON_parse JSON_stringify REACT_APP_WS_URL
                         (TransportClose k0 ev) (c0, a0)).1
            = scheduled c0 ++ [reconnectDelay]) as Hclose.
  { intros c0 a0 Hm Hr Hn k0 s Hk0 Hs. cbn [step]. rewrite Hk0.
    pose proof (onclose_schedules ev (set_readyState k0 CLOSED c0) a0) as Hc.
    change (this (set_readyState k0 CLOSED c0)) with (this c0) in Hc.
    change (scheduled (set_readyState k0 CLOSED c0)) with (scheduled c0) in Hc.
    rewrite Hm, Hr, Hn in Hc. specialize (Hc eq_refl eq_refl eq_refl).
    injection Hc as _ _ _ _ _ _ Hc. by destruct s. }
  assert (isManuallyDisconnected (this st.1) = false
          ∧ isReconnecting (this st.1) = false
          ∧ reconnectAttempts (this st.1) = 0
          ∧ scheduled st.1 = scheduled c
          ∧ (socketState k st.1 = Some CONNECTING
             ∨ socketState k st.1 = Some OPEN))
    as (R1 & R2 & R3 & R4 & R5).
  { subst st.
    assert (socketState k c1 = Some CONNECTING ∨ socketState k c1 = Some OPEN)
      as H3' by (by left).
    clear H1 H2 H3 H7 H8 H9 H10. clearbody c1. revert c1 a H4 H5 H6 H11 H3'.
    induction es as [|e es IH]; intros c1 a H4 H5 H6 H11 H3'; [done|].
    cbn in Hes. apply andb_true_iff in Hes as [He Hes]. rewrite run_cons.
    pose proof (at_rest_step k (scheduled c) e c1 a He H4 H5 H6 H11 H3')
      as (E1 & E2 & E3 & E4 & E5).
    destruct (step JSON_parse JSON_stringify REACT_APP_WS_URL e (c1, a))
      as [c2 a2]. cbn in E1, E2, E3, E4, E5. by apply IH. }
  split; [done|]. split.
  - destruct st as [c2 a2]. cbn in R1, R2, R3, R4, R5. rewrite <-R4.
    destruct R5 as [R5 | R5]; by eapply Hclose.
  - intros k0 Hw Hk0.
    assert (socketState k0 c1 = Some CLOSING) as Hcl.
    { subst c1. rewrite connect_released by (by destruct (disconnect_Released c)).
      rewrite (disconnect_closing k0 c Hw Hk0).
      unfold socketState in *. cbn.
      assert (k0 < length (sockets (env c)))%nat as Hlt.
      { apply lookup_lt_is_Some.
        destruct (sockets (env c) !! k0); [by eexists|by destruct Hk0]. }
      rewrite lookup_app_l by (by rewrite length_alter).
      rewrite list_lookup_alter_eq.
      by destruct Hk0 as [Hk0 | Hk0];
        destruct (sockets (env c) !! k0) as [s|]. }
    split; [done|]. rewrite <-H11. by eapply Hclose.
Qed.

(** Handlers registered one after the other end up in that order. *)
Lemma run_onMessage hs c a :
  let st := run JSON_parse JSON_stringify REACT_APP_WS_URL
              (CallOnMessage <$> hs) (c, a) in
  st = (mkConn (set_handlers (messageHandlers (this c) ++ hs)
                  (errorHandlers (this c)) (openHandlers (this c))
                  (closeHandlers (this c)) (this c)) (env c), a).
Proof.
  revert c. induction hs as [|h hs IH]; intros c.
  - cbn. rewrite app_nil_r. by destruct c as [[] ?].
  - rewrite fmap_cons, run_cons. cbn [step]. rewrite IH. cbn.
    by rewrite <-app_assoc.
Qed.

(** X5. Message handlers run in registration order, once per
    registration: after [onMessage(h1)], ..., [onMessage(hn)] on an
    instance that had the handlers [old], a decodable message is passed
    to [old], then [h1], ..., [hn], each applied to the state the one
    before it left; a handler registered twice runs twice. *)
Theorem handlers_run_in_registration_order hs data message c a :
  JSON_parse data = Some message →
  let st := run JSON_parse JSON_stringify REACT_APP_WS_URL
              (CallOnMessage <$> hs) (c, a) in
  let st' := onmessage JSON_parse data st.1 st.2 in
  messageHandlers (this st.1) = messageHandlers (this c) ++ hs
  ∧ st.2 = a
  ∧ st'.2 = foldl (λ a h, h message a) a (messageHandlers (this c) ++ hs)
  ∧ invocations st'.1
    = invocations c
      ++ ((λ i, (RMessage, i))
            <$> seq 0 (length (messageHandlers (this c) ++ hs))).
Proof.
  intros Hp st st'. subst st'. subst st. rewrite run_onMessage. cbn.
  do 2 (split; [done|]). unfold onmessage. rewrite Hp. cbn.
  split; [done|]. unfold invocations. cbn. rewrite omap_app. f_equal.
  generalize (messageHandlers (this c) ++ hs). intros l.
  assert (∀ n (g := λ i, (RMessage, (n + i)%nat)),
            omap (λ e, match e with EInvoke r i => Some (r, i) | _ => None end)
                 (imap (λ i (_ : Msg → App → App), EInvoke RMessage (n + i)) l)
            = (λ i, (RMessage, i)) <$> seq n (length l)) as Hgen.
  { induction l as [|h l IH]; intros n g; [done|]. cbn.
    rewrite Nat.add_0_r. f_equal.
    rewrite <-(IH (S n)). f_equal. apply imap_ext. intros i x _. cbn.
    f_equal. lia. }
  exact (Hgen 0%nat).
Qed.

(** With empty registries an event that is not a registration runs no
    handler. *)
Lemma no_handlers_step e c a :
  no_handlers c → registers e = false →
  let st := step JSON_parse JSON_stringify REACT_APP_WS_URL e (c, a) in
  no_handlers st.1 ∧ st.2 = a ∧ invocations st.1 = invocations c.
Proof.
  intros (Hm & He & Ho & Hc) Hr.
  assert (∀ k r, no_handlers (set_readyState k r c)) as Hset by done.
  assert (∀ c0, no_handlers c0 →
            ∀ a0, no_handlers (onopen c0 a0).1 ∧ (onopen c0 a0).2 = a0
                  ∧ invocations (onopen c0 a0).1 = invocations c0) as Hopen.
  { intros c0 (Hm0 & He0 & Ho0 & Hc0) a0.
    unfold onopen, forEach, invocations, no_handlers.
    cbn. rewrite Ho0. cbn. rewrite ?omap_app. cbn. by rewrite ?app_nil_r. }
  assert (∀ c0, no_handlers c0 →
            ∀ a0, no_handlers (onerror c0 a0).1 ∧ (onerror c0 a0).2 = a0
                  ∧ invocations (onerror c0 a0).1 = invocations c0) as Herr.
  { intros c0 (Hm0 & He0 & Ho0 & Hc0) a0.
    unfold onerror, forEach, invocations, no_handlers.
    case_match; [|done]. cbn. rewrite He0. cbn. rewrite ?omap_app. cbn.
    by rewrite ?app_nil_r. }
  assert (∀ ev c0, no_handlers c0 →
            ∀ a0, no_handlers (onclose ev c0 a0).1 ∧ (onclose ev c0 a0).2 = a0
                  ∧ invocations (onclose ev c0 a0).1 = invocations c0) as Hclose.
  { intros ev c0 (Hm0 & He0 & Ho0 & Hc0) a0.
    unfold onclose, forEach, attemptReconnect, invocations, no_handlers.
    cbn. rewrite Hc0. cbn.
    repeat case_match; cbn; rewrite ?omap_app; cbn; by rewrite ?app_nil_r. }
  destruct e; try done; cbn [step].
  - destruct (socketState k c) as [[]|]; try done.
    exact (Hopen _ (Hset k OPEN) a).
  - destruct (socketState k c) as [[]|]; try done.
    unfold onmessage, forEach, invocations. case_match; cbn.
    + rewrite Hm. cbn. by rewrite app_nil_r.
    + rewrite ?omap_app. cbn. by rewrite ?app_nil_r.
  - destruct (socketState k c) as [r|]; try done.
    apply Herr. by repeat split.
  - destruct (socketState k c) as [[]|]; try done;
      exact (Hclose ev _ (Hset k CLOSED) a).
  - assert (let st := (let '(c1, a1) := onerror (set_readyState k CLOSED c) a in
                       onclose ev c1 a1) in
            no_handlers st.1 ∧ st.2 = a ∧ invocations st.1 = invocations c)
      as Hfail.
    { destruct (Herr (set_readyState k CLOSED c) (Hset _ _) a) as (E1 & E2 & E3).
      destruct (onerror (set_readyState k CLOSED c) a) as [c1 a1].
      cbn in E1, E2, E3. subst a1.
      destruct (Hclose ev c1 E1 a) as (F1 & F2 & F3).
      split; [done|]. split; [done|]. by rewrite F3. }
    destruct (socketState k c) as [[]|]; try done.
  - destruct (pending t c); [|done]. cbn. unfold reconnect_callback.
    case_match; [|done]. unfold connect, invocations, no_handlers.
    change (getState (emit ?e (drop_timer t c))) with (getState c).
    case_match; cbn; rewrite ?omap_app; cbn; by rewrite ?app_nil_r.
  - cbn. unfold connect, invocations, no_handlers.
    case_match; cbn; rewrite ?omap_app; cbn; by rewrite ?app_nil_r.
  - cbn. unfold disconnect, invocations, no_handlers. cbn.
    destruct (ws (this c)) as [k|]; [|done]. unfold ws_close. cbn.
    destruct (readyState <$> sockets (env c) !! k) as [[]|]; cbn;
      rewrite ?omap_app; cbn; by rewrite ?app_nil_r.
  - cbn. unfold send, invocations, no_handlers.
    repeat case_match; cbn; rewrite ?omap_app; cbn; by rewrite ?app_nil_r.
Qed.

(** X6. After [clearHandlers()], until a handler is registered again, no
    event reaches the application: whatever the browser delivers (late
    open, message, error and close events, timeouts) and whichever of
    [connect()], [disconnect()], [send()] and [clearHandlers()] is
    called, no handler runs and the application state stays as it
    was. *)
Theorem clearHandlers_silences es c a :
  forallb (λ e, negb (registers e)) es = true →
  let st := run JSON_parse JSON_stringify REACT_APP_WS_URL es
              (clearHandlers c, a) in
  st.2 = a
  ∧ invocations st.1 = invocations c
  ∧ no_handlers st.1.
Proof.
  intros Hes.
  assert (∀ c0, no_handlers c0 →
            let st := run JSON_parse JSON_stringify REACT_APP_WS_URL es (c0, a) in
            st.2 = a ∧ invocations st.1 = invocations c0 ∧ no_handlers st.1)
    as Hgen.
  { induction es as [|e es IH]; intros c0 H0; [done|].
    cbn in Hes. apply andb_true_iff in Hes as [He Hes].
    apply negb_true_iff in He. rewrite run_cons.
    destruct (no_handlers_step e c0 a H0 He) as (E1 & E2 & E3).
    destruct (step JSON_parse JSON_stringify REACT_APP_WS_URL e (c0, a))
      as [c1 a1]. cbn in E1, E2, E3. subst a1.
    destruct (IH Hes c1 E1) as (F1 & F2 & F3).
    split; [done|]. split; [by rewrite F2|done]. }
  apply (Hgen (clearHandlers c)). done.
Qed.

(** X21. [disconnect()] alone does not detach the handlers.  The close
    event of the socket it has released still runs every close handler,
    in registration order (and schedules no reconnect), and an error
    event still runs every error handler, because the guard of
    [onerror] reads the state of [this.ws], which is null by then. *)
Theorem disconnect_keeps_the_handlers ev k c a :
  ws (this c) = Some k →
  socketState k c = Some OPEN ∨ socketState k c = Some CONNECTING →
  let c1 := disconnect c in
  let closed := step JSON_parse JSON_stringify REACT_APP_WS_URL
                  (TransportClose k ev) (c1, a) in
  let failed := step JSON_parse JSON_stringify REACT_APP_WS_URL
                  (TransportError k) (c1, a) in
  socketState k c1 = Some CLOSING
  ∧ closed.2 = foldl (λ a h, h a) a (closeHandlers (this c))
  ∧ socketState k closed.1 = Some CLOSED
  ∧ scheduled closed.1 = scheduled c
  ∧ created closed.1 = created c
  ∧ failed.2 = foldl (λ a h, h a) a (errorHandlers (this c)).
Proof.
  intros Hw Hk c1 closed failed.
  assert (socketState k c1 = Some CLOSING) as Hc1.
  { subst c1. rewrite (disconnect_closing k c Hw Hk).
    unfold socketState in *. cbn. rewrite list_lookup_alter_eq.
    by destruct Hk as [Hk | Hk];
      destruct (sockets (env c) !! k) as [s|]. }
  split; [done|].
  subst closed failed. cbn [step]. rewrite Hc1.
  subst c1. rewrite (disconnect_closing k c Hw Hk).
  unfold onclose, onerror, forEach, scheduled, created, socketState, getState.
  cbn. rewrite !omap_app. cbn. rewrite !omap_imap_none by done.
  rewrite !app_nil_r, !length_alter, !list_lookup_alter_eq.
  unfold socketState in Hk.
  destruct (sockets (env c) !! k) as [s|]; [|by destruct Hk].
  done.
Qed.
End LifecycleFacts.

(** * Facts about handler references *)

Section HandlerReferenceFacts.
Context {H : Type} `{EqDecision H}.

(** X7. Removing a handler drops every registration of that reference and
    nothing else: the others stay, in their order; removing a handler
    that is not registered changes nothing; registering a handler that
    was not registered and removing it again gives back the registry. *)
Theorem removeHandler_drops_exactly (handler : H) (handlers : list H) :
  (handler ∉ removeHandler handler handlers)
  ∧ (∀ h, h ≠ handler →
          filter (λ x, x = h) (removeHandler handler handlers)
          = filter (λ x, x = h) handlers)
  ∧ (removeHandler handler handlers `sublist_of` handlers)
  ∧ (handler ∉ handlers → removeHandler handler handlers = handlers)
  ∧ (handler ∉ handlers →
       removeHandler handler (pushHandler handler handlers) = handlers)
  ∧ removeHandler handler (pushHandler handler handlers)
    = removeHandler handler handlers.
Proof.
  unfold removeHandler, pushHandler.
  assert (handler ∉ handlers → filter (λ h, h ≠ handler) handlers = handlers)
    as Hid.
  { intros Hn. induction handlers as [|x l IH]; [done|].
    apply not_elem_of_cons in Hn as [Hx Hl].
    rewrite filter_cons_True by done. by rewrite IH. }
  assert (filter (λ h, h ≠ handler) (handlers ++ [handler])
          = filter (λ h, h ≠ handler) handlers) as Hpush.
  { rewrite filter_app. rewrite filter_cons_False by (intros Hx; by apply Hx).
    by rewrite filter_nil, app_nil_r. }
  split; [|split; [|split; [|split; [|split]]]].
  - rewrite list_elem_of_filter. by intros [Hx _].
  - intros h Hh. rewrite list_filter_filter. apply list_filter_iff.
    intros x. split; [by intros [? _]|]. intros ->. by split.
  - apply sublist_filter.
  - exact Hid.
  - intros Hn. by rewrite Hpush, Hid.
  - exact Hpush.
Qed.

End HandlerReferenceFacts.

(** * More facts about reconnecting *)

Section ReconnectFacts.
Context {Msg Cmd App : Type}.
Variable JSON_parse : jsstring → option Msg.
Variable JSON_stringify : Cmd → jsstring.
Variable REACT_APP_WS_URL : option jsstring.

Implicit Types (c : @Conn Msg App) (a : App).

Lemma same_backoff_refl c : same_backoff c c.
Proof. done. Qed.

Lemma same_backoff_trans c1 c2 c3 :
  same_backoff c1 c2 → same_backoff c2 c3 → same_backoff c1 c3.
Proof. intros (?&?&?) (?&?&?). repeat split; congruence. Qed.

(** With the reconnecting flag set, [onclose] schedules nothing. *)
Lemma same_backoff_onclose ev c a :
  isReconnecting (this c) = true → same_backoff c (onclose ev c a).1.
Proof.
  intros Hr. unfold onclose, attemptReconnect. cbn.
  destruct (isManuallyDisconnected (this c)); cbn; rewrite ?Hr; cbn;
    unfold same_backoff, scheduled; cbn;
    rewrite ?omap_app; cbn; rewrite ?omap_imap_none by done;
    by rewrite ?app_nil_r.
Qed.

Lemma same_backoff_onerror c a : same_backoff c (onerror c a).1.
Proof.
  unfold onerror. case_match; [|done].
  unfold same_backoff, scheduled; cbn.
  rewrite ?omap_app; cbn; rewrite ?omap_imap_none by done.
  by rewrite ?app_nil_r.
Qed.

Lemma stalled_step e c a :
  isReconnecting (this c) = true → resets_backoff e = false →
  same_backoff c (step JSON_parse JSON_stringify REACT_APP_WS_URL e (c, a)).1.
Proof.
  intros Hr He. destruct (quiet e) eqn:Hq.
  { apply bookkeeping_same_backoff. by apply step_quiet. }
  destruct e; try done; cbn [step].
  - destruct (socketState k c) as [[]|]; try done;
      by apply (same_backoff_onclose ev (set_readyState k CLOSED c)).
  - assert (same_backoff c
              (let '(c1, a1) := onerror (set_readyState k CLOSED c) a in
               onclose ev c1 a1).1) as Hfail.
    { pose proof (same_backoff_onerror (set_readyState k CLOSED c) a) as H1.
      destruct (onerror (set_readyState k CLOSED c) a) as [c1 a1]. cbn in H1.
      eapply same_backoff_trans; [exact H1|].
      apply same_backoff_onclose. destruct H1 as (_ & -> & _). done. }
    destruct (socketState k c) as [[]|]; try done.
  - destruct (pending t c); [|done]. cbn.
    apply (same_backoff_reconnect_callback REACT_APP_WS_URL (drop_timer t c)).
  - apply same_backoff_connect.
Qed.

(** X8. Once a reconnect has been scheduled, none is scheduled again
    until a socket opens or [disconnect()] is called: however many
    closes and failures follow, whichever timeouts fire and whatever else
    is called, the reconnecting flag stays set, the attempt counter and
    the scheduled delays stay as they are, and [attemptReconnect]
    returns at its guard. *)
Theorem reconnect_waits_for_open es c a :
  isReconnecting (this c) = true →
  forallb (λ e, negb (resets_backoff e)) es = true →
  let c' := (run JSON_parse JSON_stringify REACT_APP_WS_URL es (c, a)).1 in
  isReconnecting (this c') = true
  ∧ reconnectAttempts (this c') = reconnectAttempts (this c)
  ∧ scheduled c' = scheduled c
  ∧ attemptReconnect c' = c'.
Proof.
  intros Hr Hes c'.
  assert (same_backoff c c') as (H1 & H2 & H3).
  { subst c'. revert c a Hr. induction es as [|e es IH]; intros c a Hr; [done|].
    cbn in Hes. apply andb_true_iff in Hes as [He Hes].
    apply negb_true_iff in He. rewrite run_cons.
    pose proof (stalled_step e c a Hr He) as H1.
    destruct (step JSON_parse JSON_stringify REACT_APP_WS_URL e (c, a))
      as [c1 a1]. cbn in H1.
    eapply same_backoff_trans; [exact H1|]. apply IH; [done|].
    destruct H1 as (_ & -> & _). done. }
  rewrite Hr in H2. do 3 (split; [done|]).
  unfold attemptReconnect. rewrite H2. by rewrite orb_true_r.
Qed.

(** X9. The limit of five attempts is never reached and the delay never
    grows: whatever the browser delivers to an instance and whichever of
    [connect()], [disconnect()], [send()], the four [on...] methods and
    [clearHandlers()] are called on it from its construction on, its
    attempt counter never exceeds 1, so it stays below
    [maxReconnectAttempts], every reconnect
    it schedules is after [reconnectDelay], and [attemptReconnect]
    returns without scheduling exactly when one of the two flags is
    set. *)
Theorem reconnect_limit_is_never_reached id es a :
  let c := (run JSON_parse JSON_stringify REACT_APP_WS_URL es
              (newConn id, a)).1 in
  reconnectAttempts (this c) ≤ 1
  ∧ reconnectAttempts (this c) < maxReconnectAttempts
  ∧ Forall (λ d, d = reconnectDelay) (scheduled c)
  ∧ (attemptReconnect c = c
     ↔ isManuallyDisconnected (this c) = true ∨ isReconnecting (this c) = true).
Proof.
  intros c.
  destruct (backoff_never_grows JSON_parse JSON_stringify REACT_APP_WS_URL
              id es a) as [Hn Hs]. fold c in Hn, Hs.
  assert (reconnectAttempts (this c) < maxReconnectAttempts) as Hlt.
  { unfold maxReconnectAttempts. lia. }
  do 3 (split; [done|]). unfold attemptReconnect.
  apply N.leb_gt in Hlt. rewrite Hlt, orb_false_r.
  destruct (isManuallyDisconnected (this c)); cbn; [by split; [left|]|].
  destruct (isReconnecting (this c)) eqn:Hr; cbn; [by split; [right|]|].
  split; [|by intros [|]].
  intros Heq. apply (f_equal (λ c, isReconnecting (this c))) in Heq.
  cbn in Heq. congruence.
Qed.

Lemma quiet_step_ws e c a :
  quiet e = true →
  ws (this (step JSON_parse JSON_stringify REACT_APP_WS_URL e (c, a)).1)
  = ws (this c).
Proof.
  destruct e; try done; intros _; cbn [step].
  - destruct (socketState k c) as [[]|]; try done.
    by pose proof (shape_onmessage JSON_parse data c a) as [= -> _ _].
  - destruct (socketState k c) as [r|]; try done.
    by pose proof (shape_onerror c a) as [= -> _ _].
  - pose proof (shape_send JSON_stringify message c) as [= H _ _]. exact H.
Qed.

(** X10. Traffic leaves the connection alone: received texts (decodable
    or not), error events, [send()] calls and changes of the handler
    registries never change the socket handle, the state of any socket,
    the pending timeouts, the reconnect counter or the two flags, and
    never schedule a reconnect. *)
Theorem traffic_leaves_the_connection_alone es c a :
  forallb quiet es = true →
  let c' := (run JSON_parse JSON_stringify REACT_APP_WS_URL es (c, a)).1 in
  ws (this c') = ws (this c)
  ∧ sockets (env c') = sockets (env c)
  ∧ getState c' = getState c
  ∧ timers (env c') = timers (env c)
  ∧ reconnectAttempts (this c') = reconnectAttempts (this c)
  ∧ isReconnecting (this c') = isReconnecting (this c)
  ∧ isManuallyDisconnected (this c') = isManuallyDisconnected (this c)
  ∧ scheduled c' = scheduled c.
Proof.
  intros Hes c'.
  pose proof (run_quiet JSON_parse JSON_stringify REACT_APP_WS_URL
                es c a Hes) as Hb. fold c' in Hb.
  assert (ws (this c') = ws (this c)) as Hw.
  { subst c'. clear Hb. revert c a. induction es as [|e es IH]; intros c a; [done|].
    cbn in Hes. apply andb_true_iff in Hes as [He Hes]. rewrite run_cons.
    pose proof (quiet_step_ws e c a He) as H1.
    destruct (step JSON_parse JSON_stringify REACT_APP_WS_URL e (c, a))
      as [c1 a1]. cbn in H1. rewrite <-H1. by apply IH. }
  unfold bookkeeping in Hb. injection Hb as H1 H2 H3 H4 H5 _ H7.
  split; [done|]. split; [done|].
  split; [unfold getState; by rewrite Hw, H4|]. done.
Qed.

End ReconnectFacts.

(** * More facts about the dispatcher *)

Lemma dispatch_cons f fs u :
  dispatch (f :: fs) u = dispatch fs (handleWebSocketMessage f u).
Proof. done. Qed.

Lemma dispatch_snoc fs f u :
  dispatch (fs ++ [f]) u = handleWebSocketMessage f (dispatch fs u).
Proof. by rewrite dispatch_app. Qed.

(** X11. Without a [history] frame the transcript only grows: a frame
    sequence appends to it exactly the messages of its [message] and
    [stream_end] frames, in arrival order, and no other frame (tokens,
    stream starts and errors, error and unknown frames) touches it.  A
    [history] frame replaces whatever the transcript held before it. *)
Theorem transcript_of_frames fs ms gs u :
  forallb (λ f, negb (isHistory f)) gs = true →
  messages (dispatch gs u) = messages u ++ omap appendedBy gs
  ∧ messages (dispatch (fs ++ Frame.history ms :: gs) u)
    = ms ++ omap appendedBy gs.
Proof.
  intros Hgs.
  assert (∀ u0, messages (dispatch gs u0) = messages u0 ++ omap appendedBy gs)
    as Hgrow.
  { induction gs as [|g gs IH]; intros u0; [by rewrite app_nil_r|].
    cbn in Hgs. apply andb_true_iff in Hgs as [Hg Hgs].
    rewrite dispatch_cons, (IH Hgs).
    destruct g; try done; cbn; by rewrite <-?app_assoc. }
  split; [apply Hgrow|].
  by rewrite dispatch_app, dispatch_cons, Hgrow.
Qed.

(** Frames that neither start nor end a stream. *)
Lemma dispatch_within_stream gs u :
  forallb (λ f, negb (delimitsStream f)) gs = true →
  isStreaming (dispatch gs u) = isStreaming u
  ∧ streamingContent (dispatch gs u)
    = streamingContent u ++ concat (omap tokenOf gs).
Proof.
  revert u. induction gs as [|g gs IH]; intros u Hgs.
  { by rewrite app_nil_r. }
  cbn in Hgs. apply andb_true_iff in Hgs as [Hg Hgs].
  rewrite dispatch_cons. destruct (IH (handleWebSocketMessage g u) Hgs) as [-> ->].
  destruct g; try done; cbn. by rewrite <-app_assoc.
Qed.

(** X12. After a [stream_start], whatever came before it (an unfinished
    stream included), and as long as no [stream_start], [stream_end] or
    [stream_error] follows, the stream is active and the buffer is the
    concatenation of the tokens received since, in arrival order: frames
    of other kinds in between do not disturb it, and nothing buffered
    before the [stream_start] survives. *)
Theorem buffer_is_tokens_since_start fs gs u :
  forallb (λ f, negb (delimitsStream f)) gs = true →
  let u' := dispatch (fs ++ Frame.stream_start :: gs) u in
  isStreaming u' = true
  ∧ streamingContent u' = concat (omap tokenOf gs)
  ∧ bubble (render u') = Some (concat (omap tokenOf gs)).
Proof.
  intros Hgs u'. subst u'. rewrite dispatch_app, dispatch_cons.
  destruct (dispatch_within_stream gs
              (handleWebSocketMessage Frame.stream_start (dispatch fs u)) Hgs)
    as [H1 H2].
  unfold render. rewrite H1, H2. done.
Qed.

(** X13. A stream that ends in [stream_error]: the tokens are shown as
    they arrive, then the partial buffer is discarded, the stream ends
    and nothing is appended to the transcript for that turn; the error is
    logged. *)
Theorem stream_error_discards ts e u :
  let streaming :=
    dispatch (Frame.stream_start :: (Frame.stream_token <$> ts)) u in
  let final := handleWebSocketMessage (Frame.stream_error e) streaming in
  streamingContent streaming = concat ts
  ∧ messages final = messages u
  ∧ isStreaming final = false
  ∧ streamingContent final = []
  ∧ render final = mkView (messages u) None
  ∧ commits final
    = commits u ++ (mkView (messages u) ∘ Some <$> buffers [] ts)
  ∧ console final = console streaming ++ [StreamError e].
Proof.
  intros streaming final.
  pose proof (dispatch_tokens ts (handleWebSocketMessage Frame.stream_start u)
                eq_refl) as (_ & H2 & H3 & H4).
  assert (streamingContent streaming = concat ts) as E2 by exact H2.
  assert (messages streaming = messages u) as E3 by exact H3.
  assert (commits streaming
          = commits u ++ (mkView (messages u) ∘ Some <$> buffers [] ts))
    as E4 by exact H4.
  clearbody streaming. subst final. unfold render. cbn.
  by rewrite E2, E3, E4.
Qed.

Lemma visible_handle f u1 u2 :
  visible u1 = visible u2 →
  visible (handleWebSocketMessage f u1) = visible (handleWebSocketMessage f u2).
Proof.
  unfold visible. intros [= Hm Hi Hs Hb Hr Hc Hw Hk].
  destruct f; unfold handleWebSocketMessage, flushSync, render,
    setStreamingContent, console_line; cbn;
    by rewrite ?Hm, ?Hi, ?Hs, ?Hb, ?Hr, ?Hc, ?Hw, ?Hk.
Qed.

Lemma visible_dispatch fs u1 u2 :
  visible u1 = visible u2 → visible (dispatch fs u1) = visible (dispatch fs u2).
Proof.
  revert u1 u2. induction fs as [|f fs IH]; intros u1 u2 H; [done|].
  rewrite !dispatch_cons. by apply IH, visible_handle.
Qed.

(** X14. [session_info] and [error] frames and frames with a tag the
    dispatcher does not know are only logged or ignored: wherever they
    occur in a frame sequence, the transcript, the stream state, the
    buffer, the committed renders and the rest of the component's state
    end up as if those frames had not been received. *)
Theorem inert_frames_are_ignored fs u :
  visible (dispatch fs u)
  = visible (dispatch (filter (λ f, inert f = false) fs) u)
  ∧ render (dispatch fs u)
    = render (dispatch (filter (λ f, inert f = false) fs) u).
Proof.
  assert (visible (dispatch fs u)
          = visible (dispatch (filter (λ f, inert f = false) fs) u)) as Hv.
  { revert u. induction fs as [|f fs IH]; intros u; [done|].
    destruct (inert f) eqn:Hf.
    - rewrite filter_cons_False by (by rewrite Hf).
      rewrite dispatch_cons, <-IH. apply visible_dispatch.
      by destruct f.
    - rewrite filter_cons_True by done. rewrite !dispatch_cons. apply IH. }
  split; [exact Hv|]. unfold visible in Hv. unfold render.
  by injection Hv as -> _ -> -> _ _ _ _.
Qed.

(** * More facts about the component *)

Section TidyFacts.
Variable JSON_parse : jsstring → option WebSocketMessage.
Variable JSON_stringify : Command → jsstring.
Variable REACT_APP_WS_URL : option jsstring.

Lemma browser_driven_plain e :
  browser_driven e = true → e ≠ CallConnect ∧ registers e = false.
Proof. by destruct e. Qed.

Lemma settled_step e (c : Instance) u :
  settled REACT_APP_WS_URL c →
  settled REACT_APP_WS_URL
    (step JSON_parse JSON_stringify REACT_APP_WS_URL e (c, u)).1.
Proof.
  unfold settled. intros Hc.
  pose proof (sound_step JSON_parse JSON_stringify REACT_APP_WS_URL
                _ e c u Hc) as Hs.
  pose proof Hs as [_ [Hid _]]. by rewrite Hid.
Qed.

Lemma settled_registered r id : settled REACT_APP_WS_URL (registered r id).
Proof. repeat split; done. Qed.

(** A browser event of an instance that was cleaned up. *)
Lemma stale_step e (c : Instance) u :
  browser_driven e = true → Released c → no_handlers c →
  let st := step JSON_parse JSON_stringify REACT_APP_WS_URL e (c, u) in
  Released st.1 ∧ no_handlers st.1 ∧ st.2 = u
  ∧ created st.1 = created c ∧ scheduled st.1 = scheduled c.
Proof.
  intros [He Hr]%browser_driven_plain HR Hn st.
  pose proof (step_calm JSON_parse JSON_stringify REACT_APP_WS_URL
                e c u He HR) as Hcalm.
  destruct (no_handlers_step JSON_parse JSON_stringify REACT_APP_WS_URL
              e c u Hn Hr) as (H1 & H2 & _).
  fold st in Hcalm, H1, H2.
  split; [by eapply calm_Released|]. do 2 (split; [done|]).
  by destruct Hcalm as (_ & _ & ? & ?).
Qed.

(** After the cleanup no instance is bound, no connect timeout is
    pending and every instance is cleaned up. *)
Lemma run_cleanup_clean w :
  bound w → tidy REACT_APP_WS_URL w →
  let w' := run_cleanup w in
  wsRef (ui w') = None ∧ cleanupFn w' = None ∧ connectTimers w' = []
  ∧ (∀ r c, heap w' !! r = Some c → Released c ∧ no_handlers c)
  ∧ Forall (settled REACT_APP_WS_URL) (heap w').
Proof.
  intros [Hb _] (Hstale & Htimers & Hset) w'. subst w'. unfold run_cleanup.
  destruct (cleanupFn w) as [[t id]|] eqn:Hc.
  - destruct (wsRef (ui w)) as [r0|] eqn:Hw; [|by destruct Hb as [Hb _]; specialize (Hb eq_refl)].
    unfold cleanup. cbn. rewrite Hw. cbn.
    split; [done|]. split; [done|]. split; [|split].
    + apply elem_of_nil_inv. intros [t' r'].
      rewrite list_elem_of_filter. cbn. intros [Hne Hin].
      destruct (Htimers _ _ Hin) as (_ & id' & [= -> _]). done.
    + intros r c. rewrite (list_alter_alter_eq disconnect clearHandlers).
      rewrite list_lookup_alter. case_decide as Hr; [subst r|].
      * destruct (heap w !! r0) as [c0|]; [|done]. cbn. intros [= <-].
        split; [apply disconnect_Released|].
        pose proof (handlers_of_disconnect (clearHandlers c0)) as Hh.
        unfold handlers_of in Hh. unfold no_handlers.
        by injection Hh as -> -> -> ->.
      * intros Hr'. apply (Hstale r); [done|]. congruence.
    + apply Forall_alter; [apply Forall_alter; [done|]|].
      * intros c _ Hs.
        exact (settled_step CallClearHandlers c (ui w) Hs).
      * intros c _ Hs.
        exact (settled_step CallDisconnect c (ui w) Hs).
  - destruct Hb as [_ Hb]. specialize (Hb eq_refl).
    split; [done|]. split; [done|]. split; [|split; [|done]].
    + apply elem_of_nil_inv. intros [t' r'] Hin.
      destruct (Htimers _ _ Hin) as (Hr & _). congruence.
    + intros r c Hr. apply (Hstale r); [done|]. congruence.
Qed.

(** The effect on a component that has been cleaned up. *)
Lemma effect_clean ch id w :
  wsRef (ui w) = None →
  let r := length (heap w) in
  let w' := effect (ch :: id) w in
  heap w' = heap w ++ [registered r (ch :: id)]
  ∧ wsRef (ui w') = Some r
  ∧ connectTimers w' = connectTimers w ++ [(nextConnectTimer w, r)]
  ∧ cleanupFn w' = Some (nextConnectTimer w, ch :: id)
  ∧ connected (ui w') = connected (ui w)
  ∧ inputMessage (ui w') = inputMessage (ui w)
  ∧ useRAG (ui w') = useRAG (ui w)
  ∧ messages (ui w') = []
  ∧ isStreaming (ui w') = false
  ∧ streamingContent (ui w') = [].
Proof.
  intros Hw r w'. subst w'. unfold effect. cbn. rewrite Hw. cbn.
  rewrite !alter_snoc by done. done.
Qed.

Lemma tidy_effect id w :
  wsRef (ui w) = None → cleanupFn w = None → connectTimers w = [] →
  (∀ r c, heap w !! r = Some c → Released c ∧ no_handlers c) →
  Forall (settled REACT_APP_WS_URL) (heap w) →
  tidy REACT_APP_WS_URL (effect id w).
Proof.
  intros Hw Hc Ht Hall Hset. destruct id as [|ch id].
  { cbn. split; [|split; [|done]].
    - intros r c Hr _. by apply (Hall r).
    - cbn. rewrite Ht. by intros t r ?%elem_of_nil. }
  destruct (effect_clean ch id w Hw) as (Hh & Hr & Htm & Hcl & _).
  split; [|split].
  - intros r c. rewrite Hh, Hr. intros [[Hlt Hc']|[-> _]]%lookup_snoc_Some; [|done].
    intros _. by apply (Hall r).
  - intros t r. rewrite Htm, Ht, Hr, Hcl. cbn.
    intros [= -> ->]%list_elem_of_singleton. split; [done|by eexists].
  - rewrite Hh. apply Forall_app. split; [done|].
    constructor; [apply settled_registered|constructor].
Qed.

Lemma tidy_world_step e w :
  bound w → tidy REACT_APP_WS_URL w →
  tidy REACT_APP_WS_URL
    (world_step JSON_parse JSON_stringify REACT_APP_WS_URL e w).
Proof.
  intros Hb Ht. pose proof Ht as (Hstale & Htimers & Hset).
  destruct e as [sid| |t|r e|s|b|]; cbn [world_step].
  - destruct (run_cleanup_clean w Hb Ht) as (H1 & H2 & H3 & H4 & H5).
    by apply tidy_effect.
  - destruct (run_cleanup_clean w Hb Ht) as (H1 & H2 & H3 & H4 & H5).
    unfold unmount. split; [|split; [|done]].
    + intros r c Hr _. by eapply H4.
    + rewrite H3. by intros t r ?%elem_of_nil.
  - unfold connect_timer_fires.
    destruct (list_find _ _) as [[i [t' r']]|] eqn:Hf; [|done].
    apply list_find_Some in Hf as (Hi & _ & _).
    apply list_elem_of_lookup_2 in Hi.
    destruct (Htimers _ _ Hi) as (Hw & _).
    split; [|split]; cbn.
    + intros r c. rewrite list_lookup_alter. case_decide; [subst; by rewrite Hw|].
      apply (Hstale r).
    + intros t0 r0 [_ Hin]%list_elem_of_filter. by apply Htimers.
    + apply Forall_alter; [done|]. intros c _ Hs.
      exact (settled_step CallConnect c (ui w) Hs).
  - destruct (browser_driven e) eqn:He; [|done]. unfold deliver.
    destruct (heap w !! r) as [c|] eqn:Hc; [|done].
    destruct Hb as [_ Hk].
    assert (keeps_ref c) as Hkc.
    { rewrite Forall_forall in Hk. by eapply Hk, list_elem_of_lookup_2. }
    destruct (keeps_ref_step JSON_parse JSON_stringify REACT_APP_WS_URL
                e c (ui w) Hkc He) as [_ Hw].
    pose proof (stale_step e c (ui w) He) as Hst.
    pose proof (settled_step e c (ui w)) as Hse.
    destruct (step JSON_parse JSON_stringify REACT_APP_WS_URL e (c, ui w))
      as [c1 u1]. cbn in Hw, Hst, Hse.
    split; [|split]; cbn.
    + intros r' c'. rewrite Hw, list_insert_alter, list_lookup_alter.
      case_decide; [subst r'|apply (Hstale r')].
      rewrite Hc. cbn. intros [= <-] Hr.
      destruct (Hstale r c Hc Hr) as [HR Hn].
      by destruct (Hst HR Hn) as (? & ? & _).
    + rewrite Hw. apply Htimers.
    + apply Forall_insert; [done|]. apply Hse.
      rewrite Forall_forall in Hset. by eapply Hset, list_elem_of_lookup_2.
  - done.
  - done.
  - unfold handleSendMessage.
    destruct (bool_decide _ || _ || _); [done|].
    destruct (wsRef (ui w)) as [r0|] eqn:Hw; [|done].
    split; [|split]; cbn; rewrite ?Hw.
    + intros r c. rewrite list_lookup_alter. case_decide; [subst; congruence|].
      apply (Hstale r).
    + done.
    + apply Forall_alter; [done|]. intros c _ Hs.
      exact (settled_step (CallSend _) c (ui w) Hs).
Qed.

Lemma isConnected_shape (c c' : Instance) :
  shape c' = shape c → isConnected c' = isConnected c.
Proof. unfold shape, isConnected, getState. by intros [= -> _ ->]. Qed.

Lemma handleWebSocketMessage_connected m u :
  connected (handleWebSocketMessage m u) = connected u.
Proof. by destruct m. Qed.

Lemma errorHandler_connected r u : connected (errorHandler r u) = connected u.
Proof. unfold errorHandler. by case_match. Qed.

Lemma no_closing_lookup k (c : Instance) :
  Forall (λ s, readyState s ≠ CLOSING) (sockets (env c)) →
  socketState k c ≠ Some CLOSING.
Proof.
  intros H. unfold socketState.
  destruct (sockets (env c) !! k) as [s|] eqn:Hs; [|done]. cbn.
  rewrite Forall_forall in H. intros [= Hc].
  by eapply H; [eapply list_elem_of_lookup_2|].
Qed.

Lemma no_closing_set k s (c : Instance) :
  s ≠ CLOSING →
  Forall (λ s, readyState s ≠ CLOSING) (sockets (env c)) →
  Forall (λ s, readyState s ≠ CLOSING) (sockets (env (set_readyState k s c))).
Proof. intros Hs H. cbn. by apply Forall_alter. Qed.

Lemma no_closing_shape (c c' : Instance) :
  shape c' = shape c →
  Forall (λ s, readyState s ≠ CLOSING) (sockets (env c)) →
  Forall (λ s, readyState s ≠ CLOSING) (sockets (env c')).
Proof. unfold shape. by intros [= _ _ ->]. Qed.

(** A socket that has just closed and is the current one. *)
Lemma closed_not_connected k (c c' : Instance) :
  ws (this c) = Some k → (k < created c)%nat →
  shape c' = shape (set_readyState k CLOSED c) →
  isConnected c' = false.
Proof.
  intros Hw Hk Hs. rewrite (isConnected_shape _ _ Hs).
  unfold isConnected, getState. cbn. rewrite Hw. cbn.
  rewrite list_lookup_alter_eq.
  apply lookup_lt_is_Some_2 in Hk as [s ->]. done.
Qed.

Lemma connect_connected (c : Instance) :
  isConnected (connect REACT_APP_WS_URL c) = isConnected c.
Proof.
  unfold connect, isConnected.
  destruct (bool_decide (getState c = Some OPEN)) eqn:Ho; [done|].
  destruct (bool_decide (getState c = Some CONNECTING)) eqn:Hc; [done|].
  cbn. unfold getState. cbn. by rewrite list_lookup_middle.
Qed.

Lemma connect_no_closing (c : Instance) :
  Forall (λ s, readyState s ≠ CLOSING) (sockets (env c)) →
  Forall (λ s, readyState s ≠ CLOSING)
    (sockets (env (connect REACT_APP_WS_URL c))).
Proof.
  intros H. unfold connect. case_match; [done|]. cbn.
  apply Forall_app. split; [done|]. by repeat constructor.
Qed.

(** A browser event of the instance the component is wired to. *)
Lemma wired_step r e (c : Instance) u :
  browser_driven e = true → settled REACT_APP_WS_URL c → wired r c u →
  let st := step JSON_parse JSON_stringify REACT_APP_WS_URL e (c, u) in
  wired r st.1 st.2.
Proof.
  intros He Hs (Hh & Hcl & Hcon) st.
  assert (keeps_ref c) as Hk.
  { eapply keeps_ref_handlers; [exact Hh|apply keeps_ref_registered]. }
  destruct (keeps_ref_step JSON_parse JSON_stringify REACT_APP_WS_URL
              e c u Hk He) as [Hh' _].
  pose proof (sound_step JSON_parse JSON_stringify REACT_APP_WS_URL
                _ e c u Hs) as [_ [Hid _]].
  fold st in Hh', Hid.
  split; [by rewrite Hh', Hid|].
  destruct Hs as [[Ho1 Ho2] _].
  assert (∀ k s, socketState k c = Some s → s = CONNECTING ∨ s = OPEN →
                 ws (this c) = Some k ∧ (k < created c)%nat) as Hlive.
  { intros k s Hk' Hl. unfold socketState in Hk'.
    destruct (sockets (env c) !! k) as [s0|] eqn:E; [|done].
    injection Hk' as <-.
    assert (ws (this c) = Some k) as Hw.
    { eapply Ho2; [exact E|]. unfold live. by destruct Hl as [-> | ->]. }
    split; [done|]. by apply Ho1. }
  unfold handlers_of in Hh. cbn in Hh. injection Hh as Hm Her Hop Hclo.
  subst st. destruct e; try done; cbn [step].
  - destruct (socketState k c) as [[]|] eqn:Hk'; try (by split).
    unfold onopen, forEach. cbn. rewrite Hop. cbn.
    split; [by apply Forall_alter|done].
  - destruct (socketState k c) as [[]|] eqn:Hk'; try (by split).
    unfold onmessage, forEach. destruct (JSON_parse data) as [m|]; [|by split].
    cbn. rewrite Hm. cbn. split; [done|].
    by rewrite handleWebSocketMessage_connected.
  - destruct (socketState k c) as [s|] eqn:Hk'; try (by split).
    unfold onerror, forEach. case_match; [|by split].
    cbn. rewrite Her. cbn. split; [done|].
    by rewrite errorHandler_connected.
  - pose proof (no_closing_lookup k c Hcl) as Hnc.
    destruct (socketState k c) as [s|] eqn:Hk'; [|by split].
    destruct s; try done; try (by split).
    all: destruct (Hlive k _ Hk') as [Hw Hlt]; [by auto|].
    all: pose proof (shape_onclose ev (set_readyState k CLOSED c) u) as Hsh.
    all: split; [eapply no_closing_shape; [exact Hsh|by apply no_closing_set]|].
    all: by rewrite (closed_not_connected k c _ Hw Hlt Hsh).
  - pose proof (no_closing_lookup k c Hcl) as Hnc.
    assert (ws (this c) = Some k → (k < created c)%nat →
            let st := (let '(c1, a1) := onerror (set_readyState k CLOSED c) u in
                       onclose ev c1 a1) in
            Forall (λ s, readyState s ≠ CLOSING) (sockets (env st.1))
            ∧ (isConnected st.1 = true → connected st.2 = true)) as Hfail.
    { intros Hw Hlt.
      pose proof (shape_onerror (set_readyState k CLOSED c) u) as He1.
      destruct (onerror (set_readyState k CLOSED c) u) as [c1 u1]. cbn in He1.
      pose proof (shape_onclose ev c1 u1) as He2. cbn zeta.
      assert (shape (onclose ev c1 u1).1 = shape (set_readyState k CLOSED c))
        as Hsh by congruence.
      split; [eapply no_closing_shape; [exact Hsh|by apply no_closing_set]|].
      by rewrite (closed_not_connected k c _ Hw Hlt Hsh). }
    destruct (socketState k c) as [s|] eqn:Hk'; [|by split].
    destruct s; try done; try (by split).
    all: destruct (Hlive k _ Hk') as [Hw Hlt]; [by auto|]; by apply Hfail.
  - destruct (pending t c); [|by split]. cbn.
    unfold reconnect_callback. case_match; [|by split].
    split; [by apply connect_no_closing|].
    by rewrite connect_connected.
Qed.

Lemma wired_shape r (c c' : Instance) u u' :
  handlers_of c' = handlers_of c → shape c' = shape c →
  connected u' = connected u → wired r c u → wired r c' u'.
Proof.
  intros Hh Hs Hc (H1 & H2 & H3).
  pose proof (isConnected_shape _ _ Hs) as Hi.
  unfold shape in Hs. injection Hs as _ Hid Hso.
  unfold wired. by rewrite Hh, Hid, Hso, Hi, Hc.
Qed.

Lemma wired_connect r (c : Instance) u :
  wired r c u → wired r (connect REACT_APP_WS_URL c) u.
Proof.
  intros (H1 & H2 & H3). split; [|split].
  - rewrite handlers_of_connect, H1. unfold connect. by case_match.
  - by apply connect_no_closing.
  - by rewrite connect_connected.
Qed.

Lemma in_step_world_step e w :
  bound w → tidy REACT_APP_WS_URL w → in_step w →
  in_step (world_step JSON_parse JSON_stringify REACT_APP_WS_URL e w).
Proof.
  intros Hb Ht Hi. pose proof Ht as (Hstale & Htimers & Hset).
  destruct e as [sid| |t|r e|s|b|]; cbn [world_step].
  - destruct (run_cleanup_clean w Hb Ht)
      as (H1 & H2 & H3 & H4 & H5).
    unfold session_change. destruct sid as [|ch id].
    { intros r c Hr. cbn in Hr. congruence. }
    destruct (effect_clean ch id (run_cleanup w) H1)
      as (Hh & Hr & _ & _ & Hc & _).
    intros r c. rewrite Hh, Hr. intros [= <-].
    rewrite list_lookup_middle by done. intros [= <-].
    repeat split; [constructor|done].
  - destruct (run_cleanup_clean w Hb Ht) as (H1 & _).
    intros r c Hr. unfold unmount in Hr. congruence.
  - unfold connect_timer_fires.
    destruct (list_find _ _) as [[i [t' r']]|] eqn:Hf; [|done].
    intros r c. cbn. intros Hr. rewrite list_lookup_alter.
    case_decide; [subst r'|by apply Hi].
    destruct (heap w !! r) as [c0|] eqn:Hc0; [|done]. cbn. intros [= <-].
    apply wired_connect. by apply Hi.
  - destruct (browser_driven e) eqn:He; [|done]. unfold deliver.
    destruct (heap w !! r) as [c|] eqn:Hc; [|done].
    assert (settled REACT_APP_WS_URL c) as Hsc.
    { rewrite Forall_forall in Hset. by eapply Hset, list_elem_of_lookup_2. }
    destruct Hb as [_ Hk].
    assert (keeps_ref c) as Hkc.
    { rewrite Forall_forall in Hk. by eapply Hk, list_elem_of_lookup_2. }
    destruct (keeps_ref_step JSON_parse JSON_stringify REACT_APP_WS_URL
                e c (ui w) Hkc He) as [_ Hw].
    pose proof (stale_step e c (ui w) He) as Hst.
    pose proof (wired_step r e c (ui w) He Hsc) as Hws.
    destruct (step JSON_parse JSON_stringify REACT_APP_WS_URL e (c, ui w))
      as [c1 u1]. cbn in Hw, Hst, Hws.
    intros r' c'. cbn. rewrite Hw, list_insert_alter, list_lookup_alter.
    intros Hr'. case_decide; [subst r'|].
    + rewrite Hc. cbn. intros [= <-]. apply Hws. by apply Hi.
    + intros Hc'.
      destruct (Hstale r c Hc) as [HR Hn]; [congruence|].
      destruct (Hst HR Hn) as (_ & _ & -> & _). by apply Hi.
  - intros r c Hr Hc. cbn in Hr, Hc.
    eapply wired_shape; [done..|by apply Hi].
  - intros r c Hr Hc. cbn in Hr, Hc.
    eapply wired_shape; [done..|by apply Hi].
  - unfold handleSendMessage.
    destruct (bool_decide _ || _ || _); [done|].
    destruct (wsRef (ui w)) as [r0|] eqn:Hw; [|done].
    intros r c. cbn. rewrite Hw. intros [= <-]. rewrite list_lookup_alter_eq.
    destruct (heap w !! r0) as [c0|] eqn:Hc0; [|done]. cbn. intros [= <-].
    eapply wired_shape; [apply handlers_of_send|apply shape_send|..|by apply Hi].
    done.
Qed.

Lemma good_world_step e w :
  good REACT_APP_WS_URL w →
  good REACT_APP_WS_URL
    (world_step JSON_parse JSON_stringify REACT_APP_WS_URL e w).
Proof.
  intros (Hb & Ht & Hi). split; [|split].
  - by apply bound_world_step.
  - by apply tidy_world_step.
  - by apply in_step_world_step.
Qed.

Lemma good_initialWorld : good REACT_APP_WS_URL initialWorld.
Proof.
  split; [|split].
  - by split; [|constructor].
  - split; [|split]; [by intros r c ?|by intros t r ?%elem_of_nil|constructor].
  - by intros r c ?.
Qed.

Lemma good_world_run es w :
  good REACT_APP_WS_URL w →
  good REACT_APP_WS_URL
    (world_run JSON_parse JSON_stringify REACT_APP_WS_URL es w).
Proof.
  revert w. induction es as [|e es IH]; intros w Hw; [done|].
  cbn. apply IH. by apply good_world_step.
Qed.


Lemma released_not_live (c : Instance) :
  settled REACT_APP_WS_URL c → ws (this c) = None →
  Forall (λ s, live s = false) (sockets (env c)).
Proof.
  intros [[_ Ho] _] Hw. rewrite Forall_forall.
  intros s [k Hk]%list_elem_of_lookup.
  destruct (live s) eqn:Hl; [|done]. pose proof (Ho _ _ Hk Hl). congruence.
Qed.

Lemma reachable_good es :
  good REACT_APP_WS_URL
    (world_run JSON_parse JSON_stringify REACT_APP_WS_URL es initialWorld).
Proof. apply good_world_run, good_initialWorld. Qed.

(** X15. The component keeps one connection at a time.  In every world
    it can reach, an instance other than the one in [wsRef] has been
    disconnected and stripped of its handlers, none of its sockets is
    connecting or open, and no connect timeout is pending for it; so two
    sockets that are connecting or open, anywhere in the component, are
    the same socket of the instance in [wsRef]. *)
Theorem one_connection_at_a_time es :
  let w := world_run JSON_parse JSON_stringify REACT_APP_WS_URL es
             initialWorld in
  (∀ r c, heap w !! r = Some c → wsRef (ui w) ≠ Some r →
     isManuallyDisconnected (this c) = true
     ∧ ws (this c) = None
     ∧ no_handlers c
     ∧ Forall (λ s, live s = false) (sockets (env c))
     ∧ ∀ t, (t, r) ∉ connectTimers w)
  ∧ (∀ r1 c1 k1 s1 r2 c2 k2 s2,
       heap w !! r1 = Some c1 → sockets (env c1) !! k1 = Some s1 →
       heap w !! r2 = Some c2 → sockets (env c2) !! k2 = Some s2 →
       live s1 = true → live s2 = true →
       wsRef (ui w) = Some r1 ∧ r1 = r2 ∧ k1 = k2).
Proof.
  intros w. destruct (reachable_good es) as (_ & (Hstale & Htimers & Hset) & _).
  fold w in Hstale, Htimers, Hset.
  assert (∀ r c, heap w !! r = Some c → settled REACT_APP_WS_URL c) as Hsettled.
  { intros r c Hc. rewrite Forall_forall in Hset.
    by eapply Hset, list_elem_of_lookup_2. }
  assert (∀ r c, heap w !! r = Some c → wsRef (ui w) ≠ Some r →
                 Forall (λ s, live s = false) (sockets (env c))) as Hdead.
  { intros r c Hc Hr. destruct (Hstale r c Hc Hr) as [[_ Hw] _].
    eapply released_not_live; [by eapply Hsettled|done]. }
  assert (∀ r c k s, heap w !! r = Some c → sockets (env c) !! k = Some s →
                     live s = true → wsRef (ui w) = Some r ∧ ws (this c) = Some k)
    as Hlive.
  { intros r c k s Hc Hk Hl. split.
    - destruct (decide (wsRef (ui w) = Some r)) as [|Hne]; [done|]. exfalso.
      pose proof (Hdead r c Hc Hne) as Hd. rewrite Forall_forall in Hd.
      rewrite Hd in Hl; [done|]. by eapply list_elem_of_lookup_2.
    - destruct (Hsettled r c Hc) as [[_ Ho] _]. by eapply Ho. }
  split.
  - intros r c Hc Hr. destruct (Hstale r c Hc Hr) as [[Hm Hw] Hn].
    do 3 (split; [done|]). split; [by eapply Hdead|].
    intros t Hin. destruct (Htimers _ _ Hin) as [? _]. done.
  - intros r1 c1 k1 s1 r2 c2 k2 s2 Hc1 Hk1 Hc2 Hk2 Hl1 Hl2.
    destruct (Hlive _ _ _ _ Hc1 Hk1 Hl1) as [Hr1 Hw1].
    destruct (Hlive _ _ _ _ Hc2 Hk2 Hl2) as [Hr2 Hw2].
    split; [done|]. assert (r1 = r2) as <- by congruence.
    split; [done|]. congruence.
Qed.

(** X16. What the browser still delivers for an instance the component
    has let go (late close, error and open events of its sockets, a
    reconnect timeout that was pending) does not reach the component: its
    state and its pending connect timeouts stay as they are, the other
    instances are untouched, and the instance itself stays released; it
    constructs no socket and schedules no reconnect. *)
Theorem stale_events_are_ignored es r e :
  let w := world_run JSON_parse JSON_stringify REACT_APP_WS_URL es
             initialWorld in
  wsRef (ui w) ≠ Some r →
  let w' := world_step JSON_parse JSON_stringify REACT_APP_WS_URL
              (BrowserEvent r e) w in
  ui w' = ui w
  ∧ connectTimers w' = connectTimers w
  ∧ length (heap w') = length (heap w)
  ∧ (∀ r', r' ≠ r → heap w' !! r' = heap w !! r')
  ∧ (∀ c, heap w !! r = Some c →
       ∃ c', heap w' !! r = Some c'
             ∧ Released c' ∧ no_handlers c'
             ∧ created c' = created c ∧ scheduled c' = scheduled c).
Proof.
  intros w Hr w'. subst w'.
  destruct (reachable_good es) as (_ & (Hstale & _) & _). fold w in Hstale.
  cbn [world_step]. destruct (browser_driven e) eqn:He.
  2:{ do 4 (split; [done|]). intros c Hc. exists c.
      destruct (Hstale r c Hc Hr) as [? ?]. by do 3 (split; [done|]). }
  unfold deliver. destruct (heap w !! r) as [c|] eqn:Hc.
  2:{ do 4 (split; [done|]). by intros c Hc'. }
  destruct (Hstale r c Hc Hr) as [HR Hn].
  destruct (stale_step e c (ui w) He HR Hn) as (H1 & H2 & H3 & H4 & H5).
  destruct (step JSON_parse JSON_stringify REACT_APP_WS_URL e (c, ui w))
    as [c1 u1]. cbn in H1, H2, H3, H4, H5. subst u1. cbn.
  do 2 (split; [done|]). split; [by rewrite length_insert|]. split.
  - intros r' Hne. by rewrite list_lookup_insert_ne.
  - intros c0 [= <-]. exists c1.
    rewrite list_lookup_insert_eq by (by eapply lookup_lt_Some). done.
Qed.

(** X17. The [connected] flag never lags behind the socket: in every
    world the component can reach, an instance that is connected is the
    one in [wsRef], and the flag is set, so the text field is enabled
    unless a stream is active. *)
Theorem connected_flag_covers_the_socket es r c :
  let w := world_run JSON_parse JSON_stringify REACT_APP_WS_URL es
             initialWorld in
  heap w !! r = Some c → isConnected c = true →
  wsRef (ui w) = Some r
  ∧ connected (ui w) = true
  ∧ inputDisabled (ui w) = isStreaming (ui w).
Proof.
  intros w Hc Hcon.
  destruct (reachable_good es) as (_ & (Hstale & _) & Hi).
  fold w in Hstale, Hi.
  assert (wsRef (ui w) = Some r) as Hr.
  { destruct (decide (wsRef (ui w) = Some r)) as [|Hne]; [done|]. exfalso.
    destruct (Hstale r c Hc Hne) as [HR _].
    apply Released_not_connected in HR. congruence. }
  destruct (Hi r c Hr Hc) as (_ & _ & Hflag).
  split; [done|]. unfold inputDisabled. by rewrite (Hflag Hcon).
Qed.

Lemma run_cleanup_ui w :
  let u := ui w in
  let u' := ui (run_cleanup w) in
  connected u' = connected u ∧ inputMessage u' = inputMessage u
  ∧ useRAG u' = useRAG u ∧ messages u' = messages u
  ∧ isStreaming u' = isStreaming u
  ∧ streamingContent u' = streamingContent u.
Proof.
  unfold run_cleanup, cleanup. destruct (cleanupFn w) as [[t id]|]; [|done].
  cbn. by destruct (wsRef (ui w)).
Qed.

(** X18. The session effect resets the transcript and the stream state
    but not the [connected] flag, and the cleanup takes the old
    instance's handlers away before it disconnects it, so no close
    handler clears the flag.  Hence after a switch from a connected
    session the flag is still set although the new instance has not
    connected; the input is kept and the send button is enabled when the
    input is not blank; a message sent then is handed to [send], which
    drops it with an error line, and the input is cleared: nothing is
    transmitted. *)
Theorem send_after_switch_is_lost id w r0 t0 id0 :
  id ≠ [] →
  wsRef (ui w) = Some r0 →
  cleanupFn w = Some (t0, id0) →
  connected (ui w) = true →
  trim (inputMessage (ui w)) ≠ [] →
  let r := length (heap w) in
  let w1 := session_change id w in
  let w2 := handleSendMessage JSON_stringify w1 in
  messages (ui w1) = [] ∧ isStreaming (ui w1) = false
  ∧ streamingContent (ui w1) = []
  ∧ inputMessage (ui w1) = inputMessage (ui w)
  ∧ connected (ui w1) = true
  ∧ sendDisabled (ui w1) = false
  ∧ wsRef (ui w1) = Some r
  ∧ heap w1 !! r = Some (registered r id)
  ∧ isConnected (registered r id) = false
  ∧ wire w2 = wire w1
  ∧ heap w2 !! r = Some (emit (EConsole ErrNotConnected) (registered r id))
  ∧ inputMessage (ui w2) = [].
Proof.
  intros Hid Hw Hc Hcon Hin r w1 w2.
  destruct (session_change_unfold id w r0 t0 id0 Hid Hw Hc)
    as (_ & Hheap & Href & _).
  fold r w1 in Hheap, Href.
  assert (length (alter (disconnect ∘ clearHandlers) r0 (heap w)) = r) as Hlen.
  { by rewrite length_alter. }
  assert (heap w1 !! r = Some (registered r id)) as Hr.
  { rewrite Hheap. by rewrite list_lookup_middle. }
  destruct (run_cleanup_ui w) as (C1 & C2 & _).
  assert (wsRef (ui (run_cleanup w)) = None) as Hnone.
  { unfold run_cleanup, cleanup. rewrite Hc. cbn. by rewrite Hw. }
  destruct id as [|ch id]; [done|].
  destruct (effect_clean ch id (run_cleanup w) Hnone)
    as (_ & _ & _ & _ & E1 & E2 & _ & E4 & E5 & E6).
  cbn zeta in C1, C2.
  change (effect (ch :: id) (run_cleanup w)) with w1 in E1, E2, E4, E5, E6.
  assert (inputMessage (ui w1) = inputMessage (ui w)) as Hi by congruence.
  assert (connected (ui w1) = true) as Hc1 by congruence.
  do 3 (split; [done|]). split; [done|]. split; [done|].
  split.
  { unfold sendDisabled. rewrite Hc1, E5, Hi.
    by rewrite bool_decide_eq_false_2. }
  split; [done|]. split; [done|]. split; [done|].
  assert (w2 = on_ui (setInputMessage [])
                 (call r (OpSend r (mkCommand (js "message")
                                      (trim (inputMessage (ui w1)))
                                      (useRAG (ui w1))))
                    (send JSON_stringify
                       (mkCommand (js "message") (trim (inputMessage (ui w1)))
                          (useRAG (ui w1)))) w1)) as ->.
  { subst w2. unfold handleSendMessage. rewrite Href, E5, Hi.
    by rewrite bool_decide_eq_false_2. }
  clearbody w1. cbn. unfold wire. cbn. rewrite list_lookup_alter_eq, Hr. cbn.
  split; [|done].
  apply list_eq. intros i. rewrite !list_lookup_fmap, list_lookup_alter.
  case_decide; [subst i|done]. by rewrite Hr.
Qed.

(** The handlers of the effect other than the dispatcher leave the
    transcript and the stream state alone. *)
Lemma wired_stream_view r e (c : Instance) u :
  browser_driven e = true → (∀ k data, e ≠ TransportMessage k data) →
  wired r c u →
  stream_view (step JSON_parse JSON_stringify REACT_APP_WS_URL e (c, u)).2
  = stream_view u.
Proof.
  intros He Hm (Hh & _ & _).
  assert (keeps_ref c) as Hk.
  { eapply keeps_ref_handlers; [exact Hh|apply keeps_ref_registered]. }
  unfold handlers_of in Hh. cbn in Hh. injection Hh as _ Her Hop Hclo.
  assert (∀ c0 : Instance, errorHandlers (this c0) = errorHandlers (this c) →
            ∀ u0, stream_view (onerror c0 u0).2 = stream_view u0) as Herr.
  { intros c0 E u0. unfold onerror, forEach. case_match; [|done].
    cbn. rewrite E, Her. cbn. unfold errorHandler. by case_match. }
  assert (∀ ev (c0 : Instance),
            closeHandlers (this c0) = closeHandlers (this c) →
            ∀ u0, stream_view (onclose ev c0 u0).2 = stream_view u0)
    as Hclose.
  { intros ev c0 E u0. unfold onclose, forEach. cbn. rewrite E, Hclo. cbn.
    by case_match. }
  destruct e; try done; cbn [step].
  - destruct (socketState k c) as [[]|]; try done.
    unfold onopen, forEach. cbn. by rewrite Hop.
  - by destruct (Hm k data).
  - destruct (socketState k c) as [s|]; try done. by apply Herr.
  - destruct (socketState k c) as [[]|]; try done; by apply Hclose.
  - assert (stream_view
              (let '(c1, a1) := onerror (set_readyState k CLOSED c) u in
               onclose ev c1 a1).2 = stream_view u) as Hfail.
    { pose proof (Herr (set_readyState k CLOSED c) eq_refl u) as H1.
      destruct (keeps_ref_onerror (set_readyState k CLOSED c) u Hk)
        as [H2 _].
      destruct (onerror (set_readyState k CLOSED c) u) as [c1 u1].
      cbn in H1, H2. rewrite <-H1. apply Hclose.
      unfold handlers_of in H2. by injection H2. }
    destruct (socketState k c) as [[]|]; try done.
  - by destruct (pending t c).
Qed.

Lemma stream_view_world_step e w :
  good REACT_APP_WS_URL w → frame_free e = true →
  stream_view (ui (world_step JSON_parse JSON_stringify REACT_APP_WS_URL e w))
  = stream_view (ui w).
Proof.
  intros (Hb & (Hstale & _) & Hi) He. destruct e as [sid| |t|r e|s|b|]; try done; cbn [world_step].
  - unfold connect_timer_fires. by destruct (list_find _ _) as [[i [t' r']]|].
  - destruct (browser_driven e) eqn:Hbd; [|done]. unfold deliver.
    destruct (heap w !! r) as [c|] eqn:Hc; [|done].
    assert (stream_view
              (step JSON_parse JSON_stringify REACT_APP_WS_URL e (c, ui w)).2
            = stream_view (ui w)) as Hv.
    { destruct (decide (wsRef (ui w) = Some r)) as [Hr|Hr].
      - apply (wired_stream_view r); [done| |by apply Hi].
        intros k data ->. done.
      - destruct (Hstale r c Hc Hr) as [HR Hn].
        by destruct (stale_step e c (ui w) Hbd HR Hn) as (_ & _ & -> & _). }
    by destruct (step JSON_parse JSON_stringify REACT_APP_WS_URL e (c, ui w)).
  - unfold handleSendMessage. by repeat case_match.
Qed.

(** X19. While the component is mounted, only received frames and a
    session change move the transcript and the stream state: connects,
    opens, errors, closes, reconnect timeouts, typing, toggling and
    sending leave the transcript, the stream flag, the buffer and the
    committed renders as they are.  So a stream that is cut off by a
    close stays active across the reconnect: the text field and the send
    button stay disabled and [handleSendMessage] does nothing, until a
    frame ends the stream or the session changes. *)
Theorem stream_state_is_frame_driven es es' :
  forallb frame_free es' = true →
  let w := world_run JSON_parse JSON_stringify REACT_APP_WS_URL es
             initialWorld in
  let w' := world_run JSON_parse JSON_stringify REACT_APP_WS_URL es' w in
  messages (ui w') = messages (ui w)
  ∧ isStreaming (ui w') = isStreaming (ui w)
  ∧ streamingContent (ui w') = streamingContent (ui w)
  ∧ commits (ui w') = commits (ui w)
  ∧ (isStreaming (ui w) = true →
       inputDisabled (ui w') = true ∧ sendDisabled (ui w') = true
       ∧ handleSendMessage JSON_stringify w' = w').
Proof.
  intros Hes w w'.
  assert (stream_view (ui w') = stream_view (ui w)) as Hv.
  { subst w'. pose proof (reachable_good es) as Hg. fold w in Hg.
    clearbody w. revert w Hg.
    induction es' as [|e es' IH]; intros w Hg; [done|].
    cbn in Hes. apply andb_true_iff in Hes as [He Hes].
    change (world_run JSON_parse JSON_stringify REACT_APP_WS_URL (e :: es') w)
      with (world_run JSON_parse JSON_stringify REACT_APP_WS_URL es'
              (world_step JSON_parse JSON_stringify REACT_APP_WS_URL e w)).
    rewrite IH; [|done|by apply good_world_step].
    by apply stream_view_world_step. }
  unfold stream_view in Hv. injection Hv as H1 H2 H3 H4.
  do 4 (split; [done|]). intros Hs. rewrite Hs in H2.
  unfold inputDisabled, sendDisabled, handleSendMessage. rewrite H2.
  by rewrite !orb_true_r.
Qed.

End TidyFacts.

(** * Facts about the page *)

Section PageFacts.
Variable JSON_parse : jsstring → option WebSocketMessage.
Variable JSON_stringify : Command → jsstring.
Variable REACT_APP_WS_URL : option jsstring.

Lemma sessionId_step e (c : Instance) u :
  settled REACT_APP_WS_URL c →
  sessionId (this (step JSON_parse JSON_stringify REACT_APP_WS_URL e (c, u)).1)
  = sessionId (this c).
Proof.
  intros Hc.
  by pose proof (sound_step JSON_parse JSON_stringify REACT_APP_WS_URL
                   _ e c u Hc) as [_ [Hid _]].
Qed.

(** Steps other than a session change keep the binding. *)
Lemma world_step_keeps_binding e w :
  good REACT_APP_WS_URL w →
  (∀ id, e ≠ SessionChanges id) → e ≠ Unmounts →
  let w' := world_step JSON_parse JSON_stringify REACT_APP_WS_URL e w in
  wsRef (ui w') = wsRef (ui w)
  ∧ ∀ r c, heap w !! r = Some c →
           ∃ c', heap w' !! r = Some c'
                 ∧ sessionId (this c') = sessionId (this c).
Proof.
  intros ([_ Hk] & (_ & _ & Hset) & _) He1 He2 w'. subst w'.
  assert (∀ r c, heap w !! r = Some c → settled REACT_APP_WS_URL c) as Hsettled.
  { intros r c Hc. rewrite Forall_forall in Hset.
    by eapply Hset, list_elem_of_lookup_2. }
  assert (∀ (f : Instance → Instance) r0,
            (∀ c, settled REACT_APP_WS_URL c →
                  sessionId (this (f c)) = sessionId (this c)) →
            ∀ r c, heap w !! r = Some c →
                   ∃ c', alter f r0 (heap w) !! r = Some c'
                         ∧ sessionId (this c') = sessionId (this c)) as Halter.
  { intros f r0 Hf r c Hc. rewrite list_lookup_alter. case_decide; [subst r0|].
    - rewrite Hc. cbn. eexists. split; [done|]. by eapply Hf, Hsettled.
    - by exists c. }
  destruct e as [sid| |t|r e|s|b|]; cbn [world_step]; try done.
  - by destruct (He1 sid).
  - unfold connect_timer_fires.
    destruct (list_find _ _) as [[i [t' r']]|]; [|by eauto].
    split; [done|]. cbn. apply Halter. intros c Hc.
    exact (sessionId_step CallConnect c (ui w) Hc).
  - destruct (browser_driven e) eqn:He; [|by eauto]. unfold deliver.
    destruct (heap w !! r) as [c|] eqn:Hc; [|by eauto].
    assert (keeps_ref c) as Hkc.
    { rewrite Forall_forall in Hk. by eapply Hk, list_elem_of_lookup_2. }
    destruct (keeps_ref_step JSON_parse JSON_stringify REACT_APP_WS_URL
                e c (ui w) Hkc He) as [_ Hw].
    pose proof (sessionId_step e c (ui w) (Hsettled _ _ Hc)) as Hid.
    destruct (step JSON_parse JSON_stringify REACT_APP_WS_URL e (c, ui w))
      as [c1 u1]. cbn in Hw, Hid. cbn. split; [done|].
    intros r' c'. rewrite list_insert_alter, list_lookup_alter.
    case_decide; [subst r'|by eauto].
    rewrite Hc. intros [= <-]. cbn. by eauto.
  - by eauto.
  - by eauto.
  - unfold handleSendMessage.
    destruct (bool_decide _ || _ || _); [by eauto|].
    destruct (wsRef (ui w)) as [r0|] eqn:Hw; [|by eauto].
    cbn. split; [done|]. apply Halter. intros c Hc.
    exact (sessionId_step (CallSend _) c (ui w) Hc).
Qed.

Lemma good_mounted_afresh w :
  good REACT_APP_WS_URL w → wsRef (ui w) = None →
  good REACT_APP_WS_URL (on_ui mounted_afresh w)
  ∧ run_cleanup (on_ui mounted_afresh w) = on_ui mounted_afresh w.
Proof.
  intros ([Hb Hk] & (Hstale & Htimers & Hset) & Hi) Hw.
  assert (cleanupFn w = None) as Hc by (by apply Hb).
  split; [|unfold run_cleanup; cbn; by rewrite Hc].
  split; [|split].
  - by split.
  - split; [|split; [|done]]; cbn.
    + intros r c Hr _. apply (Hstale r); [done|]. congruence.
    + intros t r Hin. destruct (Htimers _ _ Hin) as [? _]. congruence.
  - intros r c Hr. cbn in Hr. done.
Qed.

Lemma linked_session_change ch id w :
  good REACT_APP_WS_URL w →
  let w' := session_change (ch :: id) w in
  good REACT_APP_WS_URL w'
  ∧ ∃ r c, wsRef (ui w') = Some r ∧ heap w' !! r = Some c
           ∧ sessionId (this c) = ch :: id.
Proof.
  intros Hg w'. split.
  { exact (good_world_step JSON_parse JSON_stringify REACT_APP_WS_URL
             (SessionChanges (ch :: id)) w Hg). }
  destruct Hg as (Hb & Ht & _).
  destruct (run_cleanup_clean JSON_parse JSON_stringify REACT_APP_WS_URL
              w Hb Ht) as (H1 & _).
  destruct (effect_clean ch id (run_cleanup w) H1) as (Hh & Hr & _).
  exists (length (heap (run_cleanup w))), (registered (length (heap (run_cleanup w))) (ch :: id)).
  split; [exact Hr|]. split; [|done].
  subst w'. unfold session_change. rewrite Hh. by rewrite list_lookup_middle.
Qed.

Lemma linked_chat_step e p :
  linked REACT_APP_WS_URL p →
  linked REACT_APP_WS_URL
    (chat_step JSON_parse JSON_stringify REACT_APP_WS_URL e p).
Proof.
  intros [Hg Hl]. destruct p as [cur w]. cbn in Hg, Hl.
  assert (∀ e, (∀ id, e ≠ SessionChanges id) → e ≠ Unmounts →
            linked REACT_APP_WS_URL
              (mkChat cur (world_step JSON_parse JSON_stringify
                             REACT_APP_WS_URL e w))) as Hin.
  { intros e0 He1 He2.
    destruct (world_step_keeps_binding e0 w Hg He1 He2) as [Hw Hh].
    split; [by apply good_world_step|]. cbn.
    destruct cur as [[|ch id]|]; [congruence| |congruence].
    destruct Hl as (r & c & Hr & Hc & Hid).
    destruct (Hh r c Hc) as (c' & Hc' & Hid').
    exists r, c'. split; [congruence|]. split; [done|congruence]. }
  destruct e as [s|e].
  - unfold chat_step, handleSessionSelect. cbn [currentSessionId chat].
    destruct cur as [[|c old]|]; destruct s as [[|d new]|];
      try (by split).
    + (* mount *)
      destruct (good_mounted_afresh w Hg Hl) as [Hg' Hrc].
      pose proof (linked_session_change d new _ Hg') as Hsc.
      unfold session_change in Hsc. rewrite Hrc in Hsc. exact Hsc.
    + (* unmount *)
      split; [exact (good_world_step JSON_parse JSON_stringify
                       REACT_APP_WS_URL Unmounts w Hg)|].
      destruct Hg as (Hb & Ht & _).
      by destruct (run_cleanup_clean JSON_parse JSON_stringify
                     REACT_APP_WS_URL w Hb Ht) as (H1 & _).
    + (* another session *)
      case_bool_decide as Heq; [rewrite <-Heq; by split|].
      by apply linked_session_change.
    + split; [exact (good_world_step JSON_parse JSON_stringify
                       REACT_APP_WS_URL Unmounts w Hg)|].
      destruct Hg as (Hb & Ht & _).
      by destruct (run_cleanup_clean JSON_parse JSON_stringify
                     REACT_APP_WS_URL w Hb Ht) as (H1 & _).
    + destruct (good_mounted_afresh w Hg Hl) as [Hg' Hrc].
      pose proof (linked_session_change d new _ Hg') as Hsc.
      unfold session_change in Hsc. rewrite Hrc in Hsc. exact Hsc.
  - destruct e as [sid| |t|r e|s|b|]; cbn [chat_step currentSessionId chat]; try (by split).
    + by apply Hin.
    + by apply Hin.
    + destruct (truthy cur); [by apply Hin|by split].
    + destruct (truthy cur); [by apply Hin|by split].
    + destruct (truthy cur); [by apply Hin|by split].
Qed.

Lemma linked_chat_run es p :
  linked REACT_APP_WS_URL p →
  linked REACT_APP_WS_URL
    (chat_run JSON_parse JSON_stringify REACT_APP_WS_URL es p).
Proof.
  revert p. induction es as [|e es IH]; intros p Hp; [done|].
  cbn. apply IH. by apply linked_chat_step.
Qed.

(** X20. The chat is connected to the selected session and to nothing
    else.  Whatever is selected and deselected on the page, and whatever
    the user and the browser do in between: when a session is selected,
    the instance in [wsRef] is one constructed for it; when none is, no
    instance is bound and no connect timeout is pending; and every socket
    that is connecting or open belongs to the instance in [wsRef] and
    goes to the endpoint of the selected session. *)
Theorem chat_follows_selection es :
  let p := chat_run JSON_parse JSON_stringify REACT_APP_WS_URL es
             initialChat in
  let w := chat p in
  (∀ id, currentSessionId p = Some id → id ≠ [] →
     ∃ r c, wsRef (ui w) = Some r ∧ heap w !! r = Some c
            ∧ sessionId (this c) = id)
  ∧ (truthy (currentSessionId p) = false →
       wsRef (ui w) = None ∧ connectTimers w = [])
  ∧ (∀ r c k s, heap w !! r = Some c → sockets (env c) !! k = Some s →
       live s = true →
       wsRef (ui w) = Some r ∧ ws (this c) = Some k
       ∧ ∃ id, currentSessionId p = Some id ∧ id ≠ []
               ∧ url s = wsUrlOf REACT_APP_WS_URL id).
Proof.
  intros p w.
  assert (linked REACT_APP_WS_URL initialChat) as H0.
  { split; [apply good_initialWorld|done]. }
  destruct (linked_chat_run es initialChat H0) as [Hg Hl].
  fold p in Hg, Hl. fold w in Hg, Hl.
  destruct Hg as (_ & (Hstale & Htimers & Hset) & _).
  assert (∀ r c, heap w !! r = Some c → settled REACT_APP_WS_URL c) as Hsettled.
  { intros r c Hc. rewrite Forall_forall in Hset.
    by eapply Hset, list_elem_of_lookup_2. }
  split; [|split].
  - intros id Hcur Hid. rewrite Hcur in Hl. by destruct id.
  - intros Hf.
    assert (wsRef (ui w) = None) as Hw.
    { by destruct (currentSessionId p) as [[|ch id]|]. }
    split; [done|]. apply elem_of_nil_inv. intros [t r] Hin.
    destruct (Htimers _ _ Hin) as [? _]. congruence.
  - intros r c k s Hc Hk Hlive.
    destruct (Hsettled r c Hc) as [[_ Ho] [_ Hurl]].
    assert (wsRef (ui w) = Some r) as Hr.
    { destruct (decide (wsRef (ui w) = Some r)) as [|Hne]; [done|]. exfalso.
      destruct (Hstale r c Hc Hne) as [[_ Hnone] _].
      pose proof (Ho _ _ Hk Hlive). congruence. }
    split; [done|]. split; [by eapply Ho|].
    destruct (currentSessionId p) as [[|ch id]|]; [congruence| |congruence].
    destruct Hl as (r' & c' & Hr' & Hc' & Hid).
    assert (r' = r) as -> by congruence.
    assert (c' = c) as -> by congruence.
    exists (ch :: id). split; [done|]. split; [done|].
    rewrite Forall_forall in Hurl. rewrite <-Hid.
    by eapply Hurl, list_elem_of_lookup_2.
Qed.

End PageFacts.

(** * The further facts on concrete inputs *)

(** X5 at work: the dispatcher and a second handler, on [stream_start]. *)
Lemma handlers_run_in_registration_order_witness :
  let hs := [handleWebSocketMessage; λ _, setUseRAG true] in
  let st := runDemo (CallOnMessage <$> hs) openedDemo in
  let st' := onmessage parseTagOnly (tagOnlyText "stream_start") st.1 st.2 in
  parseTagOnly (tagOnlyText "stream_start") = Some Frame.stream_start
  ∧ st'.2 = setUseRAG true
              (handleWebSocketMessage Frame.stream_start openedDemo.2)
  ∧ invocations st'.1
    = invocations openedDemo.1 ++ [(RMessage, 0%nat); (RMessage, 1%nat)].
Proof.
  cbn zeta.
  assert (parseTagOnly (tagOnlyText "stream_start") = Some Frame.stream_start)
    as Hp by (vm_compute; reflexivity).
  split; [exact Hp|].
  pose proof (handlers_run_in_registration_order parseTagOnly stringifyCommand
                None [handleWebSocketMessage; λ _, setUseRAG true]
                (tagOnlyText "stream_start") Frame.stream_start
                openedDemo.1 openedDemo.2 Hp) as H.
  cbn zeta in H. destruct H as (_ & _ & H3 & H4).
  split; [vm_compute in H3; vm_compute; exact H3|].
  vm_compute in H4; vm_compute; exact H4.
Defined.

(** X6 at work: after [clearHandlers()] a frame, a close, the reconnect
    and a [send] reach no handler. *)
Lemma clearHandlers_silences_witness :
  let c := onMessage handleWebSocketMessage openedDemo.1 in
  let es := [ TransportMessage 0 (tagOnlyText "stream_start");
              TransportClose 0 abnormal; TimerFires 0; TransportOpen 1;
              CallSend hello ] in
  let st := runDemo es (clearHandlers c, openedDemo.2) in
  forallb (λ e, negb (registers e)) es = true
  ∧ st.2 = openedDemo.2
  ∧ invocations st.1 = invocations c
  ∧ isConnected st.1 = true.
Proof.
  cbn zeta. split; [reflexivity|].
  pose proof (clearHandlers_silences parseTagOnly stringifyCommand None
                [ TransportMessage 0 (tagOnlyText "stream_start");
                  TransportClose 0 abnormal; TimerFires 0; TransportOpen 1;
                  CallSend hello ]
                (onMessage handleWebSocketMessage openedDemo.1) openedDemo.2
                eq_refl) as H.
  cbn zeta in H. destruct H as (H1 & H2 & _).
  split; [exact H1|]. split; [exact H2|]. vm_compute. reflexivity.
Defined.

(** X8 at work: after the first failure the reconnect fires, its socket
    fails too, the owner calls [connect()] and that socket closes as
    well. *)
Lemma reconnect_waits_for_open_witness :
  let es := [ TimerFires 0; TransportFailure 1 abnormal; CallConnect;
              TransportClose 2 abnormal; CallSend hello ] in
  let c' := (runDemo es failedOnce).1 in
  isReconnecting (this failedOnce.1) = true
  ∧ forallb (λ e, negb (resets_backoff e)) es = true
  ∧ scheduled failedOnce.1 = [1000]
  ∧ created c' = 3%nat
  ∧ isReconnecting (this c') = true
  ∧ scheduled c' = [1000].
Proof.
  cbn zeta.
  assert (isReconnecting (this failedOnce.1) = true) as Hr
    by (vm_compute; reflexivity).
  split; [exact Hr|]. split; [reflexivity|].
  split; [vm_compute; reflexivity|]. split; [vm_compute; reflexivity|].
  pose proof (reconnect_waits_for_open parseTagOnly stringifyCommand None
                [ TimerFires 0; TransportFailure 1 abnormal; CallConnect;
                  TransportClose 2 abnormal; CallSend hello ]
                failedOnce.1 failedOnce.2 Hr eq_refl) as H.
  cbn zeta in H. destruct H as (H1 & _ & H3 & _).
  split; [exact H1|]. etrans; [exact H3|]. vm_compute. reflexivity.
Defined.

(** X10 at work: a malformed text, an error event, a [send] and
    [clearHandlers()] on the open socket. *)
Lemma traffic_leaves_the_connection_alone_witness :
  let es := [ TransportMessage 0 (js "{not json"); TransportError 0;
              CallSend hello; CallClearHandlers ] in
  let c' := (runDemo es openedDemo).1 in
  forallb quiet es = true
  ∧ getState c' = Some OPEN
  ∧ timers (env c') = []
  ∧ scheduled c' = [].
Proof.
  cbn zeta. split; [reflexivity|].
  pose proof (traffic_leaves_the_connection_alone parseTagOnly stringifyCommand
                None
                [ TransportMessage 0 (js "{not json"); TransportError 0;
                  CallSend hello; CallClearHandlers ]
                openedDemo.1 openedDemo.2 eq_refl) as H.
  cbn zeta in H. destruct H as (_ & _ & H3 & H4 & _ & _ & _ & H8).
  split; [etrans; [exact H3|]; vm_compute; reflexivity|].
  split; [etrans; [exact H4|]; vm_compute; reflexivity|].
  etrans; [exact H8|]. vm_compute. reflexivity.
Defined.

(** X11 at work: a stream and a message after a [history] frame. *)
Lemma transcript_of_frames_witness :
  let gs := [ Frame.stream_start; Frame.stream_token (js "Hello world");
              Frame.stream_end helloWorld; Frame.error (js "late");
              Frame.message helloWorld ] in
  forallb (λ f, negb (isHistory f)) gs = true
  ∧ messages (dispatch ([Frame.message helloWorld; Frame.history []] ++ gs)
                initialChatInterface)
    = [helloWorld; helloWorld].
Proof.
  cbn zeta. split; [reflexivity|].
  destruct (transcript_of_frames [Frame.message helloWorld] []
              [ Frame.stream_start; Frame.stream_token (js "Hello world");
                Frame.stream_end helloWorld; Frame.error (js "late");
                Frame.message helloWorld ]
              initialChatInterface eq_refl) as [_ H].
  exact H.
Defined.

(** X12 at work: a second [stream_start] while a stream is active, then
    two tokens with an [error] frame in between. *)
Lemma buffer_is_tokens_since_start_witness :
  let fs := [Frame.stream_start; Frame.stream_token (js "old")] in
  let gs := [ Frame.stream_token (js "Hel"); Frame.error (js "e");
              Frame.stream_token (js "lo") ] in
  let u' := dispatch (fs ++ Frame.stream_start :: gs) initialChatInterface in
  forallb (λ f, negb (delimitsStream f)) gs = true
  ∧ isStreaming u' = true
  ∧ streamingContent u' = js "Hello".
Proof.
  cbn zeta. split; [reflexivity|].
  pose proof (buffer_is_tokens_since_start
                [Frame.stream_start; Frame.stream_token (js "old")]
                [ Frame.stream_token (js "Hel"); Frame.error (js "e");
                  Frame.stream_token (js "lo") ]
                initialChatInterface eq_refl) as H.
  cbn zeta in H. destruct H as (H1 & H2 & _).
  split; [exact H1|]. etrans; [exact H2|]. vm_compute. reflexivity.
Defined.


(** X21 at work: [disconnect()] on the open socket, with an open and a
    close handler registered; the close event still clears the flag the
    open handler has set. *)
Lemma disconnect_keeps_the_handlers_witness :
  let c := onClose (closeHandler (js "session123"))
             (onOpen (openHandler (js "session123")) openedDemo.1) in
  let a := openHandler (js "session123") openedDemo.2 in
  let closed := step parseTagOnly stringifyCommand None
                  (TransportClose 0 abnormal) (disconnect c, a) in
  ws (this c) = Some 0%nat
  ∧ socketState 0 c = Some OPEN
  ∧ connected a = true
  ∧ connected closed.2 = false
  ∧ scheduled closed.1 = [].
Proof.
  cbn zeta.
  assert (ws (this (onClose (closeHandler (js "session123"))
                      (onOpen (openHandler (js "session123")) openedDemo.1)))
          = Some 0%nat) as Hw by (vm_compute; reflexivity).
  assert (socketState 0
            (onClose (closeHandler (js "session123"))
               (onOpen (openHandler (js "session123")) openedDemo.1))
          = Some OPEN) as Hk by (vm_compute; reflexivity).
  split; [exact Hw|]. split; [exact Hk|]. split; [vm_compute; reflexivity|].
  pose proof (disconnect_keeps_the_handlers parseTagOnly stringifyCommand None
                abnormal 0%nat _ (openHandler (js "session123") openedDemo.2)
                Hw (or_introl Hk)) as H.
  cbn zeta in H. destruct H as (_ & H2 & _ & H4 & _).
  split.
  - apply (f_equal connected) in H2. etrans; [exact H2|].
    vm_compute. reflexivity.
  - etrans; [exact H4|]. vm_compute. reflexivity.
Defined.

(** X15 at work: session [a] was opened, then session [b] is shown and
    connects: the first instance is released and its socket is closing,
    the socket of the second is connecting. *)
Lemma one_connection_at_a_time_witness :
  let w := world_run parseTagOnly stringifyCommand None
             (openA ++ [SessionChanges (js "b"); ConnectTimerFires 1])
             initialWorld in
  wsRef (ui w) = Some 1%nat
  ∧ (λ c : Instance, readyState <$> sockets (env c)) <$> heap w
    = [[CLOSING]; [CONNECTING]]
  ∧ ∃ c, heap w !! 0%nat = Some c
         ∧ isManuallyDisconnected (this c) = true
         ∧ ws (this c) = None
         ∧ no_handlers c
         ∧ Forall (λ s, live s = false) (sockets (env c)).
Proof.
  cbn zeta. split; [vm_compute; reflexivity|].
  split; [vm_compute; reflexivity|].
  assert (∃ c, heap (world_run parseTagOnly stringifyCommand None
                       (openA ++ [SessionChanges (js "b"); ConnectTimerFires 1])
                       initialWorld) !! 0%nat = Some c) as [c Hc].
  { eexists. vm_compute. reflexivity. }
  assert (wsRef (ui (world_run parseTagOnly stringifyCommand None
                       (openA ++ [SessionChanges (js "b"); ConnectTimerFires 1])
                       initialWorld)) ≠ Some 0%nat) as Hr
    by (vm_compute; discriminate).
  destruct (one_connection_at_a_time parseTagOnly stringifyCommand None
              (openA ++ [SessionChanges (js "b"); ConnectTimerFires 1]))
    as [H _].
  destruct (H 0%nat c Hc Hr) as (H1 & H2 & H3 & H4 & _).
  exists c. by do 4 (split; [assumption|]).
Defined.

(** X16 at work: session [a] was opened and session [b] is shown; the
    socket of the first instance closes. *)
Lemma stale_events_are_ignored_witness :
  let w := world_run parseTagOnly stringifyCommand None
             (openA ++ [SessionChanges (js "b")]) initialWorld in
  let w' := world_step parseTagOnly stringifyCommand None
              (BrowserEvent 0 (TransportClose 0 abnormal)) w in
  wsRef (ui w) ≠ Some 0%nat
  ∧ (λ c : Instance, readyState <$> sockets (env c)) <$> heap w
    = [[CLOSING]; []]
  ∧ (λ c : Instance, readyState <$> sockets (env c)) <$> heap w'
    = [[CLOSED]; []]
  ∧ ui w' = ui w
  ∧ connectTimers w' = connectTimers w.
Proof.
  cbn zeta.
  assert (wsRef (ui (world_run parseTagOnly stringifyCommand None
             (openA ++ [SessionChanges (js "b")]) initialWorld))
          ≠ Some 0%nat) as Hr by (vm_compute; discriminate).
  split; [exact Hr|].
  split; [vm_compute; reflexivity|]. split; [vm_compute; reflexivity|].
  destruct (stale_events_are_ignored parseTagOnly stringifyCommand None
              (openA ++ [SessionChanges (js "b")]) 0%nat
              (TransportClose 0 abnormal) Hr) as (H1 & H2 & _).
  split; [exact H1|exact H2].
Defined.

(** X17 at work: the socket of session [a] has opened. *)
Lemma connected_flag_covers_the_socket_witness :
  let w := world_run parseTagOnly stringifyCommand None openA initialWorld in
  ∃ c, heap w !! 0%nat = Some c
       ∧ isConnected c = true
       ∧ wsRef (ui w) = Some 0%nat
       ∧ connected (ui w) = true
       ∧ inputDisabled (ui w) = false.
Proof.
  cbn zeta.
  assert (∃ c, heap (world_run parseTagOnly stringifyCommand None openA
                       initialWorld) !! 0%nat = Some c
               ∧ isConnected c = true) as (c & Hc & Hi).
  { eexists. split; vm_compute; reflexivity. }
  destruct (connected_flag_covers_the_socket parseTagOnly stringifyCommand
              None openA 0%nat c Hc Hi) as (H1 & H2 & H3).
  exists c. do 4 (split; [assumption|]).
  etrans; [exact H3|]. vm_compute. reflexivity.
Defined.

(** X18 at work: the user has typed [hi] in session [a], which is
    connected, selects session [b] and sends before its socket opens. *)
Lemma send_after_switch_is_lost_witness :
  let w := world_run parseTagOnly stringifyCommand None
             (openA ++ [UserTypes (js "hi")]) initialWorld in
  let w1 := session_change (js "b") w in
  let w2 := handleSendMessage stringifyCommand w1 in
  js "b" ≠ []
  ∧ wsRef (ui w) = Some 0%nat
  ∧ cleanupFn w = Some (0%nat, js "a")
  ∧ connected (ui w) = true
  ∧ trim (inputMessage (ui w)) ≠ []
  ∧ connected (ui w1) = true
  ∧ sendDisabled (ui w1) = false
  ∧ wire w2 = [[]; []]
  ∧ inputMessage (ui w2) = [].
Proof.
  cbn zeta.
  assert (js "b" ≠ []) as Hb by discriminate.
  assert (wsRef (ui (world_run parseTagOnly stringifyCommand None
             (openA ++ [UserTypes (js "hi")]) initialWorld))
          = Some 0%nat) as Hr by (vm_compute; reflexivity).
  assert (cleanupFn (world_run parseTagOnly stringifyCommand None
             (openA ++ [UserTypes (js "hi")]) initialWorld)
          = Some (0%nat, js "a")) as Hc by (vm_compute; reflexivity).
  assert (connected (ui (world_run parseTagOnly stringifyCommand None
             (openA ++ [UserTypes (js "hi")]) initialWorld)) = true)
    as Hcon by (vm_compute; reflexivity).
  assert (trim (inputMessage (ui (world_run parseTagOnly stringifyCommand None
             (openA ++ [UserTypes (js "hi")]) initialWorld)))
          ≠ []) as Hin by (vm_compute; discriminate).
  do 5 (split; [assumption|]).
  pose proof (send_after_switch_is_lost stringifyCommand (js "b")
                (world_run parseTagOnly stringifyCommand None
             (openA ++ [UserTypes (js "hi")]) initialWorld)
                0%nat 0%nat (js "a") Hb Hr Hc Hcon Hin) as H.
  cbn zeta in H.
  destruct H as (_ & _ & _ & _ & H5 & H6 & _ & _ & _ & H10 & _ & H12).
  split; [exact H5|]. split; [exact H6|].
  split; [etrans; [exact H10|]; vm_compute; reflexivity|exact H12].
Defined.

(** X19 at work: a stream starts, the socket closes, the reconnect
    succeeds; the chat still waits for the end of the stream. *)
Lemma stream_state_is_frame_driven_witness :
  let es := openA ++ [BrowserEvent 0
                        (TransportMessage 0 (tagOnlyText "stream_start"))] in
  let es' := [ BrowserEvent 0 (TransportClose 0 abnormal);
               BrowserEvent 0 (TimerFires 0);
               BrowserEvent 0 (TransportOpen 1); UserTypes (js "hi") ] in
  let w := world_run parseTagOnly stringifyCommand None es initialWorld in
  let w' := world_run parseTagOnly stringifyCommand None es' w in
  forallb frame_free es' = true
  ∧ isStreaming (ui w) = true
  ∧ connected (ui w') = true
  ∧ (isConnected <$> heap w') = [true]
  ∧ isStreaming (ui w') = true
  ∧ sendDisabled (ui w') = true
  ∧ handleSendMessage stringifyCommand w' = w'.
Proof.
  cbn zeta. split; [reflexivity|].
  assert (isStreaming
            (ui (world_run parseTagOnly stringifyCommand None
                   (openA ++ [BrowserEvent 0
                                (TransportMessage 0 (tagOnlyText "stream_start"))])
                   initialWorld))
          = true) as Hs by (vm_compute; reflexivity).
  split; [exact Hs|].
  split; [vm_compute; reflexivity|]. split; [vm_compute; reflexivity|].
  pose proof (stream_state_is_frame_driven parseTagOnly stringifyCommand None
                (openA ++ [BrowserEvent 0
                             (TransportMessage 0 (tagOnlyText "stream_start"))])
                [ BrowserEvent 0 (TransportClose 0 abnormal);
                  BrowserEvent 0 (TimerFires 0);
                  BrowserEvent 0 (TransportOpen 1); UserTypes (js "hi") ]
                eq_refl) as H.
  cbn zeta in H. destruct H as (_ & H2 & _ & _ & H5).
  destruct (H5 Hs) as (_ & H6 & H7).
  split; [etrans; [exact H2|exact Hs]|]. split; [exact H6|exact H7].
Defined.

(** X20 at work: session [7] is selected and opens, then session [8] is
    selected and connects. *)
Lemma chat_follows_selection_witness :
  let p := chat_run parseTagOnly stringifyCommand None
             [ SelectsSession (Some (js "7")); InChat (ConnectTimerFires 0);
               InChat (BrowserEvent 0 (TransportOpen 0));
               SelectsSession (Some (js "8")); InChat (ConnectTimerFires 1) ]
             initialChat in
  currentSessionId p = Some (js "8")
  ∧ (λ c : Instance, (λ s, (url s, readyState s)) <$> sockets (env c))
      <$> heap (chat p)
    = [ [(js "ws://localhost:8000/ws/chat/7/", CLOSING)];
        [(js "ws://localhost:8000/ws/chat/8/", CONNECTING)] ]
  ∧ ∃ r c, wsRef (ui (chat p)) = Some r ∧ heap (chat p) !! r = Some c
           ∧ sessionId (this c) = js "8".
Proof.
  cbn zeta.
  assert (currentSessionId
            (chat_run parseTagOnly stringifyCommand None
               [ SelectsSession (Some (js "7")); InChat (ConnectTimerFires 0);
                 InChat (BrowserEvent 0 (TransportOpen 0));
                 SelectsSession (Some (js "8")); InChat (ConnectTimerFires 1) ]
               initialChat) = Some (js "8")) as Hcur
    by (vm_compute; reflexivity).
  split; [exact Hcur|]. split; [vm_compute; reflexivity|].
  destruct (chat_follows_selection parseTagOnly stringifyCommand None
              [ SelectsSession (Some (js "7")); InChat (ConnectTimerFires 0);
                InChat (BrowserEvent 0 (TransportOpen 0));
                SelectsSession (Some (js "8")); InChat (ConnectTimerFires 1) ])
    as [H _].
  assert (js "8" ≠ []) as Hne by discriminate.
  exact (H (js "8") Hcur Hne).
Defined.

(** X4 at work: [disconnect()] and [connect()] on the open socket; the
    new socket opens, receives a frame and sends, then closes; and the
    late close of the released socket, had it come right after
    [connect()]. *)
Lemma disconnect_connect_starts_over_witness :
  let es := [ TransportOpen 1;
              TransportMessage 1 (tagOnlyText "stream_start");
              CallSend hello ] in
  let c1 := connect None (disconnect openedDemo.1) in
  let st := runDemo es (c1, openedDemo.2) in
  forallb quiet_or_open es = true
  ∧ ws (this c1) = Some 1%nat
  ∧ (readyState <$> sockets (env c1)) = [CLOSING; CONNECTING]
  ∧ scheduled (step parseTagOnly stringifyCommand None
                 (TransportClose 1 abnormal) st).1 = [1000]
  ∧ scheduled (step parseTagOnly stringifyCommand None
                 (TransportClose 0 abnormal) (c1, openedDemo.2)).1 = [1000].
Proof.
  cbn zeta. split; [reflexivity|].
  pose proof (disconnect_connect_starts_over parseTagOnly stringifyCommand
                None
                [ TransportOpen 1;
                  TransportMessage 1 (tagOnlyText "stream_start");
                  CallSend hello ]
                abnormal openedDemo.1 openedDemo.2 eq_refl) as H.
  cbn zeta in H.
  destruct H as (_ & H2 & _ & _ & _ & _ & _ & _ & _ & _ & _ & _ & H13 & H14).
  split; [etrans; [exact H2|]; vm_compute; reflexivity|].
  split; [vm_compute; reflexivity|].
  split; [etrans; [exact H13|]; vm_compute; reflexivity|].
  assert (ws (this openedDemo.1) = Some 0%nat) as Hw
    by (vm_compute; reflexivity).
  assert (socketState 0 openedDemo.1 = Some OPEN) as Hk
    by (vm_compute; reflexivity).
  destruct (H14 0%nat Hw (or_introl Hk)) as [_ H15].
  etrans; [exact H15|]. vm_compute. reflexivity.
Defined.

(** [JSON.stringify] on control characters and lone surrogates. *)
Example test_unicode_escape :
  unicodeEscape 31 = js "\u001f"
  ∧ unicodeEscape 16 = js "\u0010"
  ∧ unicodeEscape 55357 = js "\ud83d"
  ∧ quoteJSONString [97; 31; 10; 34; 55357]
    = [34] ++ js "a\u001f\n" ++ [92; 34] ++ js "\ud83d" ++ [34].
Proof. vm_compute. repeat split. Qed.
